(** * KicadFPGA: the netlist-to-VHDL generator, [netlist_to_vhdl.py]

    A shallow embedding of the width evaluator ([parse_portsize_part]), the
    name decoder ([Port.update_from_name]), the column aligner
    ([align_on_pipe]) and the passes of [generate_code] up to the context it
    hands to the template; of the names [generate_library.py] gives to pins
    and properties; and of the readers of [netlist.py], from the parsed
    S-expression on.  The properties stated about them follow.

    Conventions of the embedding.
    - A Python [str] is a [string], one [ascii] per character (code points
      below 256).  Python's [int] is [Z].
    - A call that may raise returns an [outcome].  All uncaught exceptions
      are one constructor, [Raises]: the program never catches the ones
      modelled here (the only [except] clause is around [int(generic.value)],
      which is an [option]).
    - [Untracked] marks the few places the embedding does not follow:
      floating-point [//] and [**], and [eval] outside the alphabet the
      callers let through.  Nothing is stated about such runs; on the
      alphabet of the callers' guard, an expression with neither of these
      two operators is always followed ([int_eval_basic]).
    - Interpreter resource limits (recursion depth, memory, the digit limit
      of int/str conversions) are not modelled. *)

From Stdlib Require Import ZArith String Ascii List Bool Lia.
From Stdlib Require Import DecimalString DecimalZ DecimalPos DecimalFacts.
From Stdlib Require Import Floats.SpecFloat.
From stdpp Require Import gmap strings list.

Open Scope Z_scope.
Open Scope string_scope.

(* ------------------------------------------------------------------------- *)
(** ** Outcomes of fallible calls *)

Inductive outcome (A : Type) : Type :=
| Return (a : A)
| Raises
| Untracked.
Arguments Return {A} a.
Arguments Raises {A}.
Arguments Untracked {A}.

Definition bind {A B : Type} (m : outcome A) (k : A -> outcome B) : outcome B :=
  match m with
  | Return a => k a
  | Raises => Raises
  | Untracked => Untracked
  end.

Notation "'let*' x ':=' m 'in' k" := (bind m (fun x => k))
  (at level 10, x pattern, m at level 100, k at level 200).

(* ------------------------------------------------------------------------- *)
(** ** Python string primitives *)

Module Py.

Definition LF : ascii := "010"%char.
Definition CR : ascii := "013"%char.

Definition is_digit (c : ascii) : bool :=
  (48 <=? nat_of_ascii c)%nat && (nat_of_ascii c <=? 57)%nat.

(** The characters [int(s)] strips from both ends of [s]: the ASCII
    whitespace of C, and the two further spaces below 256. *)
Definition is_space (c : ascii) : bool :=
  let n := nat_of_ascii c in
  ((9 <=? n)%nat && (n <=? 13)%nat) || (n =? 32)%nat
  || (n =? 133)%nat || (n =? 160)%nat.

(** The line boundaries of [str.splitlines]. *)
Definition is_linebreak (c : ascii) : bool :=
  let n := nat_of_ascii c in
  ((10 <=? n)%nat && (n <=? 13)%nat) || ((28 <=? n)%nat && (n <=? 30)%nat)
  || (n =? 133)%nat.

(** [c in s] for a single character. *)
Fixpoint has_char (c : ascii) (s : string) : bool :=
  match s with
  | EmptyString => false
  | String d t => Ascii.eqb d c || has_char c t
  end.

(** [s[n:]]. *)
Fixpoint drop (n : nat) (s : string) : string :=
  match n, s with
  | O, _ => s
  | S _, EmptyString => EmptyString
  | S k, String _ t => drop k t
  end.

(** [s.startswith(p)]. *)
Definition startswith (s p : string) : bool := String.prefix p s.

(** [sub in s]. *)
Fixpoint contains (sub s : string) : bool :=
  String.prefix sub s ||
  match s with
  | EmptyString => false
  | String _ t => contains sub t
  end.

(** [s.replace(old, new)] for a non-empty [old]: occurrences are found left to
    right and do not overlap; [skip] counts the characters of an occurrence
    still to be dropped. *)
Fixpoint replace_from (old new : string) (skip : nat) (s : string) : string :=
  match s with
  | EmptyString => EmptyString
  | String c t =>
      match skip with
      | S k => replace_from old new k t
      | O =>
          if String.prefix old s
          then new +:+ replace_from old new (String.length old - 1) t
          else String c (replace_from old new O t)
      end
  end.

(** With an empty [old], Python inserts [new] before every character and at
    the end. *)
Fixpoint interleave (new s : string) : string :=
  match s with
  | EmptyString => new
  | String c t => new +:+ String c (interleave new t)
  end.

Definition replace (s old new : string) : string :=
  match old with
  | EmptyString => interleave new s
  | String _ _ => replace_from old new O s
  end.

(** [s.split(sep)] for a one-character separator: never empty. *)
Fixpoint split (sep : ascii) (s : string) : list string :=
  match s with
  | EmptyString => [EmptyString]
  | String c t =>
      if Ascii.eqb c sep then EmptyString :: split sep t
      else match split sep t with
           | [] => [String c EmptyString]
           | h :: r => String c h :: r
           end
  end.

(** [s.splitlines()]: a final line break opens no further line, and CR LF is
    one break. *)
Fixpoint splitlines (s : string) : list string :=
  match s with
  | EmptyString => []
  | String c t =>
      if is_linebreak c then
        EmptyString ::
          (if Ascii.eqb c CR
           then match t with
                | String d t' => if Ascii.eqb d LF then splitlines t' else splitlines t
                | EmptyString => []
                end
           else splitlines t)
      else match splitlines t with
           | [] => [String c EmptyString]
           | h :: r => String c h :: r
           end
  end.

(** [sep.join(l)]. *)
Definition join (sep : string) (l : list string) : string := String.concat sep l.

Fixpoint spaces (n : nat) : string :=
  match n with
  | O => EmptyString
  | S k => String " " (spaces k)
  end.

(** [f'{s:<{w}}']: left-aligned in a field of width [w], filled with spaces
    on the right; never truncated. *)
Definition ljust (s : string) (w : nat) : string :=
  s +:+ spaces (w - String.length s).

(** [s.lower()] on code points below 256. *)
Definition lower_char (c : ascii) : ascii :=
  let n := nat_of_ascii c in
  if ((65 <=? n)%nat && (n <=? 90)%nat)
     || ((192 <=? n)%nat && (n <=? 222)%nat && negb (n =? 215)%nat)
  then ascii_of_nat (n + 32) else c.

Fixpoint lower (s : string) : string :=
  match s with
  | EmptyString => EmptyString
  | String c t => String (lower_char c) (lower t)
  end.

(** [str(z)]. *)
Definition str_of_int (z : Z) : string := NilZero.string_of_int (Z.to_int z).

(** *** [int(s)] on a string: [None] is [ValueError]. *)

Fixpoint lstrip (s : string) : string :=
  match s with
  | EmptyString => EmptyString
  | String c t => if is_space c then lstrip t else s
  end.

Fixpoint rstrip (s : string) : string :=
  match s with
  | EmptyString => EmptyString
  | String c t =>
      match rstrip t with
      | EmptyString => if is_space c then EmptyString else String c EmptyString
      | r => String c r
      end
  end.

(** Digits, with single underscores allowed between two digits. *)
Fixpoint digits_ok (after_digit : bool) (s : string) : bool :=
  match s with
  | EmptyString => after_digit
  | String c t =>
      if is_digit c then digits_ok true t
      else if Ascii.eqb c "_" then after_digit && digits_ok false t
      else false
  end.

Fixpoint only_digits (s : string) : string :=
  match s with
  | EmptyString => EmptyString
  | String c t => if is_digit c then String c (only_digits t) else only_digits t
  end.

Definition digits_value (s : string) : option Z :=
  if digits_ok false s
  then option_map Z.of_uint (NilEmpty.uint_of_string (only_digits s))
  else None.

Definition int_of_str (s : string) : option Z :=
  match lstrip (rstrip s) with
  | String "+" t => digits_value t
  | String "-" t => option_map Z.opp (digits_value t)
  | t => digits_value t
  end.

End Py.


(* ------------------------------------------------------------------------- *)
(** ** The regular expressions of the program

    Each pattern the program hands to [re] is written out as the function it
    computes.  In all of them [.] matches any character but the newline. *)

Module Re.

(** *** The character class of the width expressions *)

(** [re.search(r'[^+\-*/()0-9]', s)]: some character is outside the class. *)
Definition arith_char (c : ascii) : bool :=
  Py.is_digit c ||
  match c with
  | "+"%char | "-"%char | "*"%char | "/"%char | "("%char | ")"%char => true
  | _ => false
  end.

Fixpoint has_non_arith (s : string) : bool :=
  match s with
  | EmptyString => false
  | String c t => negb (arith_char c) || has_non_arith t
  end.

(** *** The name pattern of [Port.update_from_name] *)

(** [s] without its last character, and that character. *)
Fixpoint chop_last (s : string) : option (string * ascii) :=
  match s with
  | EmptyString => None
  | String c t =>
      match chop_last t with
      | None => Some (EmptyString, c)
      | Some (init, last) => Some (String c init, last)
      end
  end.

(** [s] cut at the first [c]: the text before it and the text after it. *)
Fixpoint cut (c : ascii) (s : string) : option (string * string) :=
  match s with
  | EmptyString => None
  | String d t =>
      if Ascii.eqb d c then Some (EmptyString, t)
      else match cut c t with
           | Some (pre, post) => Some (String d pre, post)
           | None => None
           end
  end.

(** The text [$] anchors to: without [re.MULTILINE] it matches at the end of
    the string and just before a newline that ends it. *)
Definition before_final_newline (s : string) : string :=
  match chop_last s with
  | Some (init, last) => if Ascii.eqb last Py.LF then init else s
  | None => s
  end.

(** [re.search(r'^(.*?)\((.+)\)$', s)], groups 1 and 2.  The match must end
    in [')'] where [$] holds; [.] matches no newline, so none may occur before
    it; the lazy first group stops at the first ['('], and the second group,
    everything between that and the final [')'], must not be empty. *)
Definition name_hint (s : string) : option (string * string) :=
  match chop_last (before_final_newline s) with
  | Some (body, ")"%char) =>
      if Py.has_char Py.LF body then None
      else match cut "(" body with
           | Some (_, EmptyString) => None
           | Some (pre, hint) => Some (pre, hint)
           | None => None
           end
  | _ => None
  end.

(** *** The property pattern of [Component.from_comp] *)

(** [s] cut at the last occurrence of [pat]. *)
Fixpoint rcut (pat : string) (s : string) : option (string * string) :=
  match s with
  | EmptyString => None
  | String c t =>
      match rcut pat t with
      | Some (a, b) => Some (String c a, b)
      | None =>
          if String.prefix pat s then Some (EmptyString, Py.drop (String.length pat) s) else None
      end
  end.

(** The pattern of [from_comp], three greedy groups around an opening
    parenthesis and a closing parenthesis followed by [" -- "], on one line:
    the closing part is put as far right as possible and then the opening
    parenthesis as far right as possible before it. *)
Definition property_pattern_line (line : string) : option (string * string * string) :=
  match rcut ") -- " line with
  | Some (before, group3) =>
      match rcut "(" before with
      | Some (group1, group2) => Some (group1, group2, group3)
      | None => None
      end
  | None => None
  end.

(** [re.search] of that pattern: [.] matches no newline, so the match lies in
    one line, the first that has one. *)
Fixpoint first_match {A : Type} (f : string -> option A) (lines : list string) : option A :=
  match lines with
  | [] => None
  | l :: rest => match f l with
                 | Some r => Some r
                 | None => first_match f rest
                 end
  end.

Definition property_pattern (s : string) : option (string * string * string) :=
  first_match property_pattern_line (Py.split Py.LF s).

(** *** The bit ranges removed from a net name *)

(** The first [c] of [s] that no newline precedes: its index. *)
Fixpoint find_on_line (c : ascii) (s : string) : option nat :=
  match s with
  | EmptyString => None
  | String d t =>
      if Ascii.eqb d c then Some 0%nat
      else if Ascii.eqb d Py.LF then None
      else option_map S (find_on_line c t)
  end.

(** A match of [\(.*?:.*?\)] that opened just before [s]: how many characters
    of [s] it takes, up to the first [")"] after the first [":"], all on one
    line. *)
Definition range_match (s : string) : option nat :=
  match find_on_line ":" s with
  | Some i =>
      match find_on_line ")" (Py.drop (S i) s) with
      | Some j => Some (S i + S j)%nat
      | None => None
      end
  | None => None
  end.

(** [re.sub("\(.*?:.*?\)", '', s)]; [skip] counts the characters of a match
    still to be dropped. *)
Fixpoint strip_ranges_from (skip : nat) (s : string) : string :=
  match s with
  | EmptyString => EmptyString
  | String c t =>
      match skip with
      | S k => strip_ranges_from k t
      | O =>
          if Ascii.eqb c "(" then
            match range_match t with
            | Some n => strip_ranges_from n t
            | None => String c (strip_ranges_from O t)
            end
          else String c (strip_ranges_from O t)
      end
  end.

End Re.

(* ------------------------------------------------------------------------- *)
(** ** [int(eval(s))] on the alphabet the callers let through

    Both call sites guard [eval] with [re.search('[^+\-*/()0-9]', s)], so it
    only ever sees digits, the four operator characters and parentheses.  On
    that alphabet a Python expression is built from decimal literals, unary
    [+]/[-], the binary operators [+ - * / // **], parentheses, the empty
    tuple [()] and call syntax [f(...)]. *)

Module Eval.

Inductive token : Type :=
| TNum (n : Z)
| TPlus | TMinus | TStar | TDoubleStar | TSlash | TDoubleSlash
| TLParen | TRParen.

(** A decimal literal with a leading zero is a syntax error unless all its
    digits are zeros. *)
Fixpoint all_zeros (s : string) : bool :=
  match s with
  | EmptyString => true
  | String c t => Ascii.eqb c "0" && all_zeros t
  end.

Definition number_token (digits : string) : outcome token :=
  match digits with
  | String "0" t =>
      if all_zeros t then Return (TNum 0) else Raises
  | _ =>
      match NilEmpty.uint_of_string digits with
      | Some u => Return (TNum (Z.of_uint u))
      | None => Raises
      end
  end.

(** [pending] holds the digits of the literal being read. *)
Definition flush (pending : string) (rest : outcome (list token)) : outcome (list token) :=
  match pending with
  | EmptyString => rest
  | _ => let* n := number_token pending in
         let* ts := rest in
         Return (n :: ts)
  end.

Fixpoint tokenize_from (pending : string) (s : string) : outcome (list token) :=
  match s with
  | EmptyString => flush pending (Return [])
  | String c t =>
      if Py.is_digit c then tokenize_from (pending +:+ String c EmptyString) t
      else
        let op (tok : token) (t' : string) :=
          flush pending (let* ts := tokenize_from EmptyString t' in Return (tok :: ts)) in
        match c with
        | "+"%char => op TPlus t
        | "-"%char => op TMinus t
        | "("%char => op TLParen t
        | ")"%char => op TRParen t
        | "*"%char =>
            match t with
            | String "*" t' => op TDoubleStar t'
            | _ => op TStar t
            end
        | "/"%char =>
            match t with
            | String "/" t' => op TDoubleSlash t'
            | _ => op TSlash t
            end
        | _ => Untracked
        end
  end.

Definition tokenize (s : string) : outcome (list token) := tokenize_from EmptyString s.

Inductive unop : Type := UPlus | UMinus.
Inductive binop : Type := Add | Sub | Mul | TrueDiv | FloorDiv | Pow.

Inductive expr : Type :=
| ENum (n : Z)
| EUnary (op : unop) (e : expr)
| EBin (op : binop) (l r : expr).

(** Recursive descent along Python's grammar:
<<
    sum    ::= term (('+' | '-') term)*
    term   ::= factor (('*' | '/' | '//') factor)*
    factor ::= ('+' | '-') factor | power
    power  ::= atom ['**' factor]
    atom   ::= NUMBER | '(' sum ')'
>>
    The empty tuple and call syntax end in [Raises] at once: a tuple supports
    no operation that yields a number and [int] rejects it, and no value of an
    expression over this alphabet is callable, so a string containing either
    is a syntax error or raises when evaluated.  Anything else that does not
    parse is a [SyntaxError]. *)
Inductive goal : Type :=
| GSum | GSumRest (lhs : expr)
| GTerm | GTermRest (lhs : expr)
| GFactor | GPower | GAtom.

Definition after_atom (e : expr) (ts : list token) : outcome (expr * list token) :=
  match ts with
  | TLParen :: _ => Raises
  | _ => Return (e, ts)
  end.

Fixpoint parse (fuel : nat) (g : goal) (ts : list token) : outcome (expr * list token) :=
  match fuel with
  | O => Untracked
  | S k =>
      match g with
      | GSum =>
          let* (l, r) := parse k GTerm ts in parse k (GSumRest l) r
      | GSumRest l =>
          match ts with
          | TPlus :: r => let* (e, r') := parse k GTerm r in parse k (GSumRest (EBin Add l e)) r'
          | TMinus :: r => let* (e, r') := parse k GTerm r in parse k (GSumRest (EBin Sub l e)) r'
          | _ => Return (l, ts)
          end
      | GTerm =>
          let* (l, r) := parse k GFactor ts in parse k (GTermRest l) r
      | GTermRest l =>
          match ts with
          | TStar :: r => let* (e, r') := parse k GFactor r in parse k (GTermRest (EBin Mul l e)) r'
          | TSlash :: r => let* (e, r') := parse k GFactor r in parse k (GTermRest (EBin TrueDiv l e)) r'
          | TDoubleSlash :: r => let* (e, r') := parse k GFactor r in parse k (GTermRest (EBin FloorDiv l e)) r'
          | _ => Return (l, ts)
          end
      | GFactor =>
          match ts with
          | TPlus :: r => let* (e, r') := parse k GFactor r in Return (EUnary UPlus e, r')
          | TMinus :: r => let* (e, r') := parse k GFactor r in Return (EUnary UMinus e, r')
          | _ => parse k GPower ts
          end
      | GPower =>
          let* (b, r) := parse k GAtom ts in
          match r with
          | TDoubleStar :: r' => let* (e, r'') := parse k GFactor r' in Return (EBin Pow b e, r'')
          | _ => Return (b, r)
          end
      | GAtom =>
          match ts with
          | TNum n :: r => after_atom (ENum n) r
          | TLParen :: TRParen :: _ => Raises
          | TLParen :: r =>
              let* (e, r') := parse k GSum r in
              match r' with
              | TRParen :: r'' => after_atom e r''
              | _ => Raises
              end
          | _ => Raises
          end
      end
  end.

(** Every token is reached through at most six nested goals. *)
Definition parse_fuel (ts : list token) : nat := 8 * List.length ts + 8.

Definition parse_expr (ts : list token) : outcome expr :=
  let* (e, r) := parse (parse_fuel ts) GSum ts in
  match r with
  | [] => Return e
  | _ => Raises
  end.

(** *** Values and arithmetic

    Python's [float] is IEEE 754 binary64, here [spec_float] at precision 53
    and maximal exponent 1024. *)

Inductive value : Type :=
| VInt (z : Z)
| VFloat (f : spec_float).

Definition prec : Z := 53.
Definition emax : Z := 1024.

(** [float(z)]: rounded to nearest even, [OverflowError] when out of range. *)
Definition float_of_int (z : Z) : outcome spec_float :=
  match binary_normalize prec emax z 0 false with
  | S754_infinity _ => Raises
  | f => Return f
  end.

Definition to_float (v : value) : outcome spec_float :=
  match v with
  | VInt z => float_of_int z
  | VFloat f => Return f
  end.

(** The exact operand of an integer true division, not yet rounded. *)
Definition exact_int (z : Z) : spec_float :=
  match z with
  | Z0 => S754_zero false
  | Zpos p => S754_finite false p 0
  | Zneg p => S754_finite true p 0
  end.

(** [a / b] on two ints: the correctly rounded quotient. *)
Definition int_true_divide (a b : Z) : outcome value :=
  if (b =? 0)%Z then Raises
  else match SFdiv prec emax (exact_int a) (exact_int b) with
       | S754_infinity _ => Raises
       | f => Return (VFloat f)
       end.

Definition float_binop (op : binop) (x y : spec_float) : outcome value :=
  match op with
  | Add => Return (VFloat (SFadd prec emax x y))
  | Sub => Return (VFloat (SFsub prec emax x y))
  | Mul => Return (VFloat (SFmul prec emax x y))
  | TrueDiv =>
      match y with
      | S754_zero _ => Raises
      | _ => Return (VFloat (SFdiv prec emax x y))
      end
  | FloorDiv | Pow => Untracked
  end.

Definition int_binop (op : binop) (a b : Z) : outcome value :=
  match op with
  | Add => Return (VInt (a + b))
  | Sub => Return (VInt (a - b))
  | Mul => Return (VInt (a * b))
  | TrueDiv => int_true_divide a b
  | FloorDiv => if (b =? 0)%Z then Raises else Return (VInt (a / b))
  | Pow =>
      if (0 <=? b)%Z then Return (VInt (a ^ b))
      else if (a =? 0)%Z then Raises
      else Untracked
  end.

Definition apply_binop (op : binop) (x y : value) : outcome value :=
  match x, y with
  | VInt a, VInt b => int_binop op a b
  | _, _ =>
      match op with
      | FloorDiv | Pow => Untracked
      | _ => let* fx := to_float x in
             let* fy := to_float y in
             float_binop op fx fy
      end
  end.

Definition apply_unop (op : unop) (x : value) : value :=
  match op, x with
  | UPlus, _ => x
  | UMinus, VInt a => VInt (- a)
  | UMinus, VFloat f => VFloat (SFopp f)
  end.

(** Operands are evaluated left to right. *)
Fixpoint eval_expr (e : expr) : outcome value :=
  match e with
  | ENum n => Return (VInt n)
  | EUnary op a => let* x := eval_expr a in Return (apply_unop op x)
  | EBin op l r =>
      let* x := eval_expr l in
      let* y := eval_expr r in
      apply_binop op x y
  end.

(** [int(v)]: floats are truncated toward zero; infinities and NaN raise. *)
Definition int_of_value (v : value) : outcome Z :=
  match v with
  | VInt z => Return z
  | VFloat (S754_zero _) => Return 0
  | VFloat (S754_finite s m e) =>
      let mag := match e with
                 | Zneg p => Z.shiftr (Zpos m) (Zpos p)
                 | _ => Z.shiftl (Zpos m) e
                 end in
      Return (if s then - mag else mag)
  | VFloat _ => Raises
  end.

Definition eval (s : string) : outcome value :=
  let* ts := tokenize s in
  let* e := parse_expr ts in
  eval_expr e.

Definition int_eval (s : string) : outcome Z :=
  let* v := eval s in int_of_value v.

End Eval.

(* ------------------------------------------------------------------------- *)
(** ** [Generic] and [parse_portsize_part] *)

Module Generic.
Record t : Type := mk {
  name        : string;
  namepadding : string;
  typestr     : string;
  default     : string;
  defaultstr  : string;
  commentstr  : string;
  value       : string;
  semicolon   : string;
  comma       : string;
  vhdl_type   : string;
  high        : string;
  low         : string;
  length      : string
}.

(** [Generic()] with the dataclass defaults. *)
Definition new : t :=
  mk "" "" "" "" "" "" "" ";" "," "" "0" "0" "1".

Definition set_value (v : string) (g : t) : t :=
  mk (name g) (namepadding g) (typestr g) (default g) (defaultstr g) (commentstr g)
     v (semicolon g) (comma g) (vhdl_type g) (high g) (low g) (length g).

Definition set_vhdl_type (v : string) (g : t) : t :=
  mk (name g) (namepadding g) (typestr g) (default g) (defaultstr g) (commentstr g)
     (value g) (semicolon g) (comma g) v (high g) (low g) (length g).

Definition set_defaultstr (v : string) (g : t) : t :=
  mk (name g) (namepadding g) (typestr g) (default g) v (commentstr g)
     (value g) (semicolon g) (comma g) (vhdl_type g) (high g) (low g) (length g).

(** [semicolon] and [comma], assigned together. *)
Definition set_endings (semi com : string) (g : t) : t :=
  mk (name g) (namepadding g) (typestr g) (default g) (defaultstr g) (commentstr g)
     (value g) semi com (vhdl_type g) (high g) (low g) (length g).
End Generic.

(** A width bound is a string until it is evaluated, an int afterwards; the
    decoder also passes the int literal [0] for a missing low bound. *)
Inductive pyval : Type :=
| PyInt (z : Z)
| PyStr (s : string).

(** [str(v)], also what an f-string field renders. *)
Definition py_str (v : pyval) : string :=
  match v with
  | PyInt z => Py.str_of_int z
  | PyStr s => s
  end.

(** [l[i]]: [IndexError] out of range. *)
Definition index {A : Type} (l : list A) (i : nat) : outcome A :=
  match l !! i with
  | Some x => Return x
  | None => Raises
  end.

(** The [for generic in generic_list] loop: either it runs to the end, or the
    [except ValueError] clause returns the current [size_part]. *)
Inductive substituted : Type :=
| Completed (size_part : string)
| Abandoned (size_part : string).

Fixpoint substitute_loop (size_part : string) (generic_list : list Generic.t) : substituted :=
  match generic_list with
  | [] => Completed size_part
  | generic :: rest =>
      if negb (Generic.typestr generic =? "integer")
      then substitute_loop size_part rest
      else if Py.contains (Generic.name generic) size_part then
        match Py.int_of_str (Generic.value generic) with
        | Some gen_value =>
            substitute_loop
              (Py.replace size_part (Generic.name generic) (Py.str_of_int gen_value)) rest
        | None => Abandoned size_part
        end
      else substitute_loop size_part rest
  end.

(** With an int for [size_part] the call always ends in a [TypeError]: from
    [generic.name in size_part] at the first integer generic, or else from
    [re.search]. *)
Definition parse_portsize_part (size_part : pyval) (generic_list : list Generic.t)
  : outcome pyval :=
  match size_part with
  | PyInt _ => Raises
  | PyStr s =>
      match substitute_loop s generic_list with
      | Abandoned s' => Return (PyStr s')
      | Completed s' =>
          if Re.has_non_arith s' then Return (PyStr s')
          else let* result := Eval.int_eval s' in Return (PyInt result)
      end
  end.

(* ------------------------------------------------------------------------- *)
(** ** [Port] and [Port.update_from_name] *)

Module Port.
Record t : Type := mk {
  name        : string;
  namepadding : string;
  dirstr      : string;
  typestr     : string;
  semicolon   : string;
  comma       : string;
  commentstr  : string;
  num         : string;
  vhdl_type   : string;
  high        : string;
  low         : string;
  length      : string;
  target      : string
}.

(** [Port()] with the dataclass defaults. *)
Definition new : t :=
  mk "" "" "" "" ";" "," "" "" "" "0" "0" "1" "".

Definition set_name (v : string) (p : t) : t :=
  mk v (namepadding p) (dirstr p) (typestr p) (semicolon p) (comma p) (commentstr p)
     (num p) (vhdl_type p) (high p) (low p) (length p) (target p).

Definition set_dirstr (v : string) (p : t) : t :=
  mk (name p) (namepadding p) v (typestr p) (semicolon p) (comma p) (commentstr p)
     (num p) (vhdl_type p) (high p) (low p) (length p) (target p).

Definition set_typestr (v : string) (p : t) : t :=
  mk (name p) (namepadding p) (dirstr p) v (semicolon p) (comma p) (commentstr p)
     (num p) (vhdl_type p) (high p) (low p) (length p) (target p).

Definition set_target (v : string) (p : t) : t :=
  mk (name p) (namepadding p) (dirstr p) (typestr p) (semicolon p) (comma p) (commentstr p)
     (num p) (vhdl_type p) (high p) (low p) (length p) v.

(** The four parsed components, assigned together. *)
Definition set_parsed (ty hi lo len : string) (p : t) : t :=
  mk (name p) (namepadding p) (dirstr p) (typestr p) (semicolon p) (comma p) (commentstr p)
     (num p) ty hi lo len (target p).

(** [semicolon] and [comma], assigned together. *)
Definition set_endings (semi com : string) (p : t) : t :=
  mk (name p) (namepadding p) (dirstr p) (typestr p) semi com (commentstr p)
     (num p) (vhdl_type p) (high p) (low p) (length p) (target p).

(** [Port.copy_port]: a fresh object with every field copied. *)
Definition copy_port (source : t) : t :=
  mk (name source) (namepadding source) (dirstr source) (typestr source)
     (semicolon source) (comma source) (commentstr source) (num source)
     (vhdl_type source) (high source) (low source) (length source) (target source).

(** The type prefix of a hint and its two bounds: the [if]/[elif] chain on
    [typestr] and the split at [':'].  A hint without colon gets the int [0]
    for its low bound. *)
Definition split_hint (typestr : string) : outcome (string * pyval * pyval) :=
  let* (vhdl_type, typestr) :=
    if Py.startswith typestr "uf" then Return ("ufixed", Py.drop 2 typestr)
    else if Py.startswith typestr "u" then Return ("unsigned", Py.drop 1 typestr)
    else if Py.startswith typestr "sf" then Return ("sfixed", Py.drop 2 typestr)
    else if Py.startswith typestr "s" then Return ("signed", Py.drop 1 typestr)
    else if Py.has_char " " typestr then
      let typestr_parts := Py.split " " typestr in
      let* ty := index typestr_parts 0 in
      let* rest := index typestr_parts 1 in
      Return (ty, rest)
    else Return ("std_logic_vector", typestr) in
  let range_parts := Py.split ":" typestr in
  if (List.length range_parts =? 1)%nat then
    let* high_str := index range_parts 0 in
    Return (vhdl_type, PyStr high_str, PyInt 0)
  else
    let* high_str := index range_parts 0 in
    let* low_str := index range_parts 1 in
    Return (vhdl_type, PyStr high_str, PyStr low_str).

(** [if do_eval: ... = parse_portsize_part(...) else: ... = ..._str]. *)
Definition resolve_bound (do_eval : bool) (generic_list : list Generic.t)
    (bound : pyval) : outcome pyval :=
  if do_eval then parse_portsize_part bound generic_list else Return bound.

(** [str(high - low + 1)] when both are ints, else [f"{high}-{low}"]. *)
Definition length_of (high low : pyval) : string :=
  match high, low with
  | PyInt h, PyInt l => Py.str_of_int (h - l + 1)
  | _, _ => py_str high +:+ "-" +:+ py_str low
  end.

(** [Port.update_from_name]: the port as the call leaves it.  An exception
    ends the program, so what it leaves half assigned is not kept. *)
Definition update_from_name (self : t) (generic_list : list Generic.t)
    (do_eval : bool) : outcome t :=
  match Re.name_hint (name self) with
  | None => Return (set_parsed "std_logic" "0" "0" "1" self)
  | Some (part0, part1) =>
      if part1 =? "b" then Return (set_parsed "boolean" "0" "0" "1" self)
      else if part1 =? "integer" then Return (set_parsed "integer" "31" "0" "32" self)
      else
        let self := set_name part0 self in
        let* (vhdl_type, high_str, low_str) := split_hint part1 in
        let* high := resolve_bound do_eval generic_list high_str in
        let* low := resolve_bound do_eval generic_list low_str in
        let length := length_of high low in
        let high := py_str high in
        let low := py_str low in
        Return (set_parsed (vhdl_type +:+ "(" +:+ high +:+ " downto " +:+ low +:+ ")")
                           high low length self)
  end.

End Port.

(* ------------------------------------------------------------------------- *)
(** ** Loops over lists *)

(** [for a in l: b = f(b, a)], stopping at the first exception. *)
Fixpoint foldM {A B : Type} (f : B -> A -> outcome B) (l : list A) (b : B) : outcome B :=
  match l with
  | [] => Return b
  | a :: rest => let* b' := f b a in foldM f rest b'
  end.

(** [[f(a) for a in l]], stopping at the first exception. *)
Fixpoint mapM {A B : Type} (f : A -> outcome B) (l : list A) : outcome (list B) :=
  match l with
  | [] => Return []
  | a :: rest => let* b := f a in
                 let* bs := mapM f rest in
                 Return (b :: bs)
  end.

(* ------------------------------------------------------------------------- *)
(** ** [align_on_pipe] *)

Module Align.

(** The three variables of the segmenting loop. *)
Record segmenting : Type := mk {
  n_splits : nat;
  segs     : list (list string);
  cur_seg  : list string
}.

Definition is_empty {A : Type} (l : list A) : bool :=
  match l with
  | [] => true
  | _ :: _ => false
  end.

(** One turn of [for line in doc.splitlines()]. *)
Definition segment_step (st : segmenting) (line : string) : segmenting :=
  let found := Py.split "|" line in
  let st :=
    if negb (List.length found =? n_splits st)%nat then
      if negb (is_empty (cur_seg st))
      then mk (List.length found) (segs st ++ [cur_seg st])%list []
      else mk (List.length found) (segs st) (cur_seg st)
    else st in
  mk (n_splits st) (segs st) (cur_seg st ++ [line])%list.

Definition segment (lines : list string) : list (list string) :=
  let st := fold_left segment_step lines (mk 0 [] []) in
  if negb (is_empty (cur_seg st)) then (segs st ++ [cur_seg st])%list else segs st.

(** [for i in range(len(parts)): if len(parts[i]) > max[i]: max[i] = len(parts[i])],
    from index [i] on; [parts] holds [parts[i:]]. *)
Fixpoint widen (parts : list string) (i : nat) (max : list nat) : outcome (list nat) :=
  match parts with
  | [] => Return max
  | part :: rest =>
      let* m := index max i in
      widen rest (S i)
            (if (m <? String.length part)%nat then <[i := String.length part]> max else max)
  end.

(** The first loop over a segment: the widths of its columns. *)
Definition column_widths (seg : list string) : outcome (list nat) :=
  let* first := index seg 0 in
  foldM (fun max line => widen (Py.split "|" line) 0 max) seg
        (replicate (List.length (Py.split "|" first)) 0%nat).

(** [for i in range(len(max)): new_line += f'{parts[i]:<{max[i]}}'], from index
    [i] on; [max] holds [max[i:]]. *)
Fixpoint pad (parts : list string) (i : nat) (max : list nat) (new_line : string)
  : outcome string :=
  match max with
  | [] => Return new_line
  | width :: rest =>
      let* part := index parts i in
      pad parts (S i) rest (new_line +:+ Py.ljust part width)
  end.

(** One turn of [for seg in segs]. *)
Definition align_seg (out : list string) (seg : list string) : outcome (list string) :=
  let* max := column_widths seg in
  let* new_lines := mapM (fun line => pad (Py.split "|" line) 0 max "") seg in
  Return (out ++ new_lines)%list.

End Align.

Definition align_on_pipe (doc : string) : outcome string :=
  let segs := Align.segment (Py.splitlines doc) in
  let* out := foldM Align.align_seg segs [] in
  Return (Py.join (String Py.LF "") out).

(* ------------------------------------------------------------------------- *)
(** ** The netlist records read by [generate_code] ([netlist.py]) *)

Module Netlist.

Module Libsource.
Record t : Type := mk { lib : string; part : string; description : string }.
End Libsource.

Module Sheetpath.
Record t : Type := mk { names : string; tstamps : string }.
End Sheetpath.

Module CompProperty.
Record t : Type := mk { name : string; value : string }.
End CompProperty.

Module Comp.
Record t : Type := mk {
  ref        : string;
  value      : string;
  footprint  : string;
  datasheet  : string;
  libsource  : Libsource.t;
  properties : list CompProperty.t;
  sheetpath  : Sheetpath.t;
  tstamps    : string
}.
End Comp.

Module Node.
Record t : Type := mk {
  ref         : string;
  pin         : string;
  pintype     : string;
  pinfunction : string
}.
End Node.

Module Net.
Record t : Type := mk { code : string; name : string; nodes : list Node.t }.
End Net.

Module Field.
Record t : Type := mk { name : string; value : string }.
End Field.

Module Pin.
Record t : Type := mk { num : string; name : string; type : string }.
End Pin.

Module Libpart.
Record t : Type := mk {
  lib         : string;
  part        : string;
  description : string;
  docs        : string;
  footprints  : list string;
  fields      : list Field.t;
  pins        : list Pin.t
}.
End Libpart.

(** What [generate_code] reads of a [Netlist] object, apart from the name of
    the source file in its [design]. *)
Module Netlist.
Record t : Type := mk {
  components : list Comp.t;
  libparts   : list Libpart.t;
  nets       : list Net.t
}.
End Netlist.

End Netlist.

(* ------------------------------------------------------------------------- *)
(** ** Components, connections and signals *)

Module Component.
(** [component] is the reference to the library part, here its index in
    [component_list]. *)
Record t : Type := mk {
  name          : string;
  instance_name : string;
  ports         : list Port.t;
  properties    : list Generic.t;
  component     : option nat
}.

Definition set_ports (v : list Port.t) (c : t) : t :=
  mk (name c) (instance_name c) v (properties c) (component c).

(** The generics of [from_comp]: one per property whose name matches. *)
Fixpoint comp_generics (properties : list Netlist.CompProperty.t) : list Generic.t :=
  match properties with
  | [] => []
  | property :: rest =>
      match Re.property_pattern (Netlist.CompProperty.name property) with
      | Some (part0, part1, part2) =>
          Generic.mk part0 "" part1 "" "" part2 (Netlist.CompProperty.value property)
                     ";" "," "" "0" "0" "1"
          :: comp_generics rest
      | None => comp_generics rest
      end
  end.

Definition from_comp (comp : Netlist.Comp.t) : t :=
  mk (Netlist.Libsource.part (Netlist.Comp.libsource comp))
               (Netlist.Comp.ref comp)
               []
               (comp_generics (Netlist.Comp.properties comp))
               None.

(** The generics of [from_libpart]: one per field whose name matches, the
    value of the field both as default and as value. *)
Fixpoint libpart_generics (fields : list Netlist.Field.t) : list Generic.t :=
  match fields with
  | [] => []
  | field :: rest =>
      match Re.property_pattern (Netlist.Field.name field) with
      | Some (part0, part1, part2) =>
          Generic.mk part0 "" part1 (Netlist.Field.value field) "" part2
                     (Netlist.Field.value field) ";" "," "" "0" "0" "1"
          :: libpart_generics rest
      | None => libpart_generics rest
      end
  end.

(** The direction of a port for the electrical type of its pin. *)
Definition pin_dirstr (type : string) : string :=
  if type =? "input" then "in"
  else if type =? "output" then "out"
  else if type =? "bidirectional" then "inout"
  else type.

(** [Port(name=pin.name, num=pin.num, dirstr=dirstr)]. *)
Definition pin_port (pin : Netlist.Pin.t) : Port.t :=
  Port.mk (Netlist.Pin.name pin) "" (pin_dirstr (Netlist.Pin.type pin)) "" ";" "," ""
          (Netlist.Pin.num pin) "" "0" "0" "1" "".

Definition from_libpart (libpart : Netlist.Libpart.t) : t :=
  mk (Netlist.Libpart.part libpart)
     ""
     (map pin_port (Netlist.Libpart.pins libpart))
     (libpart_generics (Netlist.Libpart.fields libpart))
     None.

End Component.

Module Connection.
(** [port] is the reference to a port object of an instance, here the index of
    the instance in [instance_list] and of the port in its [ports]. *)
Record t : Type := mk {
  ref  : string;
  pin  : string;
  port : option (nat * nat)
}.
End Connection.

Module Signal.
Record t : Type := mk {
  name        : string;
  code        : string;
  vhdl_type   : string;
  connections : list Connection.t
}.
End Signal.

(** [find_property] with a string default. *)
Fixpoint find_property (property_list : list Netlist.CompProperty.t) (name default : string)
  : string :=
  match property_list with
  | [] => default
  | prop :: rest =>
      if Netlist.CompProperty.name prop =? name then Netlist.CompProperty.value prop
      else find_property rest name default
  end.

(** [x in [...]] on strings. *)
Definition one_of (x : string) (l : list string) : bool :=
  existsb (fun y => x =? y) l.

(* ------------------------------------------------------------------------- *)
(** ** The second pass over the components of [generate_code] *)

(** The lists this pass extends; [generic_list] and [component_list] are only
    read.  [full_item_list] is never read and is left out. *)
Record building : Type := mk_building {
  port_list       : list Port.t;
  direct_connects : gmap string string;
  instance_list   : list Component.t
}.

(** [for libpart_comp in component_list], from index [i] on: the last library
    part of that name is kept as [component.component] and the ports of every
    one of them are copied. *)
Fixpoint attach_libparts (component : Component.t) (i : nat)
    (component_list : list Component.t) : Component.t :=
  match component_list with
  | [] => component
  | libpart_comp :: rest =>
      if Component.name libpart_comp =? Component.name component then
        attach_libparts
          (Component.mk (Component.name component) (Component.instance_name component)
                        (Component.ports component ++ map Port.copy_port (Component.ports libpart_comp))%list
                        (Component.properties component)
                        (Some i))
          (S i) rest
      else attach_libparts component (S i) rest
  end.

(** The inner loop [for sub in component.properties] for the property [prop]:
    the value it ends with. *)
Definition substitute_subs (prop : Generic.t) (properties : list Generic.t) : string :=
  fold_left
    (fun value sub =>
       if negb (Generic.name sub =? Generic.name prop) && Py.contains (Generic.name sub) value
       then Py.replace value (Generic.name sub) (Generic.value sub)
       else value)
    properties (Generic.value prop).

(** One turn of the first loop over the properties, for the property at [i]. *)
Definition substitute_property (properties : list Generic.t) (i : nat) : list Generic.t :=
  match properties !! i with
  | Some prop =>
      if Re.has_non_arith (Generic.value prop)
      then <[i := Generic.set_value (substitute_subs prop properties) prop]> properties
      else properties
  | None => properties
  end.

(** One turn of the second loop over the properties. *)
Definition evaluate_property (prop : Generic.t) : outcome Generic.t :=
  if negb (Re.has_non_arith (Generic.value prop)) then
    let* v := Eval.int_eval (Generic.value prop) in
    Return (Generic.set_value (Py.str_of_int v) prop)
  else Return prop.

(** The [else] branch: a new instance. *)
Definition build_instance (component_list : list Component.t) (comp : Netlist.Comp.t)
  : outcome Component.t :=
  let component := attach_libparts (Component.from_comp comp) 0 component_list in
  let properties :=
    fold_left substitute_property
              (seq 0 (List.length (Component.properties component)))
              (Component.properties component) in
  let* properties := mapM evaluate_property properties in
  let* ports := mapM (fun port => Port.update_from_name port properties true)
                     (Component.ports component) in
  Return (Component.mk (Component.name component) (Component.instance_name component)
                       ports properties (Component.component component)).

(** One turn of the second [for comp in nl.components]. *)
Definition add_component (generic_list : list Generic.t) (component_list : list Component.t)
    (st : building) (comp : Netlist.Comp.t) : outcome building :=
  let part := Netlist.Libsource.part (Netlist.Comp.libsource comp) in
  if one_of part ["IN"; "OUT"; "INOUT"] then
    let port := Port.new in
    let port := Port.set_name (Netlist.Comp.value comp) port in
    let port := Port.set_dirstr (Py.lower part) port in
    let port := Port.set_typestr
                  (find_property (Netlist.Comp.properties comp) "TYPE" "std_logic") port in
    let* port := Port.update_from_name port generic_list false in
    Return (mk_building (port_list st ++ [port])%list
                        (<[Netlist.Comp.ref comp := Port.name port]> (direct_connects st))
                        (instance_list st))
  else if one_of part ["PARAMETER"; "CONSTANT"] then Return st
  else
    let* component := build_instance component_list comp in
    Return (mk_building (port_list st) (direct_connects st)
                        (instance_list st ++ [component])%list).

(* ------------------------------------------------------------------------- *)
(** ** The pass over the nets of [generate_code] *)

(** The objects the net loop changes: the ports inside [instance_list], the
    signal list, and the lines it prints. *)
Record wiring : Type := mk_wiring {
  instances   : list Component.t;
  signal_list : list Signal.t;
  printed     : list string
}.

(** *** An unconnected net *)

Definition tie_off_port (node : Netlist.Node.t) (port : Port.t) : Port.t :=
  if Port.num port =? Netlist.Node.pin node then
    if Port.dirstr port =? "in" then
      if Port.vhdl_type port =? "boolean" then Port.set_target "false" port
      else if Port.vhdl_type port =? "std_logic" then Port.set_target "'0'" port
      else Port.set_target "(others => '0')" port
    else Port.set_target "open" port
  else port.

Definition tie_off_component (node : Netlist.Node.t) (component : Component.t) : Component.t :=
  if Component.instance_name component =? Netlist.Node.ref node
  then Component.set_ports (map (tie_off_port node) (Component.ports component)) component
  else component.

(** [for node in net.nodes: for component in instance_list: ...]. *)
Definition tie_off (instance_list : list Component.t) (nodes : list Netlist.Node.t)
  : list Component.t :=
  fold_left (fun insts node => map (tie_off_component node) insts) nodes instance_list.

(** *** The name of the signal *)

Definition signal_name (net_name : string) : string :=
  let name := Py.replace net_name "/" "" in
  let name := Re.strip_ranges_from O name in
  let name := Py.replace name "-" "_" in
  let name := Py.replace name "(" "" in
  Py.replace name ")" "".

(** The loop that looks for a direct connection: the name registered for the
    first node whose reference is a key of the table. *)
Fixpoint direct_name (direct_connects : gmap string string) (nodes : list Netlist.Node.t)
  : option string :=
  match nodes with
  | [] => None
  | node :: rest =>
      match direct_connects !! Netlist.Node.ref node with
      | Some name => Some name
      | None => direct_name direct_connects rest
      end
  end.

(** *** Linking the ports of a net *)

(** [for port in component.ports], from index [pj] on, inside component [ci]:
    every port with the pin number takes the signal name as its target, and
    [found] ends as the last of them. *)
Fixpoint link_ports (name pin : string) (ci pj : nat) (ports : list Port.t)
    (found : option (nat * nat)) : list Port.t * option (nat * nat) :=
  match ports with
  | [] => ([], found)
  | port :: rest =>
      if Port.num port =? pin then
        let (rest', found') := link_ports name pin ci (S pj) rest (Some (ci, pj)) in
        (Port.set_target name port :: rest', found')
      else
        let (rest', found') := link_ports name pin ci (S pj) rest found in
        (port :: rest', found')
  end.

(** [for component in instance_list], from index [ci] on. *)
Fixpoint link_components (name ref pin : string) (ci : nat) (instance_list : list Component.t)
    (found : option (nat * nat)) : list Component.t * option (nat * nat) :=
  match instance_list with
  | [] => ([], found)
  | component :: rest =>
      if Component.instance_name component =? ref then
        let (ports', found1) := link_ports name pin ci 0 (Component.ports component) found in
        let (rest', found') := link_components name ref pin (S ci) rest found1 in
        (Component.set_ports ports' component :: rest', found')
      else
        let (rest', found') := link_components name ref pin (S ci) rest found in
        (component :: rest', found')
  end.

(** One turn of [for node in net.nodes]: the connection is appended whether or
    not a port was found. *)
Definition link_node (name : string)
    (acc : list Component.t * list Connection.t) (node : Netlist.Node.t)
  : list Component.t * list Connection.t :=
  let (instance_list, connections) := acc in
  let (instance_list', found) :=
    link_components name (Netlist.Node.ref node) (Netlist.Node.pin node) 0 instance_list None in
  (instance_list',
   (connections ++ [Connection.mk (Netlist.Node.ref node) (Netlist.Node.pin node) found])%list).

(** The port object a connection refers to. *)
Definition port_at (instance_list : list Component.t) (at_ : nat * nat) : option Port.t :=
  match instance_list !! fst at_ with
  | Some component => Component.ports component !! snd at_
  | None => None
  end.

(** One turn of [for connection in signal.connections]: the first port type
    becomes the type of the signal, a later one that differs is reported. *)
Definition resolve_type (instance_list : list Component.t) (name : string)
    (acc : string * list string) (connection : Connection.t) : string * list string :=
  let (vhdl_type, printed) := acc in
  match Connection.port connection with
  | Some at_ =>
      match port_at instance_list at_ with
      | Some port =>
          if vhdl_type =? "" then (Port.vhdl_type port, printed)
          else if negb (vhdl_type =? Port.vhdl_type port) then
            (vhdl_type,
             (printed ++ ["==== Warning! vhdl_type does not match on " +:+ name +:+ ": "
                          +:+ vhdl_type +:+ " /= " +:+ Port.vhdl_type port +:+ " ==== "])%list)
          else (vhdl_type, printed)
      | None => (vhdl_type, printed)
      end
  | None => (vhdl_type, printed)
  end.

(** One turn of [for net in nl.nets]. *)
Definition process_net (direct_connects : gmap string string) (st : wiring)
    (net : Netlist.Net.t) : wiring :=
  if Py.startswith (Netlist.Net.name net) "unconnected" then
    mk_wiring (tie_off (instances st) (Netlist.Net.nodes net)) (signal_list st) (printed st)
  else
    let name := signal_name (Netlist.Net.name net) in
    let (name, skip) :=
      match direct_name direct_connects (Netlist.Net.nodes net) with
      | Some registered => (registered, true)
      | None => (name, false)
      end in
    let (instance_list, connections) :=
      fold_left (link_node name) (Netlist.Net.nodes net) (instances st, []) in
    let (vhdl_type, printed) :=
      fold_left (resolve_type instance_list name) connections ("", printed st) in
    let signal := Signal.mk name (Netlist.Net.code net) vhdl_type connections in
    mk_wiring instance_list
              (if negb skip then (signal_list st ++ [signal])%list else signal_list st)
              printed.

(* ------------------------------------------------------------------------- *)
(** ** The other passes of [generate_code] *)

(** *** The parts of the library *)

(** [for libpart in nl.libparts]: every part that is not one of the five
    pseudo-parts becomes a component of the library. *)
Fixpoint library_components (libparts : list Netlist.Libpart.t) : list Component.t :=
  match libparts with
  | [] => []
  | libpart :: rest =>
      if one_of (Netlist.Libpart.part libpart) ["PARAMETER"; "CONSTANT"; "IN"; "OUT"; "INOUT"]
      then library_components rest
      else Component.from_libpart libpart :: library_components rest
  end.

(** *** The first pass over the components: parameters and constants *)

Module Declare.
Record t : Type := mk {
  generic_list    : list Generic.t;
  constant_list   : list Generic.t;
  direct_connects : gmap string string
}.
End Declare.

(** One turn of the first [for comp in nl.components]. *)
Definition declare_component (st : Declare.t) (comp : Netlist.Comp.t) : Declare.t :=
  let part := Netlist.Libsource.part (Netlist.Comp.libsource comp) in
  if part =? "PARAMETER" then
    let name := Netlist.Comp.value comp in
    let typestr := find_property (Netlist.Comp.properties comp) "TYPE" "integer" in
    let default := find_property (Netlist.Comp.properties comp) "DEFAULT" "0" in
    let gen := Generic.mk name "" typestr default "" "" default ";" "," typestr "0" "0" "1" in
    Declare.mk (Declare.generic_list st ++ [gen])%list
               (Declare.constant_list st)
               (<[Netlist.Comp.ref comp := Generic.name gen]> (Declare.direct_connects st))
  else if part =? "CONSTANT" then
    let name := find_property (Netlist.Comp.properties comp) "NAME" "ERROR_NO_NAME" in
    let typestr := find_property (Netlist.Comp.properties comp) "TYPE" "integer" in
    let default := Netlist.Comp.value comp in
    let const := Generic.mk name "" typestr default "" "" "" ";" "," typestr "0" "0" "1" in
    Declare.mk (Declare.generic_list st)
               (Declare.constant_list st ++ [const])%list
               (<[Netlist.Comp.ref comp := Generic.name const]> (Declare.direct_connects st))
  else st.

(** *** The types and defaults of the generics *)

(** [if gen.default: gen.defaultstr = f' := {gen.default}']. *)
Definition set_default_text (gen : Generic.t) : Generic.t :=
  if negb (Generic.default gen =? "")
  then Generic.set_defaultstr (" := " +:+ Generic.default gen) gen
  else gen.

(** One turn of [for gen in generic_list] and of [for const in constant_list]. *)
Definition finish_generic (gen : Generic.t) : Generic.t :=
  let gen := Generic.set_vhdl_type (Py.replace (Generic.vhdl_type gen) ":" " downto ") gen in
  let gen := Generic.set_vhdl_type
               (Py.replace (Generic.vhdl_type gen) "slv" "std_logic_vector") gen in
  set_default_text gen.

(** One turn of [for gen in component.properties] for a component of the
    library: both assignments read [gen.typestr]. *)
Definition finish_library_generic (gen : Generic.t) : Generic.t :=
  let gen := Generic.set_vhdl_type (Py.replace (Generic.typestr gen) ":" " downto ") gen in
  let gen := Generic.set_vhdl_type
               (Py.replace (Generic.typestr gen) "slv" "std_logic_vector") gen in
  set_default_text gen.

(** One turn of [for component in component_list]. *)
Definition finish_library_component (component : Component.t) : outcome Component.t :=
  let properties := map finish_library_generic (Component.properties component) in
  let* ports := mapM (fun port => Port.update_from_name port properties false)
                     (Component.ports component) in
  Return (Component.mk (Component.name component) (Component.instance_name component)
                       ports properties (Component.component component)).

(** *** The libraries *)

(** [d[key] = True] on a dict whose values are all [True], kept as its keys in
    the order of their first insertion. *)
Definition dict_set (key : string) (d : list string) : list string :=
  if existsb (String.eqb key) d then d else (d ++ [key])%list.

(** The [if]/[elif] chain on [item.vhdl_type]. *)
Definition note_type (d : list string) (vhdl_type : string) : list string :=
  if Py.contains "unsigned" vhdl_type then dict_set "IEEE.numeric_std.all" d
  else if Py.contains "signed" vhdl_type then dict_set "IEEE.numeric_std.all" d
  else if Py.contains "sfixed" vhdl_type then dict_set "IEEE.fixed_pkg.all" d
  else if Py.contains "ufixed" vhdl_type then dict_set "IEEE.fixed_pkg.all" d
  else d.

(** The types of [comp.properties + comp.ports]. *)
Definition component_types (comp : Component.t) : list string :=
  (map Generic.vhdl_type (Component.properties comp)
   ++ map Port.vhdl_type (Component.ports comp))%list.

Definition library_list (generic_list : list Generic.t) (port_list : list Port.t)
    (constant_list : list Generic.t) (component_list instance_list : list Component.t)
  : list string :=
  let library_list_dict := ["IEEE.std_logic_1164.all"] in
  let library_list_dict :=
    fold_left note_type
              (map Generic.vhdl_type generic_list ++ map Port.vhdl_type port_list
               ++ map Generic.vhdl_type constant_list)%list
              library_list_dict in
  fold_left (fun d comp => fold_left note_type (component_types comp) d)
            (component_list ++ instance_list)%list
            library_list_dict.

(** *** The last comma and semicolon *)

(** [if l: l[-1] = strip(l[-1])]. *)
Fixpoint strip_last {A : Type} (strip : A -> A) (l : list A) : list A :=
  match l with
  | [] => []
  | [x] => [strip x]
  | x :: rest => x :: strip_last strip rest
  end.

Definition strip_endings (comp : Component.t) : Component.t :=
  Component.mk (Component.name comp) (Component.instance_name comp)
               (strip_last (Port.set_endings " " " ") (Component.ports comp))
               (strip_last (Generic.set_endings " " " ") (Component.properties comp))
               (Component.component comp).

(** *** The lists handed to the template *)

(** The net loop. *)
Definition process_nets (direct_connects : gmap string string) (nets : list Netlist.Net.t)
    (st : wiring) : wiring :=
  fold_left (process_net direct_connects) nets st.

(** The context of the template, without the three names [infile], [outfile]
    and [entity_name]. *)
Module Context.
Record t : Type := mk {
  library_list   : list string;
  generic_list   : list Generic.t;
  port_list      : list Port.t;
  constant_list  : list Generic.t;
  signal_list    : list Signal.t;
  component_list : list Component.t;
  instance_list  : list Component.t
}.
End Context.

(** [generate_code] from the netlist read to the context it renders, with
    the lines it prints on the way. *)
Definition generate_context (nl : Netlist.Netlist.t) : outcome (Context.t * list string) :=
  let component_list := library_components (Netlist.Netlist.libparts nl) in
  let declared :=
    fold_left declare_component (Netlist.Netlist.components nl) (Declare.mk [] [] ∅) in
  let* built :=
    foldM (add_component (Declare.generic_list declared) component_list)
          (Netlist.Netlist.components nl)
          (mk_building [] (Declare.direct_connects declared) []) in
  let generic_list := map finish_generic (Declare.generic_list declared) in
  let constant_list := map finish_generic (Declare.constant_list declared) in
  let* component_list := mapM finish_library_component component_list in
  let wired :=
    process_nets (direct_connects built) (Netlist.Netlist.nets nl)
                 (mk_wiring (instance_list built) [] []) in
  let libraries :=
    library_list generic_list (port_list built) constant_list component_list
                 (instances wired) in
  Return (Context.mk libraries
                     (strip_last (Generic.set_endings " " " ") generic_list)
                     (strip_last (Port.set_endings " " " ") (port_list built))
                     constant_list
                     (signal_list wired)
                     (map strip_endings component_list)
                     (map strip_endings (instances wired)),
          printed wired).

(* ------------------------------------------------------------------------- *)
(** ** [get_porttype] *)

(** The fields [get_porttype] gives a [Port]: it stores the bounds and the
    length as ints.  The fields it does not name keep their defaults. *)
Module TypedPort.
Record t : Type := mk {
  name      : string;
  vhdl_type : string;
  high      : pyval;
  low       : pyval;
  length    : pyval
}.
End TypedPort.

(** [a - b + 1]: a [TypeError] unless both are ints. *)
Definition span (high low : pyval) : outcome pyval :=
  match high, low with
  | PyInt h, PyInt l => Return (PyInt (h - l + 1))
  | _, _ => Raises
  end.

(** In the four branches for the type letters, [port = port.vhdl_type = '...']
    first binds [port] to the string and then fails to set an attribute of
    it. *)
Definition get_porttype (port_typestr : string) (generic_list : list Generic.t)
  : outcome TypedPort.t :=
  match Re.name_hint port_typestr with
  | None => Return (TypedPort.mk port_typestr "std_logic" (PyInt 0) (PyInt 0) (PyInt 1))
  | Some (part0, part1) =>
      if part1 =? "b" then Return (TypedPort.mk part0 "boolean" (PyInt 0) (PyInt 0) (PyInt 1))
      else
        let typestr := part1 in
        let* (vhdl_type, typestr) :=
          if Py.startswith typestr "uf" then Raises
          else if Py.startswith typestr "u" then Raises
          else if Py.startswith typestr "sf" then Raises
          else if Py.startswith typestr "s" then Raises
          else if Py.has_char " " typestr then
            let typestr_parts := Py.split " " typestr in
            let* ty := index typestr_parts 0 in
            let* rest := index typestr_parts 1 in
            Return (ty, rest)
          else Return ("std_logic_vector", typestr) in
        let range_parts := Py.split ":" typestr in
        let* (high_str, low_str) :=
          if (List.length range_parts =? 1)%nat then
            let* high_str := index range_parts 0 in
            Return (PyStr high_str, PyInt 0)
          else
            let* high_str := index range_parts 0 in
            let* low_str := index range_parts 1 in
            Return (PyStr high_str, PyStr low_str) in
        let* high := parse_portsize_part high_str generic_list in
        let* low := parse_portsize_part low_str generic_list in
        let* length := span high low in
        Return (TypedPort.mk part0 vhdl_type high low length)
  end.

(* ------------------------------------------------------------------------- *)
(** ** The names [generate_library.py] gives to pins and properties *)

(** The two records of the HDL parser that [port_name] reads; their fields
    are strings. *)
Module VhdlParameterType.
Record t : Type := mk {
  name      : string;
  direction : string;
  r_bound   : string;
  l_bound   : string;
  arange    : string
}.
End VhdlParameterType.

Module VhdlParameter.
Record t : Type := mk {
  name          : string;
  mode          : string;
  data_type     : VhdlParameterType.t;
  default_value : string;
  desc          : string
}.
End VhdlParameter.

(** The truth value of a string. *)
Definition nonempty (s : string) : bool := negb (s =? "").

Definition port_name (port : VhdlParameter.t) : string :=
  let dt := VhdlParameter.data_type port in
  let typestr :=
    if nonempty (VhdlParameterType.l_bound dt) && nonempty (VhdlParameterType.r_bound dt) then
      let rangestr := VhdlParameterType.l_bound dt +:+ ":" +:+ VhdlParameterType.r_bound dt in
      if one_of (Py.lower (VhdlParameterType.name dt)) ["std_logic"; "boolean"] then ""
      else if one_of (Py.lower (VhdlParameterType.name dt)) ["std_logic_vector"; "slv"]
      then "(" +:+ rangestr +:+ ")"
      else if one_of (Py.lower (VhdlParameterType.name dt)) ["sfixed"; "signed"]
      then "(s" +:+ rangestr +:+ ")"
      else if one_of (Py.lower (VhdlParameterType.name dt)) ["ufixed"; "unsigned"]
      then "(u" +:+ rangestr +:+ ")"
      else "(" +:+ VhdlParameterType.name dt +:+ " " +:+ rangestr +:+ ")"
    else
      if one_of (Py.lower (VhdlParameterType.name dt)) ["std_logic"; "boolean"] then ""
      else if Py.lower (VhdlParameterType.name dt) =? "std_logic_vector" then "(slv)"
      else "(" +:+ VhdlParameterType.name dt +:+ ")" in
  VhdlParameter.name port +:+ typestr.

(** From [create_symbols]: the electrical type of the pin of a port, by the
    mode of the port. *)
Definition electrical_type (mode : string) : string :=
  if one_of mode ["input"; "in"] then "input"
  else if Py.lower mode =? "output" then "output"
  else if Py.lower mode =? "out" then "output"
  else if Py.lower mode =? "inout" then "bidirectional"
  else "unspecified".

(** From [create_symbols]: the key of the property of a generic, whose type
    is [integer] when the parser found none. *)
Definition generic_key (name data_type desc : string) : string :=
  let data_type := if nonempty data_type then data_type else "integer" in
  name +:+ "(" +:+ data_type +:+ ") -- " +:+ desc.

(* ------------------------------------------------------------------------- *)
(** ** [netlist.py]: from the parsed S-expression to the records *)

(** What the S-expression parser hands to [from_sexpr]: strings, numbers and
    lists of these. *)
Module Sexpr.

#[warnings="-register-all"] Inductive t : Type :=
| Str (s : string)
| Int (z : Z)
| Float (f : spec_float)
| List (items : list t).

(** [x[i]]: a character of a string, an element of a list; a number has no
    items. *)
Definition item (x : t) (i : nat) : outcome t :=
  match x with
  | Str s =>
      match String.get i s with
      | Some c => Return (Str (String c ""))
      | None => Raises
      end
  | List items => index items i
  | Int _ | Float _ => Raises
  end.

(** [x == 'text']. *)
Definition eq_str (x : t) (text : string) : bool :=
  match x with
  | Str s => s =? text
  | _ => false
  end.

Fixpoint chars (s : string) : list t :=
  match s with
  | EmptyString => []
  | String c r => Str (String c "") :: chars r
  end.

(** [for y in x[1:]]: what the loop walks. *)
Definition rest (x : t) : outcome (list t) :=
  match x with
  | Str s => Return (chars (Py.drop 1 s))
  | List items => Return (tl items)
  | Int _ | Float _ => Raises
  end.

(** The two checks every [from_sexpr] opens with: [exp] is a list, and its
    first item is the name of the token. *)
Definition tagged (tag : string) (exp : t) : outcome (list t) :=
  match exp with
  | List items =>
      let* head := index items 0 in
      if eq_str head tag then Return items else Raises
  | _ => Raises
  end.

(** [if item[0] == key: object = act(object)]. *)
Definition when_key {A : Type} (it : t) (key : string) (act : A -> outcome A) (object : A)
  : outcome A :=
  let* head := item it 0 in
  if eq_str head key then act object else Return object.

(** [object.field = item[1]]. *)
Definition assign {A : Type} (it : t) (set : t -> A -> A) (object : A) : outcome A :=
  let* v := item it 1 in
  Return (set v object).

End Sexpr.

(** The records as [from_sexpr] fills them: a field holds whatever item the
    expression has in its place. *)
Module Parsed.

Module Libsource.
Record t : Type := mk { lib : Sexpr.t; part : Sexpr.t; description : Sexpr.t }.
Definition new : t := mk (Sexpr.Str "") (Sexpr.Str "") (Sexpr.Str "").
Definition set_lib (v : Sexpr.t) (o : t) : t := mk v (part o) (description o).
Definition set_part (v : Sexpr.t) (o : t) : t := mk (lib o) v (description o).
Definition set_description (v : Sexpr.t) (o : t) : t := mk (lib o) (part o) v.

Definition read_item (object : t) (item : Sexpr.t) : outcome t :=
  let* object := Sexpr.when_key item "lib" (Sexpr.assign item set_lib) object in
  let* object := Sexpr.when_key item "part" (Sexpr.assign item set_part) object in
  Sexpr.when_key item "desciption" (Sexpr.assign item set_description) object.

Definition from_sexpr (exp : Sexpr.t) : outcome t :=
  let* items := Sexpr.tagged "libsource" exp in
  foldM read_item items new.
End Libsource.

Module Sheetpath.
Record t : Type := mk { names : Sexpr.t; tstamps : Sexpr.t }.
Definition new : t := mk (Sexpr.Str "") (Sexpr.Str "").
Definition set_names (v : Sexpr.t) (o : t) : t := mk v (tstamps o).
Definition set_tstamps (v : Sexpr.t) (o : t) : t := mk (names o) v.

Definition read_item (object : t) (item : Sexpr.t) : outcome t :=
  let* object := Sexpr.when_key item "names" (Sexpr.assign item set_names) object in
  Sexpr.when_key item "tstamps" (Sexpr.assign item set_tstamps) object.

Definition from_sexpr (exp : Sexpr.t) : outcome t :=
  let* items := Sexpr.tagged "sheetpath" exp in
  foldM read_item items new.
End Sheetpath.

Module CompProperty.
Record t : Type := mk { name : Sexpr.t; value : Sexpr.t }.
Definition new : t := mk (Sexpr.Str "") (Sexpr.Str "").
Definition set_name (v : Sexpr.t) (o : t) : t := mk v (value o).
Definition set_value (v : Sexpr.t) (o : t) : t := mk (name o) v.

Definition read_item (object : t) (item : Sexpr.t) : outcome t :=
  let* object := Sexpr.when_key item "name" (Sexpr.assign item set_name) object in
  Sexpr.when_key item "value" (Sexpr.assign item set_value) object.

Definition from_sexpr (exp : Sexpr.t) : outcome t :=
  let* items := Sexpr.tagged "property" exp in
  foldM read_item items new.
End CompProperty.

Module Comp.
(** Until a [sheetpath] item is read, [sheetpath] is the class [Sheetpath]
    itself and no object of it: [None]. *)
Record t : Type := mk {
  ref        : Sexpr.t;
  value      : Sexpr.t;
  footprint  : Sexpr.t;
  datasheet  : Sexpr.t;
  libsource  : Libsource.t;
  properties : list CompProperty.t;
  sheetpath  : option Sheetpath.t;
  tstamps    : Sexpr.t
}.
Definition new : t :=
  mk (Sexpr.Str "") (Sexpr.Str "") (Sexpr.Str "") (Sexpr.Str "") Libsource.new [] None
     (Sexpr.Str "").
Definition set_ref (v : Sexpr.t) (o : t) : t :=
  mk v (value o) (footprint o) (datasheet o) (libsource o) (properties o) (sheetpath o)
     (tstamps o).
Definition set_value (v : Sexpr.t) (o : t) : t :=
  mk (ref o) v (footprint o) (datasheet o) (libsource o) (properties o) (sheetpath o)
     (tstamps o).
Definition set_footprint (v : Sexpr.t) (o : t) : t :=
  mk (ref o) (value o) v (datasheet o) (libsource o) (properties o) (sheetpath o)
     (tstamps o).
Definition set_datasheet (v : Sexpr.t) (o : t) : t :=
  mk (ref o) (value o) (footprint o) v (libsource o) (properties o) (sheetpath o)
     (tstamps o).
Definition set_libsource (v : Libsource.t) (o : t) : t :=
  mk (ref o) (value o) (footprint o) (datasheet o) v (properties o) (sheetpath o)
     (tstamps o).
Definition add_property (v : CompProperty.t) (o : t) : t :=
  mk (ref o) (value o) (footprint o) (datasheet o) (libsource o) (properties o ++ [v])%list
     (sheetpath o) (tstamps o).
Definition set_sheetpath (v : Sheetpath.t) (o : t) : t :=
  mk (ref o) (value o) (footprint o) (datasheet o) (libsource o) (properties o) (Some v)
     (tstamps o).
Definition set_tstamps (v : Sexpr.t) (o : t) : t :=
  mk (ref o) (value o) (footprint o) (datasheet o) (libsource o) (properties o) (sheetpath o)
     v.

Definition read_item (object : t) (item : Sexpr.t) : outcome t :=
  let* object := Sexpr.when_key item "ref" (Sexpr.assign item set_ref) object in
  let* object := Sexpr.when_key item "value" (Sexpr.assign item set_value) object in
  let* object := Sexpr.when_key item "footprint" (Sexpr.assign item set_footprint) object in
  let* object := Sexpr.when_key item "ref" (Sexpr.assign item set_ref) object in
  let* object := Sexpr.when_key item "datasheet" (Sexpr.assign item set_datasheet) object in
  let* object :=
    Sexpr.when_key item "libsource"
      (fun object => let* v := Libsource.from_sexpr item in Return (set_libsource v object))
      object in
  let* object :=
    Sexpr.when_key item "property"
      (fun object => let* v := CompProperty.from_sexpr item in Return (add_property v object))
      object in
  let* object :=
    Sexpr.when_key item "sheetpath"
      (fun object => let* v := Sheetpath.from_sexpr item in Return (set_sheetpath v object))
      object in
  Sexpr.when_key item "tstamps" (Sexpr.assign item set_tstamps) object.

Definition from_sexpr (exp : Sexpr.t) : outcome t :=
  let* items := Sexpr.tagged "comp" exp in
  foldM read_item items new.
End Comp.

Module Field.
Record t : Type := mk { name : Sexpr.t; value : Sexpr.t }.

(** [exp[1][0] != 'name' or len(exp) < 3] is read left to right. *)
Definition from_sexpr (exp : Sexpr.t) : outcome t :=
  let* items := Sexpr.tagged "field" exp in
  let* first := index items 1 in
  let* key := Sexpr.item first 0 in
  if negb (Sexpr.eq_str key "name") || (List.length items <? 3)%nat then Raises
  else
    let* name := Sexpr.item first 1 in
    let* value := index items 2 in
    Return (mk name value).
End Field.

Module Pin.
Record t : Type := mk { num : Sexpr.t; name : Sexpr.t; type : Sexpr.t }.
Definition new : t := mk (Sexpr.Str "") (Sexpr.Str "") (Sexpr.Str "").
Definition set_num (v : Sexpr.t) (o : t) : t := mk v (name o) (type o).
Definition set_name (v : Sexpr.t) (o : t) : t := mk (num o) v (type o).
Definition set_type (v : Sexpr.t) (o : t) : t := mk (num o) (name o) v.

Definition read_item (object : t) (item : Sexpr.t) : outcome t :=
  let* object := Sexpr.when_key item "num" (Sexpr.assign item set_num) object in
  let* object := Sexpr.when_key item "name" (Sexpr.assign item set_name) object in
  Sexpr.when_key item "type" (Sexpr.assign item set_type) object.

Definition from_sexpr (exp : Sexpr.t) : outcome t :=
  let* items := Sexpr.tagged "pin" exp in
  foldM read_item items new.
End Pin.

Module Libpart.
Record t : Type := mk {
  lib         : Sexpr.t;
  part        : Sexpr.t;
  description : Sexpr.t;
  docs        : Sexpr.t;
  footprints  : list Sexpr.t;
  fields      : list Field.t;
  pins        : list Pin.t
}.
Definition new : t :=
  mk (Sexpr.Str "") (Sexpr.Str "") (Sexpr.Str "") (Sexpr.Str "") [] [] [].
Definition set_lib (v : Sexpr.t) (o : t) : t :=
  mk v (part o) (description o) (docs o) (footprints o) (fields o) (pins o).
Definition set_part (v : Sexpr.t) (o : t) : t :=
  mk (lib o) v (description o) (docs o) (footprints o) (fields o) (pins o).
Definition set_description (v : Sexpr.t) (o : t) : t :=
  mk (lib o) (part o) v (docs o) (footprints o) (fields o) (pins o).
Definition set_docs (v : Sexpr.t) (o : t) : t :=
  mk (lib o) (part o) (description o) v (footprints o) (fields o) (pins o).
Definition add_footprint (v : Sexpr.t) (o : t) : t :=
  mk (lib o) (part o) (description o) (docs o) (footprints o ++ [v])%list (fields o) (pins o).
Definition add_field (v : Field.t) (o : t) : t :=
  mk (lib o) (part o) (description o) (docs o) (footprints o) (fields o ++ [v])%list (pins o).
Definition add_pin (v : Pin.t) (o : t) : t :=
  mk (lib o) (part o) (description o) (docs o) (footprints o) (fields o) (pins o ++ [v])%list.

(** [for sub in item[1:]: if sub[0] == key: ...]. *)
Definition each_of (item : Sexpr.t) (key : string)
    (act : Sexpr.t -> t -> outcome t) (object : t) : outcome t :=
  let* subs := Sexpr.rest item in
  foldM (fun object sub => Sexpr.when_key sub key (act sub) object) subs object.

Definition read_item (object : t) (item : Sexpr.t) : outcome t :=
  let* object := Sexpr.when_key item "lib" (Sexpr.assign item set_lib) object in
  let* object := Sexpr.when_key item "part" (Sexpr.assign item set_part) object in
  let* object :=
    Sexpr.when_key item "description" (Sexpr.assign item set_description) object in
  let* object := Sexpr.when_key item "docs" (Sexpr.assign item set_docs) object in
  let* object :=
    Sexpr.when_key item "footprints"
      (each_of item "fp" (fun footprint => Sexpr.assign footprint add_footprint)) object in
  let* object :=
    Sexpr.when_key item "fields"
      (each_of item "field"
         (fun field object => let* v := Field.from_sexpr field in Return (add_field v object)))
      object in
  Sexpr.when_key item "pins"
    (each_of item "pin"
       (fun pin object => let* v := Pin.from_sexpr pin in Return (add_pin v object)))
    object.

Definition from_sexpr (exp : Sexpr.t) : outcome t :=
  let* items := Sexpr.tagged "libpart" exp in
  foldM read_item items new.
End Libpart.

Module Library.
Record t : Type := mk { logical : Sexpr.t; uri : Sexpr.t }.
Definition new : t := mk (Sexpr.Str "") (Sexpr.Str "").
Definition set_logical (v : Sexpr.t) (o : t) : t := mk v (uri o).
Definition set_uri (v : Sexpr.t) (o : t) : t := mk (logical o) v.

Definition read_item (object : t) (item : Sexpr.t) : outcome t :=
  let* object := Sexpr.when_key item "logical" (Sexpr.assign item set_logical) object in
  Sexpr.when_key item "uri" (Sexpr.assign item set_uri) object.

Definition from_sexpr (exp : Sexpr.t) : outcome t :=
  let* items := Sexpr.tagged "library" exp in
  foldM read_item items new.
End Library.

Module Node.
Record t : Type := mk {
  ref         : Sexpr.t;
  pin         : Sexpr.t;
  pintype     : Sexpr.t;
  pinfunction : Sexpr.t
}.
Definition new : t := mk (Sexpr.Str "") (Sexpr.Str "") (Sexpr.Str "") (Sexpr.Str "").
Definition set_ref (v : Sexpr.t) (o : t) : t := mk v (pin o) (pintype o) (pinfunction o).
Definition set_pin (v : Sexpr.t) (o : t) : t := mk (ref o) v (pintype o) (pinfunction o).
Definition set_pintype (v : Sexpr.t) (o : t) : t := mk (ref o) (pin o) v (pinfunction o).
Definition set_pinfunction (v : Sexpr.t) (o : t) : t := mk (ref o) (pin o) (pintype o) v.

Definition read_item (object : t) (item : Sexpr.t) : outcome t :=
  let* object := Sexpr.when_key item "ref" (Sexpr.assign item set_ref) object in
  let* object := Sexpr.when_key item "pin" (Sexpr.assign item set_pin) object in
  let* object := Sexpr.when_key item "pintype" (Sexpr.assign item set_pintype) object in
  Sexpr.when_key item "pinfunction" (Sexpr.assign item set_pinfunction) object.

Definition from_sexpr (exp : Sexpr.t) : outcome t :=
  let* items := Sexpr.tagged "node" exp in
  foldM read_item items new.
End Node.

Module Net.
Record t : Type := mk { code : Sexpr.t; name : Sexpr.t; nodes : list Node.t }.
Definition new : t := mk (Sexpr.Str "") (Sexpr.Str "") [].
Definition set_code (v : Sexpr.t) (o : t) : t := mk v (name o) (nodes o).
Definition set_name (v : Sexpr.t) (o : t) : t := mk (code o) v (nodes o).
Definition add_node (v : Node.t) (o : t) : t := mk (code o) (name o) (nodes o ++ [v])%list.

Definition read_item (object : t) (item : Sexpr.t) : outcome t :=
  let* object := Sexpr.when_key item "code" (Sexpr.assign item set_code) object in
  let* object := Sexpr.when_key item "name" (Sexpr.assign item set_name) object in
  Sexpr.when_key item "node"
    (fun object => let* v := Node.from_sexpr item in Return (add_node v object)) object.

Definition from_sexpr (exp : Sexpr.t) : outcome t :=
  let* items := Sexpr.tagged "net" exp in
  foldM read_item items new.
End Net.

End Parsed.

(* ========================================================================= *)
(** * What the properties are stated with *)

(* ------------------------------------------------------------------------- *)
(** ** The evaluator as the specification words it *)

(** From the specification of the evaluator: the name of every generic of
    integer type that has an integer value is replaced by that value, generic
    by generic in list order; the other generics are passed over. *)
Fixpoint substitute_known (generic_list : list Generic.t) (size_part : string) : string :=
  match generic_list with
  | [] => size_part
  | g :: rest =>
      match (if Generic.typestr g =? "integer"
             then Py.int_of_str (Generic.value g) else None) with
      | Some v => substitute_known rest (Py.replace size_part (Generic.name g) (Py.str_of_int v))
      | None => substitute_known rest size_part
      end
  end.

(** Every integer generic whose name occurs in the expression when its turn
    comes has an integer value. *)
Definition named_generics_resolve (size_part : string) (generic_list : list Generic.t) : Prop :=
  forall pre g post,
    generic_list = (pre ++ g :: post)%list ->
    Generic.typestr g = "integer" ->
    Py.contains (Generic.name g) (substitute_known pre size_part) = true ->
    is_Some (Py.int_of_str (Generic.value g)).

(* ------------------------------------------------------------------------- *)
(** ** The evaluator *)

(** The fuel a goal of the parser needs beyond five units per token. *)
Definition rank (g : Eval.goal) : nat :=
  match g with
  | Eval.GSum | Eval.GSumRest _ => 5
  | Eval.GTerm | Eval.GTermRest _ => 4
  | Eval.GFactor => 3
  | Eval.GPower => 2
  | Eval.GAtom => 1
  end.

(** A goal that continues an operand may consume nothing; every other goal
    consumes a token when it succeeds. *)
Definition progress (g : Eval.goal) (before after : nat) : Prop :=
  match g with
  | Eval.GSumRest _ | Eval.GTermRest _ => (after <= before)%nat
  | _ => (after < before)%nat
  end.

Definition tokenizes (s : string) : Prop :=
  forall pending, Re.has_non_arith s = false -> Eval.tokenize_from pending s <> Untracked.

Definition basic_token (t : Eval.token) : bool :=
  match t with
  | Eval.TDoubleStar | Eval.TDoubleSlash => false
  | _ => true
  end.

Fixpoint basic (e : Eval.expr) : bool :=
  match e with
  | Eval.ENum _ => true
  | Eval.EUnary _ a => basic a
  | Eval.EBin op l r =>
      match op with
      | Eval.FloorDiv | Eval.Pow => false
      | _ => basic l && basic r
      end
  end.

Definition basic_goal (g : Eval.goal) : bool :=
  match g with
  | Eval.GSumRest l | Eval.GTermRest l => basic l
  | _ => true
  end.

Definition tokenizes_basic (s : string) : Prop :=
  forall pending ts,
    Py.contains "**" s = false -> Py.contains "//" s = false ->
    Eval.tokenize_from pending s = Return ts -> forallb basic_token ts = true.

(* ------------------------------------------------------------------------- *)
(** ** Names and bounds *)

Fixpoint all_digits (s : string) : bool :=
  match s with
  | EmptyString => true
  | String c t => Py.is_digit c && all_digits t
  end.

(** A bound as it is written between the parentheses of a name: on one line,
    free of the colon that separates the bounds and of the space that
    separates a type name. *)
Definition plain_bound (s : string) : bool :=
  negb (Py.has_char Py.LF s) && negb (Py.has_char ":" s) && negb (Py.has_char " " s).

(** A hint that does not open with one of the type letters [u] and [s]. *)
Definition untyped (s : string) : bool :=
  negb (Py.startswith s "u") && negb (Py.startswith s "s").

(** A name in front of the parenthesis: on one line and without parenthesis. *)
Definition plain_name (s : string) : bool :=
  negb (Py.has_char Py.LF s) && negb (Py.has_char "(" s).

Definition is_str (v : pyval) : Prop :=
  match v with
  | PyStr _ => True
  | PyInt _ => False
  end.

(* ------------------------------------------------------------------------- *)
(** ** The aligner as the specification words it *)

(** The number of pipe-separated columns of a line. *)
Definition columns (line : string) : nat := List.length (Py.split "|" line).

(** A run in front of a list of runs: merged with the first of them when the
    column counts agree. *)
Definition join_run (run : list string) (rs : list (list string)) : list (list string) :=
  match run, rs with
  | l :: _, (l' :: r) :: rs' =>
      if (columns l =? columns l')%nat then (run ++ l' :: r)%list :: rs' else run :: rs
  | _, _ => run :: rs
  end.

(** From the specification of the renderer: the runs of consecutive lines
    sharing the same pipe count. *)
Fixpoint runs (lines : list string) : list (list string) :=
  match lines with
  | [] => []
  | l :: rest => join_run [l] (runs rest)
  end.

(** A run is not empty and its lines have one column count. *)
Definition uniform (run : list string) : Prop :=
  match run with
  | [] => False
  | l :: _ => Forall (fun l' => columns l' = columns l) run
  end.

(** The entries of column [i] of a run. *)
Definition column (i : nat) (run : list string) : list string :=
  map (fun line => nth i (Py.split "|" line) "") run.

(** From the specification of the renderer: the maximum width of each column
    of a run. *)
Definition run_widths (run : list string) : list nat :=
  map (fun i => max_list (map String.length (column i run)))
      (seq 0 (columns (hd "" run))).

(** A line with each column padded to its width, the pipes gone. *)
Definition align_line (widths : list nat) (line : string) : string :=
  String.concat "" (zip_with Py.ljust (Py.split "|" line) widths).

Definition align_run (run : list string) : list string :=
  map (align_line (run_widths run)) run.

Definition aligned (doc : string) : string :=
  Py.join (String Py.LF "") (concat (map align_run (runs (Py.splitlines doc)))).

(** What the segmenting loop is followed by. *)
Definition finish (st : Align.segmenting) : list (list string) :=
  if negb (Align.is_empty (Align.cur_seg st))
  then (Align.segs st ++ [Align.cur_seg st])%list else Align.segs st.

(** The widths after one more line. *)
Definition widened (max : list nat) (line : string) : list nat :=
  zip_with Nat.max max (map String.length (Py.split "|" line)).

(* ------------------------------------------------------------------------- *)
(** ** Nets, instances and pins *)

(** Some node of the list names this instance and the pin of this port. *)
Definition named_by (nodes : list Netlist.Node.t) (instance_name : string) (port : Port.t)
  : bool :=
  existsb (fun node => (instance_name =? Netlist.Node.ref node)
                       && (Port.num port =? Netlist.Node.pin node)) nodes.

(** The target an unconnected net leaves on a port it reaches. *)
Definition tied_target (port : Port.t) : string :=
  if Port.dirstr port =? "in" then
    if Port.vhdl_type port =? "boolean" then "false"
    else if Port.vhdl_type port =? "std_logic" then "'0'"
    else "(others => '0')"
  else "open".

(** What the nodes of a net do, one after the other, to one port of the
    instance [iname]. *)
Definition port_after (nodes : list Netlist.Node.t) (iname : string) (port : Port.t) : Port.t :=
  fold_left (fun p node => if iname =? Netlist.Node.ref node then tie_off_port node p else p)
            nodes port.

(** What the net pass compares and never changes: the reference of every
    instance with the pin numbers of its ports. *)
Definition pins (instance_list : list Component.t) : list (string * list string) :=
  map (fun component =>
         (Component.instance_name component, map Port.num (Component.ports component)))
      instance_list.

(** Some port of some instance has this reference and pin number. *)
Definition resolves (instance_list : list Component.t) (ref pin : string) : bool :=
  existsb (fun entry => (fst entry =? ref) && existsb (fun num => num =? pin) (snd entry))
          (pins instance_list).

(** A connection recorded for a node: same reference and pin, and a port
    exactly when one resolves. *)
Definition records (instance_list : list Component.t)
    (connection : Connection.t) (node : Netlist.Node.t) : Prop :=
  Connection.ref connection = Netlist.Node.ref node
  /\ Connection.pin connection = Netlist.Node.pin node
  /\ (Connection.port connection = None
      <-> resolves instance_list (Netlist.Node.ref node) (Netlist.Node.pin node) = false).

(* ------------------------------------------------------------------------- *)
(** ** Sample data *)

(** An integer generic [name] with value [v], as a [PARAMETER] component or an
    instance property of type [integer] gives. *)
Definition integer_generic (name v : string) : Generic.t :=
  Generic.mk name "" "integer" v "" "" v ";" "," "integer" "0" "0" "1".

Definition named_port (name : string) : Port.t := Port.set_name name Port.new.

(** The two-line document of the alignment example. *)
Definition two_lines : string := "a|bb|c" +:+ String Py.LF "aaa|b|cc".

(** A component of the netlist with the given reference, library part, value
    and properties. *)
Definition sample_comp (ref part value : string) (properties : list Netlist.CompProperty.t)
  : Netlist.Comp.t :=
  Netlist.Comp.mk ref value "" "" (Netlist.Libsource.mk "" part "") properties
                  (Netlist.Sheetpath.mk "" "") "".

Definition nothing_built : building := mk_building [] ∅ [].

(** An instance [U1] with a boolean input on pin 1, a vector input on pin 2
    and an output on pin 3. *)
Definition sample_port (name dirstr num vhdl_type : string) : Port.t :=
  Port.mk name "" dirstr "" ";" "," "" num vhdl_type "0" "0" "1" "".

Definition sample_instance : Component.t :=
  Component.mk "ADDER" "U1"
    [sample_port "EN(b)" "in" "1" "boolean";
     sample_port "A" "in" "2" "std_logic_vector(7 downto 0)";
     sample_port "SUM" "out" "3" "std_logic_vector(8 downto 0)"]
    [] None.

Definition sample_node (ref pin : string) : Netlist.Node.t := Netlist.Node.mk ref pin "" "".

Definition sample_wiring : wiring := mk_wiring [sample_instance] [] [].
(* ------------------------------------------------------------------------- *)
(** ** Generics and literals *)

(** A generic the evaluator reads. *)
Definition integer_typed (g : Generic.t) : bool := Generic.typestr g =? "integer".

(** The tokens of [str(z)]. *)
Definition literal (z : Z) : list Eval.token :=
  match z with
  | Zneg p => [Eval.TMinus; Eval.TNum (Zpos p)]
  | _ => [Eval.TNum z]
  end.

(* ------------------------------------------------------------------------- *)
(** ** Hints *)

(** The letters that open a hint, with the type each stands for. *)
Definition type_letters : list (string * string) :=
  [("u", "unsigned"); ("s", "signed"); ("uf", "ufixed"); ("sf", "sfixed")].

(* ------------------------------------------------------------------------- *)
(** ** Instances *)

(** The components of the library that carry the name of a part. *)
Definition parts_named (part : string) (component_list : list Component.t)
  : list Component.t :=
  List.filter (fun lp => Component.name lp =? part) component_list.

(* ------------------------------------------------------------------------- *)
(** ** Nets and signals *)

(** What a net named [name] leaves of a port of the instance [iname]: the
    ports its nodes name take [name] as their target. *)
Definition linked (name : string) (nodes : list Netlist.Node.t) (iname : string)
    (port : Port.t) : Port.t :=
  if named_by nodes iname port then Port.set_target name port else port.

(** The name a connected net gives its signal: the name registered for its
    first node with a direct connection, or else its own name cleaned up. *)
Definition net_name (direct_connects : gmap string string) (net : Netlist.Net.t) : string :=
  match direct_name direct_connects (Netlist.Net.nodes net) with
  | Some registered => registered
  | None => signal_name (Netlist.Net.name net)
  end.

(** A net that becomes a signal: neither unconnected nor directly connected. *)
Definition makes_signal (direct_connects : gmap string string) (net : Netlist.Net.t) : bool :=
  negb (Py.startswith (Netlist.Net.name net) "unconnected")
  && match direct_name direct_connects (Netlist.Net.nodes net) with
     | Some _ => false
     | None => true
     end.

(* ------------------------------------------------------------------------- *)
(** ** Libraries *)

(** Every type the loops over the libraries look at, in their order. *)
Definition all_types (generic_list : list Generic.t) (port_list : list Port.t)
    (constant_list : list Generic.t) (component_list instance_list : list Component.t)
  : list string :=
  (map Generic.vhdl_type generic_list ++ map Port.vhdl_type port_list
   ++ map Generic.vhdl_type constant_list
   ++ flat_map component_types (component_list ++ instance_list))%list.

(** The library a type asks for. *)
Definition library_of (vhdl_type : string) : option string :=
  if Py.contains "signed" vhdl_type then Some "IEEE.numeric_std.all"
  else if Py.contains "sfixed" vhdl_type || Py.contains "ufixed" vhdl_type
       then Some "IEEE.fixed_pkg.all"
       else None.

(* ------------------------------------------------------------------------- *)
(** ** From the library generator to the netlist and back *)

(** The type a port with a range comes back with, by its type name in lower
    case; [None] where the pin name carries no letter or range for it. *)
Definition returned_type (lowered : string) : option string :=
  if one_of lowered ["std_logic"; "boolean"] then None
  else if one_of lowered ["std_logic_vector"; "slv"] then Some "std_logic_vector"
  else if one_of lowered ["sfixed"; "signed"] then Some "signed"
  else if one_of lowered ["ufixed"; "unsigned"] then Some "unsigned"
  else None.

(** The direction a port comes back with, by its mode. *)
Definition returned_direction (mode : string) : string :=
  if one_of mode ["input"; "in"] then "in"
  else if one_of (Py.lower mode) ["output"; "out"] then "out"
  else if Py.lower mode =? "inout" then "inout"
  else "unspecified".

(** The pin of the library part for a port of the HDL, as the netlist lists
    it: the name and the electrical type the symbol was given. *)
Definition library_pin (num : string) (port : VhdlParameter.t) : Netlist.Pin.t :=
  Netlist.Pin.mk num (port_name port) (electrical_type (VhdlParameter.mode port)).

(* ------------------------------------------------------------------------- *)
(** ** S-expressions *)

(** An item that opens with the key. *)
Definition headed (key : string) (item : Sexpr.t) : bool :=
  match Sexpr.item item 0 with
  | Return head => Sexpr.eq_str head key
  | _ => false
  end.

(** What a pair [(key value)] at the end of a [node] expression does to the
    node read from the items before it. *)
Definition node_with (key : string) (v : Sexpr.t) (o : Parsed.Node.t) : Parsed.Node.t :=
  if key =? "ref" then Parsed.Node.set_ref v o
  else if key =? "pin" then Parsed.Node.set_pin v o
  else if key =? "pintype" then Parsed.Node.set_pintype v o
  else if key =? "pinfunction" then Parsed.Node.set_pinfunction v o
  else o.

(* ------------------------------------------------------------------------- *)
(** ** The kinds of components *)

Definition part_of (comp : Netlist.Comp.t) : string :=
  Netlist.Libsource.part (Netlist.Comp.libsource comp).

Definition is_parameter (comp : Netlist.Comp.t) : bool := part_of comp =? "PARAMETER".

Definition is_constant (comp : Netlist.Comp.t) : bool := part_of comp =? "CONSTANT".

Definition is_boundary (comp : Netlist.Comp.t) : bool :=
  one_of (part_of comp) ["IN"; "OUT"; "INOUT"].

(** A component that is none of the five pseudo-parts. *)
Definition is_instance (comp : Netlist.Comp.t) : bool :=
  negb (one_of (part_of comp) ["PARAMETER"; "CONSTANT"; "IN"; "OUT"; "INOUT"]).

(** A part of the library that is none of the five pseudo-parts. *)
Definition is_library_part (libpart : Netlist.Libpart.t) : bool :=
  negb (one_of (Netlist.Libpart.part libpart) ["PARAMETER"; "CONSTANT"; "IN"; "OUT"; "INOUT"]).

(* ------------------------------------------------------------------------- *)
(** ** A sample netlist *)

(** A parameter [DW], an input [clk], a constant and one adder out of the
    library, with a net from the input to the adder, a net from the
    parameter, an unconnected pin and one net of its own. *)
Definition sample_netlist : Netlist.Netlist.t :=
  Netlist.Netlist.mk
    [sample_comp "P1" "PARAMETER" "DW" [Netlist.CompProperty.mk "DEFAULT" "8"];
     sample_comp "J1" "IN" "clk" [];
     sample_comp "K1" "CONSTANT" "5" [Netlist.CompProperty.mk "NAME" "DEPTH"];
     sample_comp "U1" "ADDER" "ADDER"
       [Netlist.CompProperty.mk "W(integer) -- width" "8"]]
    [Netlist.Libpart.mk "fpga" "ADDER" "" "" []
       [Netlist.Field.mk "W(integer) -- width" "4"]
       [Netlist.Pin.mk "1" "CLK" "input"; Netlist.Pin.mk "2" "A(W-1:0)" "input";
        Netlist.Pin.mk "3" "SUM(u8:0)" "output"; Netlist.Pin.mk "4" "EN(b)" "input"];
     Netlist.Libpart.mk "fpga" "IN" "" "" [] [] [Netlist.Pin.mk "1" "" "output"]]
    [Netlist.Net.mk "1" "/clk" [sample_node "J1" "1"; sample_node "U1" "1"];
     Netlist.Net.mk "2" "/a-bus(7:0)" [sample_node "U1" "2"];
     Netlist.Net.mk "3" "unconnected-(U1-Pad4)" [sample_node "U1" "4"];
     Netlist.Net.mk "4" "/sum" [sample_node "U1" "3"]].

(* ------------------------------------------------------------------------- *)
(** ** The type of a signal *)

(** The type of the port a connection points to. *)
Definition connection_type (instance_list : list Component.t) (connection : Connection.t)
  : option string :=
  match Connection.port connection with
  | Some at_ => option_map Port.vhdl_type (port_at instance_list at_)
  | None => None
  end.

(** The first type that is not empty. *)
Definition first_type (types : list string) : string := hd "" (List.filter nonempty types).


(* ========================================================================= *)
(** * Properties *)

(** Boolean hypotheses about conjunctions, disjunctions and negations, taken
    apart. *)
Ltac split_bools :=
  repeat match goal with
         | H : (_ && _) = true |- _ => apply andb_true_iff in H; destruct H
         | H : (_ || _) = false |- _ => apply orb_false_iff in H; destruct H
         | H : negb _ = true |- _ => apply negb_true_iff in H
         end.

Create HintDb digits discriminated.

(* ------------------------------------------------------------------------- *)
(** ** Strings *)

Lemma string_app_cons c (t s : string) : String c t +:+ s = String c (t +:+ s).
Proof. reflexivity. Qed.

Lemma string_app_nil_r (s : string) : s +:+ "" = s.
Proof. induction s as [|c t IH]; [reflexivity|]. rewrite string_app_cons. f_equal. exact IH. Qed.

Lemma string_app_assoc (a b c : string) : (a +:+ b) +:+ c = a +:+ (b +:+ c).
Proof. induction a as [|x a IH]; [reflexivity|]. rewrite !string_app_cons. f_equal. exact IH. Qed.

Lemma string_app_length (a b : string) :
  String.length (a +:+ b) = (String.length a + String.length b)%nat.
Proof.
  induction a as [|c a IH]; [reflexivity|].
  rewrite string_app_cons. cbn [String.length]. rewrite IH. reflexivity.
Qed.

Lemma has_char_app c (a b : string) :
  Py.has_char c (a +:+ b) = Py.has_char c a || Py.has_char c b.
Proof.
  induction a as [|x a IH]; [reflexivity|].
  rewrite string_app_cons. cbn [Py.has_char]. rewrite IH. apply orb_assoc.
Qed.

Lemma contains_empty s : Py.contains "" s = true.
Proof. destruct s; reflexivity. Qed.

Lemma replace_absent s old new :
  Py.contains old s = false -> Py.replace s old new = s.
Proof.
  destruct old as [|a o].
  - rewrite contains_empty. discriminate.
  - unfold Py.replace. induction s as [|c t IH]; intros H.
    + reflexivity.
    + simpl in H. apply orb_false_iff in H as [Hp Hc].
      cbn [Py.replace_from].
      change (String.prefix (String a o) (String c t)) with
        (if Ascii.ascii_dec a c then String.prefix o t else false) in *.
      rewrite Hp. f_equal. apply IH, Hc.
Qed.

Lemma startswith_first p q c (s : string) :
  c <> p -> Py.startswith (String c s) (String p q) = false.
Proof.
  intros H. unfold Py.startswith. cbn [String.prefix].
  destruct (ascii_dec p c); [congruence|reflexivity].
Qed.

Lemma chop_last_app (s : string) c : Re.chop_last (s +:+ String c "") = Some (s, c).
Proof.
  induction s as [|x s IH]; [reflexivity|].
  rewrite string_app_cons. cbn [Re.chop_last]. rewrite IH. reflexivity.
Qed.

Lemma cut_app c (a b : string) :
  Py.has_char c a = false -> Re.cut c (a +:+ String c b) = Some (a, b).
Proof.
  induction a as [|x a IH]; intros H.
  - change ("" +:+ String c b) with (String c b). cbn [Re.cut].
    rewrite Ascii.eqb_refl. reflexivity.
  - cbn [Py.has_char] in H. apply orb_false_iff in H as [Hx Ha].
    rewrite string_app_cons. cbn [Re.cut]. rewrite Hx, (IH Ha). reflexivity.
Qed.

(** *** [split] *)

Lemma split_nonempty sep s : Py.split sep s <> [].
Proof.
  destruct s as [|c t]; [discriminate|]. cbn [Py.split].
  destruct (Ascii.eqb c sep); [discriminate|]. destruct (Py.split sep t); discriminate.
Qed.

Lemma split_no_sep sep (s : string) :
  Py.has_char sep s = false -> Py.split sep s = [s].
Proof.
  induction s as [|c t IH]; intros H; [reflexivity|].
  cbn [Py.has_char] in H. apply orb_false_iff in H as [Hc Ht].
  cbn [Py.split]. rewrite Hc, (IH Ht). reflexivity.
Qed.

Lemma split_app sep (a b : string) :
  Py.has_char sep a = false ->
  Py.split sep (a +:+ String sep b) = a :: Py.split sep b.
Proof.
  induction a as [|c t IH]; intros H.
  - change ("" +:+ String sep b) with (String sep b). cbn [Py.split].
    rewrite Ascii.eqb_refl. reflexivity.
  - cbn [Py.has_char] in H. apply orb_false_iff in H as [Hc Ht].
    rewrite string_app_cons. cbn [Py.split]. rewrite Hc, (IH Ht). reflexivity.
Qed.

Lemma split_two sep (s : string) :
  Py.has_char sep s = true -> exists a b r, Py.split sep s = a :: b :: r.
Proof.
  induction s as [|c t IH]; intros H; [discriminate|].
  cbn [Py.has_char] in H. cbn [Py.split].
  destruct (Ascii.eqb c sep) eqn:E.
  - pose proof (split_nonempty sep t) as Hne.
    destruct (Py.split sep t) as [|b r]; [congruence|]. eauto.
  - cbn [orb] in H. destruct (IH H) as (a & b & r & ->). eauto.
Qed.

Lemma split_parts sep s : Forall (fun p => Py.has_char sep p = false) (Py.split sep s).
Proof.
  induction s as [|c t IH]; [repeat constructor|].
  cbn [Py.split]. destruct (Ascii.eqb c sep) eqn:E.
  - constructor; [reflexivity|exact IH].
  - destruct (Py.split sep t) as [|h r]; [repeat constructor; cbn; now rewrite E|].
    inversion IH as [|? ? Hh Hr]; subst. constructor; [|exact Hr].
    cbn [Py.has_char]. rewrite E, Hh. reflexivity.
Qed.

(** *** Padding and joining *)

Lemma spaces_length n : String.length (Py.spaces n) = n.
Proof. induction n as [|n IH]; [reflexivity|]. cbn. now rewrite IH. Qed.

Lemma spaces_no_char c n : c <> " "%char -> Py.has_char c (Py.spaces n) = false.
Proof.
  intros Hc. induction n as [|n IH]; [reflexivity|].
  cbn [Py.spaces Py.has_char]. rewrite IH, orb_false_r.
  destruct (Ascii.eqb_spec " " c); [congruence|reflexivity].
Qed.

Lemma ljust_length s w : String.length (Py.ljust s w) = Nat.max (String.length s) w.
Proof. unfold Py.ljust. rewrite string_app_length, spaces_length. lia. Qed.

Lemma concat_empty_cons x xs : String.concat "" (x :: xs) = x +:+ String.concat "" xs.
Proof.
  cbn [String.concat]. destruct xs; [|reflexivity].
  cbn [String.concat]. symmetry. apply string_app_nil_r.
Qed.

Lemma concat_no_char c sep l :
  Py.has_char c sep = false ->
  Forall (fun s => Py.has_char c s = false) l ->
  Py.has_char c (String.concat sep l) = false.
Proof.
  intros Hsep. induction 1 as [|x l Hx Hl IH]; [reflexivity|].
  cbn [String.concat]. destruct l as [|y l]; [exact Hx|].
  change (x ++ sep ++ String.concat sep (y :: l))%string
    with (x +:+ sep +:+ String.concat sep (y :: l)).
  rewrite !has_char_app, Hx, Hsep, IH. reflexivity.
Qed.

(* ------------------------------------------------------------------------- *)
(** ** Decimal numerals *)

Lemma string_of_uint_digits u : all_digits (NilEmpty.string_of_uint u) = true.
Proof. induction u; cbn [NilEmpty.string_of_uint all_digits]; rewrite ?IHu; reflexivity. Qed.

(** The numeral of a positive number has no leading zero. *)
Lemma to_uint_normal p : forall d, Pos.to_uint p <> Decimal.D0 d.
Proof.
  intros d H.
  pose proof (DecimalPos.Unsigned.to_of (Pos.to_uint p)) as Hn.
  rewrite DecimalPos.Unsigned.of_to in Hn. cbn [N.to_uint] in Hn.
  destruct (Decimal.nzhead (Pos.to_uint p)) eqn:Hz.
  1: { apply DecimalFacts.unorm_0 in Hz. rewrite <- Hn in Hz.
       exact (DecimalPos.Unsigned.to_uint_nonzero p Hz). }
  all: rewrite DecimalFacts.unorm_nzhead in Hn by (rewrite Hz; discriminate);
    rewrite Hn in H; exact (DecimalFacts.nzhead_nonzero _ _ H).
Qed.

Lemma str_of_int_pos p :
  Py.str_of_int (Zpos p) = NilEmpty.string_of_uint (Pos.to_uint p).
Proof.
  unfold Py.str_of_int. cbn [Z.to_int NilZero.string_of_int NilZero.string_of_uint].
  pose proof (DecimalPos.Unsigned.to_uint_nonnil p).
  destruct (Pos.to_uint p); [congruence|reflexivity..].
Qed.

Lemma str_of_int_neg p :
  Py.str_of_int (Zneg p) = String "-" (NilEmpty.string_of_uint (Pos.to_uint p)).
Proof.
  unfold Py.str_of_int. cbn [Z.to_int NilZero.string_of_int NilZero.string_of_uint].
  pose proof (DecimalPos.Unsigned.to_uint_nonnil p).
  destruct (Pos.to_uint p); [congruence|reflexivity..].
Qed.

Lemma digits_no_char c (s : string) :
  Py.is_digit c = false -> all_digits s = true -> Py.has_char c s = false.
Proof.
  intros Hc. induction s as [|d t IH]; intros H; [reflexivity|].
  cbn [all_digits] in H. apply andb_true_iff in H as [Hd Ht].
  cbn [Py.has_char]. rewrite (IH Ht), orb_false_r.
  destruct (Ascii.eqb_spec d c); [congruence|reflexivity].
Qed.

Lemma digits_arith (s : string) : all_digits s = true -> Re.has_non_arith s = false.
Proof.
  induction s as [|d t IH]; intros H; [reflexivity|].
  cbn [all_digits] in H. apply andb_true_iff in H as [Hd Ht].
  cbn [Re.has_non_arith]. unfold Re.arith_char. rewrite Hd, (IH Ht). reflexivity.
Qed.

Lemma digits_untyped (s : string) : all_digits s = true -> untyped s = true.
Proof.
  destruct s as [|d t]; [reflexivity|].
  cbn [all_digits]. intros H. apply andb_true_iff in H as [Hd _].
  unfold untyped. rewrite !startswith_first; [reflexivity|..]; intros ->; discriminate.
Qed.

Lemma digits_plain (s : string) : all_digits s = true -> plain_bound s = true.
Proof.
  intros H. unfold plain_bound.
  rewrite !digits_no_char by (exact H || reflexivity). reflexivity.
Qed.

#[local] Hint Resolve digits_arith digits_untyped digits_plain : digits.

Lemma str_of_int_shape z :
  plain_bound (Py.str_of_int z) = true /\ untyped (Py.str_of_int z) = true
  /\ Re.has_non_arith (Py.str_of_int z) = false.
Proof.
  destruct z as [|p|p].
  - repeat split.
  - rewrite str_of_int_pos. pose proof (string_of_uint_digits (Pos.to_uint p)) as H.
    auto with digits.
  - rewrite str_of_int_neg. pose proof (string_of_uint_digits (Pos.to_uint p)) as H.
    split; [|split].
    + unfold plain_bound. cbn [Py.has_char].
      rewrite !digits_no_char by (exact H || reflexivity). reflexivity.
    + reflexivity.
    + cbn [Re.has_non_arith]. rewrite (digits_arith _ H). reflexivity.
Qed.

(** *** Through the tokenizer and the evaluator *)

Lemma tokenize_from_digits ds : forall pending,
  all_digits ds = true ->
  Eval.tokenize_from pending ds = Eval.flush (pending +:+ ds) (Return []).
Proof.
  induction ds as [|c t IH]; intros pending H.
  - rewrite string_app_nil_r. reflexivity.
  - cbn [all_digits] in H. apply andb_true_iff in H as [Hc Ht].
    cbn [Eval.tokenize_from]. rewrite Hc, (IH _ Ht), string_app_assoc. reflexivity.
Qed.

Lemma number_token_to_uint p :
  Eval.number_token (NilEmpty.string_of_uint (Pos.to_uint p)) = Return (Eval.TNum (Zpos p)).
Proof.
  pose proof (to_uint_normal p) as Hn.
  pose proof (DecimalPos.Unsigned.to_uint_nonnil p) as Hnil.
  pose proof (DecimalPos.Unsigned.of_to p) as Hof.
  pose proof (NilEmpty.usu (Pos.to_uint p)) as Husu.
  destruct (Pos.to_uint p) as [|d|d|d|d|d|d|d|d|d|d] eqn:Hu;
    [congruence | exfalso; exact (Hn d eq_refl) | ..].
  all: unfold Eval.number_token; cbn [NilEmpty.string_of_uint];
    cbn [NilEmpty.string_of_uint] in Husu; rewrite Husu;
    unfold Z.of_uint; rewrite Hof; reflexivity.
Qed.

Lemma tokenize_to_uint p :
  Eval.tokenize (NilEmpty.string_of_uint (Pos.to_uint p)) = Return [Eval.TNum (Zpos p)].
Proof.
  unfold Eval.tokenize. rewrite tokenize_from_digits by apply string_of_uint_digits.
  change ("" +:+ ?s) with s.
  unfold Eval.flush. rewrite number_token_to_uint.
  pose proof (DecimalPos.Unsigned.to_uint_nonnil p).
  destruct (Pos.to_uint p); [congruence|reflexivity..].
Qed.

(** [int(eval(str(z)))] is [z]. *)
Lemma int_eval_str_of_int z : Eval.int_eval (Py.str_of_int z) = Return z.
Proof.
  destruct z as [|p|p].
  - reflexivity.
  - rewrite str_of_int_pos. unfold Eval.int_eval, Eval.eval.
    rewrite tokenize_to_uint. reflexivity.
  - rewrite str_of_int_neg. unfold Eval.int_eval, Eval.eval, Eval.tokenize.
    cbn [Eval.tokenize_from Py.is_digit].
    change (Eval.tokenize_from "" ?s) with (Eval.tokenize s).
    rewrite tokenize_to_uint. reflexivity.
Qed.

(* ------------------------------------------------------------------------- *)
(** ** The evaluator always answers *)

(** *** The parser never runs out of fuel *)

Ltac parse_step IH :=
  match goal with
  | |- context [Eval.parse ?k ?g ?ts] =>
      let Hn := fresh "Hn" in
      let Hr := fresh "Hr" in
      let E := fresh "E" in
      destruct (IH g ts) as [Hn Hr];
      [cbn [rank List.length] in *; lia |];
      destruct (Eval.parse k g ts) as [[? ?]| |] eqn:E;
      [specialize (Hr _ _ eq_refl); cbn [progress] in Hr | | congruence];
      cbn [bind]
  end.

Lemma parse_enough fuel : forall g ts,
  (5 * List.length ts + rank g <= fuel)%nat ->
  Eval.parse fuel g ts <> Untracked
  /\ forall e r, Eval.parse fuel g ts = Return (e, r) ->
                 progress g (List.length ts) (List.length r).
Proof.
  induction fuel as [|k IH]; intros g ts Hfuel.
  - destruct g; cbn [rank] in Hfuel; lia.
  - destruct g; cbn [Eval.parse rank] in *.
    + (* sum *) 
      parse_step IH; [|split; [discriminate|discriminate]].
      parse_step IH; [|split; [discriminate|discriminate]].
      split; [discriminate|]. intros ? ? [= <- <-]. cbn [progress]. lia.
    + (* more of a sum *)
      destruct ts as [|[] r]; cbn [List.length] in *;
        try (split; [discriminate|]; intros ? ? [= <- <-]; cbn [progress List.length]; lia).
      all: parse_step IH; [|split; [discriminate|discriminate]].
      all: parse_step IH; [|split; [discriminate|discriminate]].
      all: split; [discriminate|]; intros ? ? [= <- <-]; cbn [progress List.length]; lia.
    + (* term *)
      parse_step IH; [|split; [discriminate|discriminate]].
      parse_step IH; [|split; [discriminate|discriminate]].
      split; [discriminate|]. intros ? ? [= <- <-]. cbn [progress]. lia.
    + (* more of a term *)
      destruct ts as [|[] r]; cbn [List.length] in *;
        try (split; [discriminate|]; intros ? ? [= <- <-]; cbn [progress List.length]; lia).
      all: parse_step IH; [|split; [discriminate|discriminate]].
      all: parse_step IH; [|split; [discriminate|discriminate]].
      all: split; [discriminate|]; intros ? ? [= <- <-]; cbn [progress List.length]; lia.
    + (* factor *)
      destruct ts as [|[] r]; cbn [List.length] in *.
      all: parse_step IH; [|split; [discriminate|discriminate]].
      all: try (split; [discriminate|]; intros ? ? [= <- <-]; cbn [progress List.length]; lia).
      all: split; [congruence|]; intros ? ? [= <- <-]; cbn [progress List.length] in *; lia.
    + (* power *)
      parse_step IH; [|split; [discriminate|discriminate]].
      match goal with |- context [match ?l with _ => _ end] => destruct l as [|[] ?] end;
        cbn [List.length] in *;
        try (split; [discriminate|]; intros ? ? [= <- <-]; cbn [progress List.length]; lia).
      parse_step IH; [|split; [discriminate|discriminate]].
      split; [discriminate|]; intros ? ? [= <- <-]; cbn [progress List.length]; lia.
    + (* atom *)
      unfold Eval.after_atom.
      destruct ts as [|[] r]; cbn [List.length] in *; try (split; discriminate).
      * destruct r as [|[] ?];
          (split; [discriminate|]; intros ? ? [= <- <-]; cbn [progress List.length]; lia)
          || (split; discriminate).
      * destruct r as [|t r]; [|destruct t]; try (split; discriminate).
        all: parse_step IH; [|split; [discriminate|discriminate]].
        all: match goal with |- context [match ?l with _ => _ end] => destruct l as [|[] l'] end;
          try (split; discriminate).
        all: destruct l' as [|[] ?]; cbn [List.length] in *;
          (split; [discriminate|]; intros ? ? [= <- <-]; cbn [progress List.length]; lia)
          || (split; discriminate).
Qed.

(** With the fuel [parse_expr] gives it, the parser always comes to an end:
    it parses the tokens or reports a syntax error. *)
Lemma parse_expr_tracked ts : Eval.parse_expr ts <> Untracked.
Proof.
  unfold Eval.parse_expr, Eval.parse_fuel.
  destruct (parse_enough (8 * List.length ts + 8) Eval.GSum ts) as [Hn _];
    [cbn [rank]; lia|].
  destruct (Eval.parse _ Eval.GSum ts) as [[e r]| |]; [|discriminate|congruence].
  cbn [bind]. destruct r; discriminate.
Qed.

(** *** The tokenizer on the alphabet of the guard *)

Lemma arith_char_cases c :
  Re.arith_char c = true ->
  Py.is_digit c = true
  \/ (Py.is_digit c = false
      /\ (c = "+" \/ c = "-" \/ c = "*" \/ c = "/" \/ c = "(" \/ c = ")")%char).
Proof.
  destruct c as [[] [] [] [] [] [] [] []]; cbn; intros H; try discriminate H; auto 10.
Qed.

Lemma number_token_tracked digits : Eval.number_token digits <> Untracked.
Proof.
  unfold Eval.number_token.
  destruct digits as [|c t]; [cbn; discriminate|].
  destruct (NilEmpty.uint_of_string (String c t)); 
    destruct c as [[] [] [] [] [] [] [] []]; try destruct (Eval.all_zeros t); discriminate.
Qed.

Lemma flush_tracked pending rest :
  rest <> Untracked -> Eval.flush pending rest <> Untracked.
Proof.
  intros H. unfold Eval.flush. destruct pending as [|c t]; [exact H|].
  pose proof (number_token_tracked (String c t)) as Hn.
  destruct (Eval.number_token (String c t)); cbn [bind]; [|discriminate|congruence].
  destruct rest; cbn [bind]; [discriminate|discriminate|congruence].
Qed.

Lemma bind_cons_tracked (tok : Eval.token) (m : outcome (list Eval.token)) :
  m <> Untracked -> (let* ts := m in Return (tok :: ts)) <> Untracked.
Proof. destruct m; cbn [bind]; [discriminate|discriminate|congruence]. Qed.

Lemma tokenizes_step c t :
  tokenizes t -> (forall d t', t = String d t' -> tokenizes t') -> tokenizes (String c t).
Proof.
  intros IH IH' pending H.
  cbn [Re.has_non_arith] in H. apply orb_false_iff in H as [Hc Ht].
  apply negb_false_iff in Hc.
  destruct (arith_char_cases c Hc) as [Hd|[Hd Hop]].
  - cbn [Eval.tokenize_from]. rewrite Hd. apply IH, Ht.
  - assert (Ht' : forall d t', t = String d t' -> Re.has_non_arith t' = false).
    { intros d t' ->. cbn [Re.has_non_arith] in Ht.
      apply orb_false_iff in Ht as [_ Ht]. exact Ht. }
    cbn [Eval.tokenize_from]. rewrite Hd.
    destruct Hop as [-> | [-> | [-> | [-> | [-> | ->]]]]].
    1,2,5,6: apply flush_tracked, bind_cons_tracked, IH, Ht.
    all: destruct t as [|d t']; [apply flush_tracked, bind_cons_tracked, IH, Ht|].
    all: specialize (Ht' d t' eq_refl); specialize (IH' d t' eq_refl).
    all: destruct d as [[] [] [] [] [] [] [] []];
      apply flush_tracked, bind_cons_tracked; first [apply IH', Ht' | apply IH, Ht].
Qed.

(** On the alphabet of the guard the tokenizer always comes to an end. *)
Lemma tokenize_tracked s : Re.has_non_arith s = false -> Eval.tokenize s <> Untracked.
Proof.
  enough (H : tokenizes s /\ forall c, tokenizes (String c s)) by apply H.
  induction s as [|d t [IH1 IH2]].
  - assert (H0 : tokenizes "").
    { intros pending _. cbn [Eval.tokenize_from]. apply flush_tracked. discriminate. }
    split; [exact H0|]. intros c. apply tokenizes_step; [exact H0|discriminate].
  - split; [apply IH2|]. intros c. apply tokenizes_step; [apply IH2|].
    intros d' t' [= -> ->]. exact IH1.
Qed.

(** *** Expressions in the four basic operators *)

Lemma number_token_basic digits tok :
  Eval.number_token digits = Return tok -> basic_token tok = true.
Proof.
  unfold Eval.number_token.
  destruct (NilEmpty.uint_of_string digits);
    destruct digits as [|[[] [] [] [] [] [] [] []] t]; try destruct (Eval.all_zeros t);
    intros [= <-]; reflexivity.
Qed.

Lemma flush_basic pending rest ts :
  Eval.flush pending rest = Return ts ->
  (forall ts', rest = Return ts' -> forallb basic_token ts' = true) ->
  forallb basic_token ts = true.
Proof.
  unfold Eval.flush. intros H Hrest. destruct pending as [|c t]; [apply Hrest, H|].
  destruct (Eval.number_token (String c t)) as [tok| |] eqn:E; cbn [bind] in H; try discriminate.
  destruct rest as [ts'| |]; cbn [bind] in H; try discriminate.
  injection H as <-. cbn [forallb]. rewrite (number_token_basic _ _ E), (Hrest ts' eq_refl).
  reflexivity.
Qed.

Lemma bind_cons_basic (tok : Eval.token) (m : outcome (list Eval.token)) ts :
  basic_token tok = true ->
  (forall ts', m = Return ts' -> forallb basic_token ts' = true) ->
  (let* ts' := m in Return (tok :: ts')) = Return ts ->
  forallb basic_token ts = true.
Proof.
  intros Htok Hm. destruct m as [ts'| |]; cbn [bind]; try discriminate.
  intros [= <-]. cbn [forallb]. rewrite Htok, (Hm ts' eq_refl). reflexivity.
Qed.

Lemma contains_tail sub c t : Py.contains sub (String c t) = false -> Py.contains sub t = false.
Proof. cbn [Py.contains]. intros H. apply orb_false_iff in H as [_ H]. exact H. Qed.

Lemma tokenizes_basic_step c t :
  tokenizes_basic t -> tokenizes_basic (String c t).
Proof.
  intros IH pending ts Hpow Hdiv.
  pose proof (contains_tail _ _ _ Hpow) as Hpow'.
  pose proof (contains_tail _ _ _ Hdiv) as Hdiv'.
  assert (Hrec : forall tok m, basic_token tok = true ->
            m = Eval.tokenize_from "" t ->
            Eval.flush pending (let* ts' := m in Return (tok :: ts')) = Return ts ->
            forallb basic_token ts = true).
  { intros tok m Htok -> H. eapply flush_basic; [exact H|].
    intros ts1 H1. eapply bind_cons_basic; [exact Htok| |exact H1].
    intros ts2 H2. exact (IH "" ts2 Hpow' Hdiv' H2). }
  cbn [Eval.tokenize_from].
  destruct (Py.is_digit c); [apply IH; assumption|].
  destruct c as [[] [] [] [] [] [] [] []]; try discriminate;
    try (apply Hrec; reflexivity).
  - (* a slash *)
    destruct t as [|d t']; [apply Hrec; reflexivity|].
    destruct d as [[] [] [] [] [] [] [] []]; try (apply Hrec; reflexivity).
    destruct t'; cbn in Hdiv; discriminate Hdiv.
  - (* a star *)
    destruct t as [|d t']; [apply Hrec; reflexivity|].
    destruct d as [[] [] [] [] [] [] [] []]; try (apply Hrec; reflexivity).
    destruct t'; cbn in Hpow; discriminate Hpow.
Qed.

Lemma tokenize_basic s ts :
  Py.contains "**" s = false -> Py.contains "//" s = false ->
  Eval.tokenize s = Return ts -> forallb basic_token ts = true.
Proof.
  enough (H : tokenizes_basic s) by apply H.
  induction s as [|c t IH]; [|apply tokenizes_basic_step, IH].
  intros pending ts' _ _ H. cbn [Eval.tokenize_from] in H.
  eapply flush_basic; [exact H|]. intros ? [= <-]. reflexivity.
Qed.

Ltac use_basic :=
  cbn [basic_goal basic forallb basic_token andb] in *;
  repeat match goal with
         | H : basic _ = true |- _ => rewrite H
         | H : forallb basic_token _ = true |- _ => rewrite H
         end.

Ltac parse_basic_step IH :=
  match goal with
  | H : context [Eval.parse ?k ?g ?ts] |- _ =>
      let E := fresh "E" in
      destruct (Eval.parse k g ts) as [[? ?]| |] eqn:E; cbn [bind] in H; try discriminate H;
      apply IH in E as [? ?]; [|assumption|use_basic; reflexivity]
  end.

Ltac basic_done :=
  repeat match goal with
         | H : Return _ = Return _ |- _ => injection H as <- <-
         end;
  use_basic; auto.

Lemma parse_basic fuel : forall g ts e r,
  forallb basic_token ts = true -> basic_goal g = true ->
  Eval.parse fuel g ts = Return (e, r) ->
  basic e = true /\ forallb basic_token r = true.
Proof.
  induction fuel as [|k IH]; intros g ts e r Hts Hg H; [discriminate|].
  destruct g; cbn [Eval.parse basic_goal] in *.
  - parse_basic_step IH. parse_basic_step IH. basic_done.
  - destruct ts as [|[] ts']; cbn [forallb basic_token andb] in Hts;
      try (basic_done; fail).
    all: parse_basic_step IH; parse_basic_step IH; basic_done.
  - parse_basic_step IH. parse_basic_step IH. basic_done.
  - destruct ts as [|[] ts']; cbn [forallb basic_token andb] in Hts;
      try discriminate Hts; try (basic_done; fail).
    all: parse_basic_step IH; parse_basic_step IH; basic_done.
  - destruct ts as [|[] ts']; cbn [forallb basic_token andb] in Hts.
    all: parse_basic_step IH; basic_done.
  - parse_basic_step IH.
    match goal with H : context [match ?l with _ => _ end] |- _ => destruct l as [|[] ?] end;
      use_basic; try discriminate; basic_done.
  - unfold Eval.after_atom in H.
    destruct ts as [|[] ts']; cbn [forallb basic_token andb] in Hts; try discriminate.
    + destruct ts' as [|[] ?]; try discriminate; basic_done.
    + destruct ts' as [|t ts'']; [|destruct t]; try discriminate.
      all: cbn [forallb basic_token andb] in Hts.
      all: parse_basic_step IH.
      all: match goal with H : context [match ?l with _ => _ end] |- _ =>
             destruct l as [|[] l'] end; try discriminate.
      all: destruct l' as [|[] ?]; try discriminate; basic_done.
Qed.

Lemma eval_basic_tracked e : basic e = true -> Eval.eval_expr e <> Untracked.
Proof.
  induction e as [n|op a IH|op l IHl r IHr]; cbn [basic Eval.eval_expr].
  - discriminate.
  - intros H. specialize (IH H).
    destruct (Eval.eval_expr a); cbn [bind]; [discriminate|discriminate|congruence].
  - intros H.
    assert (Hop : op <> Eval.FloorDiv /\ op <> Eval.Pow /\ basic l = true /\ basic r = true).
    { destruct op; try discriminate H; apply andb_true_iff in H as [? ?];
        repeat split; (discriminate || assumption). }
    destruct Hop as (Hfd & Hpow & Hl & Hr). specialize (IHl Hl). specialize (IHr Hr).
    destruct (Eval.eval_expr l) as [x| |]; cbn [bind]; [|discriminate|congruence].
    destruct (Eval.eval_expr r) as [y| |]; cbn [bind]; [|discriminate|congruence].
    unfold Eval.apply_binop, Eval.int_binop, Eval.int_true_divide, Eval.float_binop,
      Eval.to_float, Eval.float_of_int.
    destruct op; try congruence;
      destruct x as [a|fx], y as [b|fy]; cbn [bind];
      repeat match goal with
             | |- context [if ?c then _ else _] => destruct c
             | |- context [match ?m with _ => _ end] => destruct m; cbn [bind]
             end; discriminate.
Qed.

Lemma int_of_value_tracked v : Eval.int_of_value v <> Untracked.
Proof. destruct v as [z|[]]; discriminate. Qed.

(** On an expression in the four basic operators and parentheses, with no
    [**] and no [//], the evaluator always answers: an integer or an
    exception. *)
Lemma int_eval_basic s :
  Re.has_non_arith s = false ->
  Py.contains "**" s = false -> Py.contains "//" s = false ->
  Eval.int_eval s <> Untracked.
Proof.
  intros Harith Hpow Hdiv. unfold Eval.int_eval, Eval.eval.
  pose proof (tokenize_tracked s Harith) as Htok.
  destruct (Eval.tokenize s) as [ts| |] eqn:Ets; cbn [bind]; [|discriminate|congruence].
  pose proof (tokenize_basic s ts Hpow Hdiv Ets) as Hts.
  pose proof (parse_expr_tracked ts) as Hparse.
  destruct (Eval.parse_expr ts) as [e| |] eqn:Ee; cbn [bind]; [|discriminate|congruence].
  assert (He : basic e = true).
  { unfold Eval.parse_expr in Ee.
    destruct (Eval.parse _ Eval.GSum ts) as [[e' r]| |] eqn:Ep; cbn [bind] in Ee;
      try discriminate.
    destruct r; [|discriminate]. injection Ee as ->.
    exact (proj1 (parse_basic _ Eval.GSum _ _ _ Hts eq_refl Ep)). }
  pose proof (eval_basic_tracked e He) as Hev.
  destruct (Eval.eval_expr e) as [v| |]; cbn [bind]; [|discriminate|congruence].
  apply int_of_value_tracked.
Qed.

(* ------------------------------------------------------------------------- *)
(** ** [parse_portsize_part] *)

(** *** The substitution loop *)

Lemma substitute_known_cons g gl s :
  substitute_known (g :: gl) s = substitute_known gl (substitute_known [g] s).
Proof.
  cbn [substitute_known].
  destruct (if Generic.typestr g =? "integer" then _ else _); reflexivity.
Qed.

Lemma named_generics_resolve_tail s g gl :
  named_generics_resolve s (g :: gl) ->
  named_generics_resolve (substitute_known [g] s) gl.
Proof.
  intros H pre g' post Hgl Hty Hin.
  apply (H (g :: pre) g' post).
  - rewrite Hgl. reflexivity.
  - exact Hty.
  - rewrite substitute_known_cons. exact Hin.
Qed.

(** What one turn of the loop does to [size_part] when it does not return. *)
Lemma substitute_known_one g s :
  substitute_known [g] s =
  if Generic.typestr g =? "integer" then
    if Py.contains (Generic.name g) s then
      match Py.int_of_str (Generic.value g) with
      | Some v => Py.replace s (Generic.name g) (Py.str_of_int v)
      | None => s
      end
    else s
  else s.
Proof.
  cbn [substitute_known].
  destruct (Generic.typestr g =? "integer"); [|reflexivity].
  destruct (Py.contains (Generic.name g) s) eqn:Hin; [reflexivity|].
  destruct (Py.int_of_str (Generic.value g)); [|reflexivity].
  apply replace_absent, Hin.
Qed.

Lemma substitute_loop_completes gl : forall s,
  named_generics_resolve s gl ->
  substitute_loop s gl = Completed (substitute_known gl s).
Proof.
  induction gl as [|g gl IH]; intros s H.
  - reflexivity.
  - rewrite substitute_known_cons, substitute_known_one.
    pose proof (named_generics_resolve_tail _ _ _ H) as Ht.
    rewrite substitute_known_one in Ht.
    cbn [substitute_loop].
    destruct (Generic.typestr g =? "integer") eqn:Hty; cbn [negb]; [|apply IH, Ht].
    destruct (Py.contains (Generic.name g) s) eqn:Hin; [|apply IH, Ht].
    apply String.eqb_eq in Hty.
    destruct (H [] g gl eq_refl Hty Hin) as [v Hv].
    rewrite Hv in Ht |- *. apply IH, Ht.
Qed.

(** Whatever the loop hands back is the expression with the known generics of
    a prefix of the list substituted; when it runs to the end the prefix is
    the whole list. *)
Lemma substitute_loop_prefix gl : forall s,
  match substitute_loop s gl with
  | Completed t => t = substitute_known gl s
  | Abandoned t => exists k, t = substitute_known (take k gl) s
  end.
Proof.
  induction gl as [|g gl IH]; intros s.
  - reflexivity.
  - assert (Hstep : forall t, t = substitute_known [g] s ->
      match substitute_loop t gl with
      | Completed t' => t' = substitute_known (g :: gl) s
      | Abandoned t' => exists k, t' = substitute_known (take k (g :: gl)) s
      end).
    { intros t ->. specialize (IH (substitute_known [g] s)).
      destruct (substitute_loop _ gl) as [t'|t'].
      - rewrite substitute_known_cons. exact IH.
      - destruct IH as [k Hk]. exists (S k).
        cbn [take]. rewrite substitute_known_cons. exact Hk. }
    pose proof (substitute_known_one g s) as Hone.
    cbn [substitute_loop].
    destruct (Generic.typestr g =? "integer"); cbn [negb];
      [|apply Hstep; symmetry; exact Hone].
    destruct (Py.contains (Generic.name g) s);
      [|apply Hstep; symmetry; exact Hone].
    destruct (Py.int_of_str (Generic.value g)) as [v|];
      [apply Hstep; symmetry; exact Hone|].
    exists 0%nat. reflexivity.
Qed.

(** Generics that all have integer values resolve in any expression. *)
Lemma integer_values_resolve s gl :
  forallb (fun g => negb (Generic.typestr g =? "integer")
                    || bool_decide (is_Some (Py.int_of_str (Generic.value g)))) gl = true ->
  named_generics_resolve s gl.
Proof.
  intros H pre g post -> Hty _.
  rewrite forallb_app in H. apply andb_true_iff in H as [_ H].
  cbn [forallb] in H. apply andb_true_iff in H as [H _].
  apply String.eqb_eq in Hty. rewrite Hty in H. cbn in H.
  apply bool_decide_eq_true in H. exact H.
Qed.

Lemma parse_portsize_part_numeral z :
  parse_portsize_part (PyStr (Py.str_of_int z)) [] = Return (PyInt z).
Proof.
  cbn [parse_portsize_part substitute_loop].
  destruct (str_of_int_shape z) as (_ & _ & ->).
  rewrite int_eval_str_of_int. reflexivity.
Qed.

(** *** C1 *)

(** C1 as stated fails where the substituted expression has no value: every
    generic is an integer with an integer value, only characters of the class
    remain, and the evaluation divides by zero. *)
Lemma parse_portsize_part_division_by_zero :
  Forall (fun g => Generic.typestr g = "integer" /\ is_Some (Py.int_of_str (Generic.value g)))
         [integer_generic "DW" "8"]
  /\ Re.has_non_arith (substitute_known [integer_generic "DW" "8"] "8/(DW-8)") = false
  /\ parse_portsize_part (PyStr "8/(DW-8)") [integer_generic "DW" "8"] = Raises.
Proof.
  split; [|split].
  - constructor; [|constructor]. split; [reflexivity|]. exists 8. reflexivity.
  - reflexivity.
  - reflexivity.
Qed.

(** C1, as amended.  When every integer generic named in the expression at
    its turn has an integer value, and the expression with these values
    substituted has no character outside [0-9+-*/()], [parse_portsize_part]
    does what [int(eval(...))] does on the substituted expression: it returns
    the integer that yields, and raises when that raises. *)
Theorem parse_portsize_part_evaluates (size_part : string) (generic_list : list Generic.t) :
  named_generics_resolve size_part generic_list ->
  Re.has_non_arith (substitute_known generic_list size_part) = false ->
  (forall z, Eval.int_eval (substitute_known generic_list size_part) = Return z ->
             parse_portsize_part (PyStr size_part) generic_list = Return (PyInt z))
  /\ (Eval.int_eval (substitute_known generic_list size_part) = Raises ->
      parse_portsize_part (PyStr size_part) generic_list = Raises).
Proof.
  intros Hres Harith. cbn [parse_portsize_part].
  rewrite (substitute_loop_completes _ _ Hres), Harith.
  split.
  - intros z ->. reflexivity.
  - intros ->. reflexivity.
Qed.

Lemma parse_portsize_part_evaluates_witness :
  parse_portsize_part (PyStr "(DW-1)*2") [integer_generic "AW" "x"; integer_generic "DW" "8"]
  = Return (PyInt 14).
Proof.
  apply (parse_portsize_part_evaluates "(DW-1)*2"
           [integer_generic "AW" "x"; integer_generic "DW" "8"]).
  - intros pre g post Heq Hty Hin.
    destruct pre as [|g0 [|g1 pre]]; inversion Heq; subst.
    + discriminate Hin.
    + exists 8. reflexivity.
    + destruct pre; discriminate.
  - reflexivity.
  - reflexivity.
Defined.

(** *** C6 *)
Lemma named_generics_resolve_cons s g gl :
  (Generic.typestr g = "integer" -> Py.contains (Generic.name g) s = true ->
   is_Some (Py.int_of_str (Generic.value g))) ->
  named_generics_resolve (substitute_known [g] s) gl ->
  named_generics_resolve s (g :: gl).
Proof.
  intros Hg Hgl pre g' post Heq Hty Hin.
  destruct pre as [|g0 pre]; cbn [app] in Heq; injection Heq as <- ->.
  - apply Hg; assumption.
  - apply (Hgl pre g' post eq_refl Hty).
    rewrite <- substitute_known_cons. exact Hin.
Qed.

(** When the loop runs to the end, every integer generic it found named had
    an integer value. *)
Lemma substitute_loop_resolves gl : forall s t,
  substitute_loop s gl = Completed t -> named_generics_resolve s gl.
Proof.
  induction gl as [|g gl IH]; intros s t Hloop.
  - intros pre g' post Heq. destruct pre; discriminate.
  - pose proof (substitute_known_one g s) as Hone.
    cbn [substitute_loop] in Hloop.
    apply named_generics_resolve_cons; rewrite ?Hone.
    + intros Hty Hin. apply String.eqb_eq in Hty. rewrite Hty, Hin in Hloop.
      cbn [negb] in Hloop.
      destruct (Py.int_of_str (Generic.value g)); [eexists; reflexivity|discriminate].
    + destruct (Generic.typestr g =? "integer"); cbn [negb] in Hloop; [|exact (IH _ _ Hloop)].
      destruct (Py.contains (Generic.name g) s); [|exact (IH _ _ Hloop)].
      destruct (Py.int_of_str (Generic.value g)); [exact (IH _ _ Hloop)|discriminate].
Qed.

(** Where the loop gives up: at the first integer generic that is named in
    the expression as substituted so far and has no integer value. *)
Lemma substitute_loop_abandoned gl : forall s t,
  substitute_loop s gl = Abandoned t ->
  exists k g,
    gl !! k = Some g
    /\ t = substitute_known (take k gl) s
    /\ named_generics_resolve s (take k gl)
    /\ Generic.typestr g = "integer"
    /\ Py.contains (Generic.name g) t = true
    /\ Py.int_of_str (Generic.value g) = None.
Proof.
  induction gl as [|g gl IH]; intros s t Hloop; [discriminate|].
  assert (Hstep : forall s',
            s' = substitute_known [g] s ->
            (Generic.typestr g = "integer" -> Py.contains (Generic.name g) s = true ->
             is_Some (Py.int_of_str (Generic.value g))) ->
            substitute_loop s' gl = Abandoned t ->
            exists k g', (g :: gl) !! k = Some g'
              /\ t = substitute_known (take k (g :: gl)) s
              /\ named_generics_resolve s (take k (g :: gl))
              /\ Generic.typestr g' = "integer"
              /\ Py.contains (Generic.name g') t = true
              /\ Py.int_of_str (Generic.value g') = None).
  { intros s' -> Hg Hrest.
    destruct (IH _ _ Hrest) as (k & g' & Hk & Ht & Hres & Hty & Hin & Hval).
    exists (S k), g'. cbn [take]. rewrite substitute_known_cons.
    repeat split; try assumption.
    apply named_generics_resolve_cons; assumption. }
  pose proof (substitute_known_one g s) as Hone.
  cbn [substitute_loop] in Hloop.
  destruct (Generic.typestr g =? "integer") eqn:Hty; cbn [negb] in Hloop.
  2:{ apply (Hstep s); [symmetry; exact Hone| |exact Hloop].
      intros E. apply String.eqb_neq in Hty. contradiction. }
  destruct (Py.contains (Generic.name g) s) eqn:Hin.
  2:{ apply (Hstep s); [symmetry; exact Hone| |exact Hloop]. intros _ [=]. }
  destruct (Py.int_of_str (Generic.value g)) as [v|] eqn:Hval.
  - apply (Hstep _ (eq_sym Hone)); [|exact Hloop]. intros _ _. eexists; reflexivity.
  - injection Hloop as <-. exists 0%nat, g.
    apply String.eqb_eq in Hty.
    repeat split; try assumption.
    intros pre g' post Heq. destruct pre; discriminate.
Qed.

(** C6.  When the expression with the known integer generics substituted
    still has a character outside [0-9+-*/()], [parse_portsize_part] raises
    nothing and returns a string.  When every integer generic named in the
    expression at its turn has an integer value, that string is the expression
    with all of these values substituted.  In general it is the expression
    with the values of the first [k] generics substituted, where every integer
    generic named before position [k] had an integer value, and [k] is either
    the end of the list or the position of the first integer generic that is
    named in the expression as substituted so far and whose value is not an
    integer: there the function returns what it has, the later generics
    unread. *)
Theorem parse_portsize_part_defers (size_part : string) (generic_list : list Generic.t) :
  Re.has_non_arith (substitute_known generic_list size_part) = true ->
  (named_generics_resolve size_part generic_list ->
   parse_portsize_part (PyStr size_part) generic_list
   = Return (PyStr (substitute_known generic_list size_part)))
  /\ exists k,
       parse_portsize_part (PyStr size_part) generic_list
       = Return (PyStr (substitute_known (take k generic_list) size_part))
       /\ named_generics_resolve size_part (take k generic_list)
       /\ (k = List.length generic_list
           \/ exists g,
                generic_list !! k = Some g
                /\ Generic.typestr g = "integer"
                /\ Py.contains (Generic.name g)
                               (substitute_known (take k generic_list) size_part) = true
                /\ Py.int_of_str (Generic.value g) = None).
Proof.
  intros Hbad. split.
  - intros Hres. cbn [parse_portsize_part].
    rewrite (substitute_loop_completes _ _ Hres), Hbad. reflexivity.
  - cbn [parse_portsize_part].
    destruct (substitute_loop size_part generic_list) as [t|t] eqn:Hloop.
    + exists (List.length generic_list). rewrite firstn_all.
      pose proof (substitute_loop_prefix generic_list size_part) as Hpre.
      rewrite Hloop in Hpre. subst t. rewrite Hbad.
      split; [reflexivity|]. split; [|left; reflexivity].
      exact (substitute_loop_resolves _ _ _ Hloop).
    + destruct (substitute_loop_abandoned _ _ _ Hloop)
        as (k & g & Hk & -> & Hres & Hty & Hin & Hval).
      exists k. split; [reflexivity|]. split; [exact Hres|].
      right. exists g. auto.
Qed.

Lemma parse_portsize_part_defers_witness :
  parse_portsize_part (PyStr "DW+AW-1") [integer_generic "DW" "8"] = Return (PyStr "8+AW-1").
Proof.
  destruct (parse_portsize_part_defers "DW+AW-1" [integer_generic "DW" "8"] eq_refl)
    as [Hall _].
  apply Hall, integer_values_resolve. reflexivity.
Defined.

(* ------------------------------------------------------------------------- *)
(** ** [Port.update_from_name] *)

(** *** The name pattern *)

(** A name [base(hint)] on one line, with no parenthesis in [base] and a
    non-empty [hint], matches with these two groups. *)
Lemma name_hint_app (base hint : string) :
  plain_name base = true ->
  Py.has_char Py.LF hint = false ->
  hint <> "" ->
  Re.name_hint (base +:+ "(" +:+ hint +:+ ")") = Some (base, hint).
Proof.
  unfold plain_name. intros Hb Hh Hne.
  apply andb_true_iff in Hb as [Hb1 Hb2]. split_bools.
  assert (Hs : base +:+ "(" +:+ hint +:+ ")" = (base +:+ "(" +:+ hint) +:+ ")").
  { rewrite !string_app_assoc. reflexivity. }
  unfold Re.name_hint, Re.before_final_newline. rewrite Hs, chop_last_app.
  cbn [Ascii.eqb Bool.eqb Py.LF]. rewrite chop_last_app.
  rewrite has_char_app, Hb1. cbn [orb].
  change ("(" +:+ hint) with (String "(" hint). cbn [Py.has_char Ascii.eqb Bool.eqb Py.LF].
  cbn [orb]. rewrite Hh. rewrite (cut_app _ _ _ Hb2).
  destruct hint; [congruence|reflexivity].
Qed.

(** *** Splitting a hint *)

Lemma plain_bound_chars s :
  plain_bound s = true ->
  Py.has_char Py.LF s = false /\ Py.has_char ":" s = false /\ Py.has_char " " s = false.
Proof.
  unfold plain_bound. intros H. split_bools. auto.
Qed.

Lemma untyped_first c t :
  untyped (String c t) = true -> c <> "u"%char /\ c <> "s"%char.
Proof.
  unfold untyped, Py.startswith. cbn [String.prefix].
  destruct (ascii_dec "u" c) as [<-|Hu]; [destruct t; discriminate|].
  destruct (ascii_dec "s" c) as [<-|Hs]; [destruct t; discriminate|].
  intros _. split; congruence.
Qed.

(** A hint [hs:ls] of two plain bounds, the first not opening with a type
    letter, is a [std_logic_vector] range with these bounds. *)
Lemma split_hint_plain (hs ls : string) :
  plain_bound hs = true -> plain_bound ls = true -> untyped hs = true ->
  Port.split_hint (hs +:+ ":" +:+ ls) = Return ("std_logic_vector", PyStr hs, PyStr ls).
Proof.
  intros Hh Hl Hu.
  apply plain_bound_chars in Hh as (_ & Hh2 & Hh3).
  apply plain_bound_chars in Hl as (_ & Hl2 & Hl3).
  assert (Hsp : Py.has_char " " (hs +:+ ":" +:+ ls) = false).
  { rewrite has_char_app, Hh3. change (":" +:+ ls) with (String ":" ls).
    cbn [Py.has_char]. rewrite Hl3. reflexivity. }
  assert (Hsplit : Py.split ":" (hs +:+ ":" +:+ ls) = [hs; ls]).
  { change (":" +:+ ls) with (String ":" ls).
    rewrite (split_app _ _ _ Hh2), (split_no_sep _ _ Hl2). reflexivity. }
  assert (Hpre : forall p q, (p = "u" \/ p = "s")%char ->
                 Py.startswith (hs +:+ ":" +:+ ls) (String p q) = false).
  { intros p q Hp. destruct hs as [|c t].
    - change ("" +:+ ":" +:+ ls) with (String ":" ls).
      apply startswith_first. destruct Hp; subst; discriminate.
    - rewrite string_app_cons. apply startswith_first.
      apply untyped_first in Hu as [? ?]. destruct Hp; subst; assumption. }
  unfold Port.split_hint.
  rewrite (Hpre "u"%char "f"), (Hpre "u"%char ""), (Hpre "s"%char "f"), (Hpre "s"%char "")
    by auto.
  rewrite Hsp. cbn [bind]. rewrite Hsplit. reflexivity.
Qed.

Lemma split_hint_returns hint : exists ty hs ls, Port.split_hint hint = Return (ty, hs, ls).
Proof.
  assert (Hrange : forall (ty s : string), exists hs ls,
            (let range_parts := Py.split ":" s in
             if (List.length range_parts =? 1)%nat then
               let* high_str := index range_parts 0 in
               Return (ty, PyStr high_str, PyInt 0)
             else
               let* high_str := index range_parts 0 in
               let* low_str := index range_parts 1 in
               Return (ty, PyStr high_str, PyStr low_str)) = Return (ty, hs, ls)).
  { intros ty s. cbn zeta. pose proof (split_nonempty ":" s) as Hne.
    destruct (Py.split ":" s) as [|a [|b r]]; [congruence| |]; cbn; eauto. }
  unfold Port.split_hint.
  destruct (Py.startswith hint "uf"); cbn [bind]; [eauto|].
  destruct (Py.startswith hint "u"); cbn [bind]; [eauto|].
  destruct (Py.startswith hint "sf"); cbn [bind]; [eauto|].
  destruct (Py.startswith hint "s"); cbn [bind]; [eauto|].
  destruct (Py.has_char " " hint) eqn:Hsp; cbn [bind]; [|eauto].
  destruct (split_two _ _ Hsp) as (a & b & r & ->). cbn. eauto.
Qed.

Lemma update_from_name_plain_range self gl do_eval (base hs ls : string) high low :
  plain_name base = true ->
  plain_bound hs = true -> plain_bound ls = true -> untyped hs = true ->
  Port.resolve_bound do_eval gl (PyStr hs) = Return high ->
  Port.resolve_bound do_eval gl (PyStr ls) = Return low ->
  Port.update_from_name (Port.set_name (base +:+ "(" +:+ hs +:+ ":" +:+ ls +:+ ")") self) gl do_eval
  = Return (Port.set_parsed
              ("std_logic_vector" +:+ "(" +:+ py_str high +:+ " downto " +:+ py_str low +:+ ")")
              (py_str high) (py_str low) (Port.length_of high low)
              (Port.set_name base self)).
Proof.
  intros Hb Hh Hl Hu Hhigh Hlow.
  assert (Hname : Re.name_hint (base +:+ "(" +:+ hs +:+ ":" +:+ ls +:+ ")")
                  = Some (base, hs +:+ ":" +:+ ls)).
  { rewrite <- (string_app_assoc hs ":" (ls +:+ ")")), <- (string_app_assoc (hs +:+ ":") ls ")").
    rewrite (string_app_assoc hs ":" ls).
    apply name_hint_app; [exact Hb| |].
    - apply plain_bound_chars in Hh as (Hh1 & _). apply plain_bound_chars in Hl as (Hl1 & _).
      rewrite has_char_app, Hh1. change (":" +:+ ls) with (String ":" ls).
      cbn [Py.has_char]. rewrite Hl1. reflexivity.
    - destruct hs; discriminate. }
  assert (Hnb : forall w, (hs +:+ ":" +:+ ls =? w) = true -> Py.has_char ":" w = true).
  { intros w Hw. apply String.eqb_eq in Hw. subst w.
    rewrite has_char_app. change (":" +:+ ls) with (String ":" ls).
    cbn [Py.has_char]. rewrite Ascii.eqb_refl. apply orb_true_r. }
  unfold Port.update_from_name. cbn [Port.name Port.set_name]. rewrite Hname.
  destruct (hs +:+ ":" +:+ ls =? "b") eqn:E1; [apply Hnb in E1; discriminate|].
  destruct (hs +:+ ":" +:+ ls =? "integer") eqn:E2; [apply Hnb in E2; discriminate|].
  rewrite (split_hint_plain _ _ Hh Hl Hu). cbn [bind].
  rewrite Hhigh, Hlow. reflexivity.
Qed.

(** *** C2 *)
(** A name with a hint that is neither [b] nor [integer]: the call is the
    evaluation of the two bounds the hint is split into. *)
Lemma update_from_name_bounds (self : Port.t) gl do_eval (part0 hint ty : string) hs ls :
  Re.name_hint (Port.name self) = Some (part0, hint) ->
  hint <> "b" -> hint <> "integer" ->
  Port.split_hint hint = Return (ty, hs, ls) ->
  Port.update_from_name self gl do_eval
  = (let* high := Port.resolve_bound do_eval gl hs in
     let* low := Port.resolve_bound do_eval gl ls in
     Return (Port.set_parsed
               (ty +:+ "(" +:+ py_str high +:+ " downto " +:+ py_str low +:+ ")")
               (py_str high) (py_str low) (Port.length_of high low)
               (Port.set_name part0 self))).
Proof.
  intros Hname Hb Hi Hsplit. unfold Port.update_from_name. rewrite Hname.
  apply String.eqb_neq in Hb, Hi. rewrite Hb, Hi, Hsplit. reflexivity.
Qed.

(** C2.  For all integers [H] and [L] (in particular with [H >= L]), decoding
    the name [base(H:L)] with an empty generic list gives the type
    [std_logic_vector(H downto L)], high [H], low [L] and length [H - L + 1],
    and leaves [base] as the name.

    For every name in which the pattern finds a hint other than [b] and
    [integer], over any generic list: the hint splits into a type and two
    bounds, and whenever these evaluate to [high] and [low] the call returns
    with these as its high and low; the length is the string [high-low] when
    one of them is still a string, and [H - L + 1] when both are integers.
    The call returns in no other case, and raises when the evaluation of a
    bound raises.  The bounds are those the code evaluates: a leading type
    letter or type name is not part of them.

    For two bounds written as plain expressions, the first not opening with a
    type letter, these are the bounds as written. *)
Theorem update_from_name_range (self : Port.t) (base : string) :
  plain_name base = true ->
  (forall H L : Z,
     Port.update_from_name
       (Port.set_name (base +:+ "(" +:+ Py.str_of_int H +:+ ":" +:+ Py.str_of_int L +:+ ")") self)
       [] true
     = Return (Port.set_parsed
                 ("std_logic_vector(" +:+ Py.str_of_int H +:+ " downto " +:+ Py.str_of_int L +:+ ")")
                 (Py.str_of_int H) (Py.str_of_int L) (Py.str_of_int (H - L + 1))
                 (Port.set_name base self)))
  /\ (forall (port : Port.t) (generic_list : list Generic.t) (part0 hint : string),
        Re.name_hint (Port.name port) = Some (part0, hint) ->
        hint <> "b" -> hint <> "integer" ->
        exists (vhdl_type : string) (high_str low_str : pyval),
          Port.split_hint hint = Return (vhdl_type, high_str, low_str)
          /\ (forall high low : pyval,
                parse_portsize_part high_str generic_list = Return high ->
                parse_portsize_part low_str generic_list = Return low ->
                exists p,
                  Port.update_from_name port generic_list true = Return p
                  /\ Port.name p = part0
                  /\ Port.vhdl_type p
                     = vhdl_type +:+ "(" +:+ py_str high +:+ " downto " +:+ py_str low +:+ ")"
                  /\ Port.high p = py_str high /\ Port.low p = py_str low
                  /\ (is_str high \/ is_str low ->
                      Port.length p = py_str high +:+ "-" +:+ py_str low)
                  /\ (forall H L : Z, high = PyInt H -> low = PyInt L ->
                      Port.length p = Py.str_of_int (H - L + 1)))
          /\ (forall p, Port.update_from_name port generic_list true = Return p ->
                exists high low,
                  parse_portsize_part high_str generic_list = Return high
                  /\ parse_portsize_part low_str generic_list = Return low)
          /\ (parse_portsize_part high_str generic_list = Raises ->
              Port.update_from_name port generic_list true = Raises)
          /\ (forall high, parse_portsize_part high_str generic_list = Return high ->
              parse_portsize_part low_str generic_list = Raises ->
              Port.update_from_name port generic_list true = Raises))
  /\ (forall (generic_list : list Generic.t) (hs ls : string) (high low : pyval),
        plain_bound hs = true -> plain_bound ls = true -> untyped hs = true ->
        parse_portsize_part (PyStr hs) generic_list = Return high ->
        parse_portsize_part (PyStr ls) generic_list = Return low ->
        is_str high \/ is_str low ->
        exists p,
          Port.update_from_name
            (Port.set_name (base +:+ "(" +:+ hs +:+ ":" +:+ ls +:+ ")") self) generic_list true
          = Return p
          /\ Port.length p = py_str high +:+ "-" +:+ py_str low
          /\ Port.high p = py_str high /\ Port.low p = py_str low).
Proof.
  intros Hb. split; [|split].
  - intros H L.
    destruct (str_of_int_shape H) as (Hp & Hu & _).
    destruct (str_of_int_shape L) as (Lp & _ & _).
    rewrite (update_from_name_plain_range self [] true base _ _ (PyInt H) (PyInt L)
               Hb Hp Lp Hu (parse_portsize_part_numeral H) (parse_portsize_part_numeral L)).
    reflexivity.
  - intros port gl part0 hint Hname Hnb Hni.
    destruct (split_hint_returns hint) as (ty & hs & ls & Hsplit).
    exists ty, hs, ls. split; [exact Hsplit|].
    rewrite (update_from_name_bounds port gl true part0 hint ty hs ls Hname Hnb Hni Hsplit).
    cbn [Port.resolve_bound].
    split; [|split; [|split]].
    + intros high low -> ->. cbn [bind]. eexists. split; [reflexivity|].
      cbn [Port.name Port.vhdl_type Port.high Port.low Port.length Port.set_parsed Port.set_name].
      repeat split.
      * intros Hstr. destruct high, low; cbn [is_str] in Hstr; try reflexivity. tauto.
      * intros H L -> ->. reflexivity.
    + intros p Hp.
      destruct (parse_portsize_part hs gl) as [high| |]; cbn [bind] in Hp; try discriminate.
      destruct (parse_portsize_part ls gl) as [low| |]; cbn [bind] in Hp; try discriminate.
      eauto.
    + intros ->. reflexivity.
    + intros high -> ->. reflexivity.
  - intros gl hs ls high low Hh Hl Hu Hhigh Hlow Hstr.
    eexists. split.
    + exact (update_from_name_plain_range self gl true base hs ls high low
               Hb Hh Hl Hu Hhigh Hlow).
    + cbn [Port.length Port.high Port.low Port.set_parsed].
      split; [|split; reflexivity].
      destruct high, low; cbn [is_str] in Hstr; try reflexivity. tauto.
Qed.

Lemma update_from_name_range_witness :
  Port.update_from_name (named_port "data(7:0)") [] true
  = Return (Port.set_parsed "std_logic_vector(7 downto 0)" "7" "0" "8" (named_port "data"))
  /\ (exists p,
        Port.update_from_name (named_port "data(size-1:0)") [integer_generic "DW" "8"] true
        = Return p
        /\ Port.name p = "data" /\ Port.vhdl_type p = "signed(ize-1 downto 0)"
        /\ Port.high p = "ize-1" /\ Port.low p = "0" /\ Port.length p = "ize-1-0")
  /\ Port.update_from_name (named_port "data(DW - 1:0)") [integer_generic "DW" "8"] true = Raises
  /\ exists p,
       Port.update_from_name (named_port "data(AW-1:0)") [integer_generic "DW" "8"] true = Return p
       /\ Port.length p = "AW-1-0" /\ Port.high p = "AW-1" /\ Port.low p = "0".
Proof.
  destruct (update_from_name_range Port.new "data" eq_refl) as (Hint & Hany & Hsym).
  split; [exact (Hint 7 0)|]. split; [|split].
  - destruct (Hany (named_port "data(size-1:0)") [integer_generic "DW" "8"] "data" "size-1:0"
                eq_refl) as (ty & hs & ls & Hsplit & Hret & _); [discriminate..|].
    injection Hsplit as <- <- <-.
    destruct (Hret (PyStr "ize-1") (PyInt 0) eq_refl eq_refl)
      as (p & Hp & Hn & Hty & Hhi & Hlo & Hlen & _).
    exists p. repeat split; try assumption. apply Hlen. left. exact I.
  - destruct (Hany (named_port "data(DW - 1:0)") [integer_generic "DW" "8"] "data" "DW - 1:0"
                eq_refl) as (ty & hs & ls & Hsplit & _ & _ & Hraises & _); [discriminate..|].
    injection Hsplit as <- <- <-. apply Hraises. reflexivity.
  - exact (Hsym [integer_generic "DW" "8"] "AW-1" "0" (PyStr "AW-1") (PyInt 0)
             eq_refl eq_refl eq_refl eq_refl eq_refl (or_introl I)).
Defined.

(** *** C10 *)

(** C10.  When the hint of the name is exactly [b] or exactly [integer], the
    port keeps its whole name, hint included, and gets the type [boolean]
    (high 0, low 0, length 1), respectively [integer] (high 31, low 0, length
    32).  For any other hint the name is cut down to the text before the
    parenthesis, whenever the call returns; a name without hint is kept. *)
Theorem update_from_name_keeps_hinted_name (self : Port.t) (generic_list : list Generic.t)
    (do_eval : bool) (part0 : string) :
  (Re.name_hint (Port.name self) = Some (part0, "b") ->
   exists p, Port.update_from_name self generic_list do_eval = Return p
     /\ Port.name p = Port.name self /\ Port.vhdl_type p = "boolean"
     /\ Port.high p = "0" /\ Port.low p = "0" /\ Port.length p = "1")
  /\ (Re.name_hint (Port.name self) = Some (part0, "integer") ->
      exists p, Port.update_from_name self generic_list do_eval = Return p
        /\ Port.name p = Port.name self /\ Port.vhdl_type p = "integer"
        /\ Port.high p = "31" /\ Port.low p = "0" /\ Port.length p = "32")
  /\ (forall hint p,
        Re.name_hint (Port.name self) = Some (part0, hint) ->
        hint <> "b" -> hint <> "integer" ->
        Port.update_from_name self generic_list do_eval = Return p ->
        Port.name p = part0)
  /\ (Re.name_hint (Port.name self) = None ->
      exists p, Port.update_from_name self generic_list do_eval = Return p
        /\ Port.name p = Port.name self).
Proof.
  unfold Port.update_from_name. split; [|split; [|split]].
  4: { intros ->. eexists. split; reflexivity. }
  - intros ->. cbn. eexists. split; [reflexivity|]. cbn. auto.
  - intros ->. cbn. eexists. split; [reflexivity|]. cbn. auto.
  - intros hint p -> Hb Hi.
    apply String.eqb_neq in Hb, Hi. rewrite Hb, Hi.
    destruct (Port.split_hint hint) as [[[ty hs] ls]| |]; cbn [bind]; try discriminate.
    destruct (Port.resolve_bound do_eval generic_list hs) as [high| |]; cbn [bind]; try discriminate.
    destruct (Port.resolve_bound do_eval generic_list ls) as [low| |]; cbn [bind]; try discriminate.
    intros [= <-]. reflexivity.
Qed.

Lemma update_from_name_keeps_hinted_name_witness :
  (exists p, Port.update_from_name (named_port "EN(b)") [] true = Return p
     /\ Port.name p = "EN(b)" /\ Port.vhdl_type p = "boolean"
     /\ Port.high p = "0" /\ Port.low p = "0" /\ Port.length p = "1")
  /\ (exists p, Port.update_from_name (named_port "COUNT(integer)") [] true = Return p
        /\ Port.name p = "COUNT(integer)" /\ Port.vhdl_type p = "integer"
        /\ Port.high p = "31" /\ Port.low p = "0" /\ Port.length p = "32")
  /\ (exists p, Port.update_from_name (named_port "d(7:0)") [] true = Return p
        /\ Port.name p = "d")
  /\ (exists p, Port.update_from_name (named_port "clk") [] true = Return p
        /\ Port.name p = "clk").
Proof.
  split; [|split; [|split]].
  4: exact (proj2 (proj2 (proj2 (update_from_name_keeps_hinted_name
                                   (named_port "clk") [] true ""))) eq_refl).
  - exact (proj1 (update_from_name_keeps_hinted_name (named_port "EN(b)") [] true "EN")
             eq_refl).
  - exact (proj1 (proj2 (update_from_name_keeps_hinted_name
                           (named_port "COUNT(integer)") [] true "COUNT")) eq_refl).
  - eexists. split; [reflexivity|].
    refine (proj1 (proj2 (proj2 (update_from_name_keeps_hinted_name
                                   (named_port "d(7:0)") [] true "d")))
              "7:0" _ eq_refl _ _ eq_refl); discriminate.
Defined.

(** *** C7 *)

(** C7 as stated fails: the name [x(0:5)] decodes to the length [-4]. *)
Lemma update_from_name_length_not_positive :
  ~ (forall (self : Port.t) (generic_list : list Generic.t) (p : Port.t) (n : Z),
       Port.update_from_name self generic_list true = Return p ->
       Port.length p = Py.str_of_int n ->
       0 < n).
Proof.
  intros H.
  specialize (H (named_port "x(0:5)") [] _ (-4) eq_refl eq_refl).
  discriminate H.
Qed.

(** C7, as amended.  When [Port.update_from_name] returns, the length is [1] for a
    name without hint or with the hint [b], and [32] for the hint [integer].
    For a range hint whose bounds evaluate to [high] and [low]: when both are
    integers the length is the numeral of [high - low + 1], which is positive
    exactly when [high >= low]; otherwise it is the string [high-low]. *)
Theorem update_from_name_length (self : Port.t) (generic_list : list Generic.t)
    (do_eval : bool) :
  (Re.name_hint (Port.name self) = None ->
   exists p, Port.update_from_name self generic_list do_eval = Return p /\ Port.length p = "1")
  /\ (forall part0, Re.name_hint (Port.name self) = Some (part0, "b") ->
      exists p, Port.update_from_name self generic_list do_eval = Return p /\ Port.length p = "1")
  /\ (forall part0, Re.name_hint (Port.name self) = Some (part0, "integer") ->
      exists p, Port.update_from_name self generic_list do_eval = Return p /\ Port.length p = "32")
  /\ (forall part0 hint ty hs ls high low,
        Re.name_hint (Port.name self) = Some (part0, hint) ->
        hint <> "b" -> hint <> "integer" ->
        Port.split_hint hint = Return (ty, hs, ls) ->
        Port.resolve_bound do_eval generic_list hs = Return high ->
        Port.resolve_bound do_eval generic_list ls = Return low ->
        exists p, Port.update_from_name self generic_list do_eval = Return p
          /\ match high, low with
             | PyInt h, PyInt l =>
                 Port.length p = Py.str_of_int (h - l + 1) /\ (0 < h - l + 1 <-> l <= h)
             | _, _ => Port.length p = py_str high +:+ "-" +:+ py_str low
             end).
Proof.
  unfold Port.update_from_name. repeat split.
  - intros ->. eexists. split; reflexivity.
  - intros part0 ->. eexists. split; reflexivity.
  - intros part0 ->. eexists. split; reflexivity.
  - intros part0 hint ty hs ls high low -> Hb Hi Hsplit Hhigh Hlow.
    apply String.eqb_neq in Hb, Hi. rewrite Hb, Hi, Hsplit. cbn [bind].
    rewrite Hhigh. cbn [bind]. rewrite Hlow. cbn [bind].
    eexists. split; [reflexivity|]. cbn [Port.length Port.set_parsed].
    destruct high, low; cbn [Port.length_of]; try reflexivity.
    split; [reflexivity|lia].
Qed.

Lemma update_from_name_length_witness :
  (exists p, Port.update_from_name (named_port "clk") [] true = Return p /\ Port.length p = "1")
  /\ (exists p, Port.update_from_name (named_port "EN(b)") [] true = Return p /\ Port.length p = "1")
  /\ (exists p, Port.update_from_name (named_port "COUNT(integer)") [] true = Return p
        /\ Port.length p = "32")
  /\ (exists p, Port.update_from_name (named_port "x(0:5)") [] true = Return p
        /\ Port.length p = Py.str_of_int (0 - 5 + 1) /\ (0 < 0 - 5 + 1 <-> 5 <= 0))
  /\ (exists p, Port.update_from_name (named_port "q(uDW-1:LSB)") [integer_generic "DW" "8"] true
                = Return p
        /\ Port.length p = "7-LSB").
Proof.
  pose proof (update_from_name_length (named_port "clk") [] true) as (H1 & _).
  pose proof (update_from_name_length (named_port "EN(b)") [] true) as (_ & H2 & _).
  pose proof (update_from_name_length (named_port "COUNT(integer)") [] true) as (_ & _ & H3 & _).
  pose proof (update_from_name_length (named_port "x(0:5)") [] true) as (_ & _ & _ & H4).
  pose proof (update_from_name_length (named_port "q(uDW-1:LSB)") [integer_generic "DW" "8"] true)
    as (_ & _ & _ & H5).
  split; [|split; [|split; [|split]]].
  - exact (H1 eq_refl).
  - exact (H2 "EN" eq_refl).
  - exact (H3 "COUNT" eq_refl).
  - refine (H4 "x" "0:5" "std_logic_vector" (PyStr "0") (PyStr "5") (PyInt 0) (PyInt 5)
              eq_refl _ _ eq_refl eq_refl eq_refl); discriminate.
  - refine (H5 "q" "uDW-1:LSB" "unsigned" (PyStr "DW-1") (PyStr "LSB") (PyInt 7) (PyStr "LSB")
              eq_refl _ _ eq_refl eq_refl eq_refl); discriminate.
Defined.

(* ------------------------------------------------------------------------- *)
(** ** [align_on_pipe] *)

(** *** The segmenting loop finds the runs *)

Lemma join_run_head l rs : exists r rs', join_run [l] rs = (l :: r) :: rs'.
Proof.
  unfold join_run. destruct rs as [|[|l' r] rs']; eauto.
  destruct (columns l =? columns l')%nat; eauto.
Qed.

Lemma runs_head l lines : exists r rs', runs (l :: lines) = (l :: r) :: rs'.
Proof. apply join_run_head. Qed.

Lemma join_run_snoc c0 c l rs :
  columns c0 = columns l ->
  join_run ((c0 :: c) ++ [l]) rs = join_run (c0 :: c) (join_run [l] rs).
Proof.
  intros Hc. unfold join_run at 1 3. cbn [app].
  destruct rs as [|[|l' r] rs'].
  - cbn [join_run]. rewrite Hc, Nat.eqb_refl. reflexivity.
  - cbn [join_run]. rewrite Hc, Nat.eqb_refl. reflexivity.
  - rewrite Hc. destruct (columns l =? columns l')%nat eqn:E.
    + cbn [join_run]. rewrite Hc, Nat.eqb_refl.
      rewrite <- app_assoc. reflexivity.
    + cbn [join_run]. rewrite Hc, Nat.eqb_refl. reflexivity.
Qed.

Lemma fold_segment_open lines : forall n sg c0 c,
  Forall (fun l => columns l = n) (c0 :: c) ->
  finish (fold_left Align.segment_step lines (Align.mk n sg (c0 :: c)))
  = (sg ++ join_run (c0 :: c) (runs lines))%list.
Proof.
  induction lines as [|l lines IH]; intros n sg c0 c Hc.
  - reflexivity.
  - cbn [fold_left]. unfold Align.segment_step at 2.
    cbn [Align.n_splits Align.cur_seg Align.segs Align.is_empty negb].
    fold (columns l).
    destruct (columns l =? n)%nat eqn:E; cbn [negb Align.n_splits Align.cur_seg Align.segs].
    + apply Nat.eqb_eq in E.
      change ((c0 :: c) ++ [l])%list with (c0 :: (c ++ [l]))%list.
      rewrite IH.
      * change (c0 :: (c ++ [l]))%list with ((c0 :: c) ++ [l])%list.
        rewrite join_run_snoc; [reflexivity|].
        apply Forall_inv in Hc. congruence.
      * change (c0 :: (c ++ [l]))%list with ((c0 :: c) ++ [l])%list.
        apply Forall_app. split; [exact Hc|]. constructor; [exact E|constructor].
    + apply Nat.eqb_neq in E. cbn [app].
      rewrite IH by (constructor; [reflexivity|constructor]).
      rewrite <- app_assoc. cbn [app]. f_equal.
      change (join_run [l] (runs lines)) with (runs (l :: lines)).
      destruct (runs_head l lines) as (r & rs' & ->).
      unfold join_run. apply Forall_inv in Hc.
      destruct (columns c0 =? columns l)%nat eqn:E'; [|reflexivity].
      apply Nat.eqb_eq in E'. congruence.
Qed.

Lemma columns_positive line : columns line <> 0%nat.
Proof.
  unfold columns. pose proof (split_nonempty "|" line).
  destruct (Py.split "|" line); [congruence|discriminate].
Qed.

Lemma segment_runs lines : Align.segment lines = runs lines.
Proof.
  unfold Align.segment. fold (finish (fold_left Align.segment_step lines (Align.mk 0 [] []))).
  destruct lines as [|l lines]; [reflexivity|].
  cbn [fold_left]. unfold Align.segment_step at 2.
  cbn [Align.n_splits Align.cur_seg Align.segs Align.is_empty negb].
  fold (columns l).
  destruct (columns l =? 0)%nat eqn:E.
  - apply Nat.eqb_eq in E. destruct (columns_positive l E).
  - cbn [negb Align.n_splits Align.cur_seg Align.segs app].
    rewrite fold_segment_open by (constructor; [reflexivity|constructor]).
    reflexivity.
Qed.

(** *** The runs *)

Lemma runs_uniform lines : Forall uniform (runs lines).
Proof.
  induction lines as [|l lines IH]; [constructor|].
  cbn [runs]. unfold join_run.
  assert (Hl : uniform [l]) by (constructor; [reflexivity|constructor]).
  destruct (runs lines) as [|[|l' r] rs'].
  - constructor; [exact Hl|constructor].
  - constructor; [exact Hl|exact IH].
  - inversion IH as [|? ? Hrun Hrs]; subst.
    destruct (columns l =? columns l')%nat eqn:E.
    + apply Nat.eqb_eq in E. constructor; [|exact Hrs].
      cbn [app uniform]. constructor; [reflexivity|].
      cbn [uniform] in Hrun. eapply Forall_impl; [exact Hrun|].
      cbn beta. intros x Hx. congruence.
    + constructor; [exact Hl|exact IH].
Qed.

Lemma concat_join_run l rs : concat (join_run [l] rs) = l :: concat rs.
Proof.
  unfold join_run. destruct rs as [|[|l' r] rs']; try reflexivity.
  destruct (columns l =? columns l')%nat; reflexivity.
Qed.

Lemma concat_runs lines : concat (runs lines) = lines.
Proof.
  induction lines as [|l lines IH]; [reflexivity|].
  cbn [runs]. rewrite concat_join_run, IH. reflexivity.
Qed.

Lemma runs_adjacent lines : forall i r1 r2,
  runs lines !! i = Some r1 -> runs lines !! S i = Some r2 ->
  columns (hd "" r1) <> columns (hd "" r2).
Proof.
  induction lines as [|l lines IH]; intros i r1 r2 H1 H2; [discriminate|].
  cbn [runs] in H1, H2. pose proof (runs_uniform lines) as Hu.
  unfold join_run in H1, H2.
  destruct (runs lines) as [|[|l' r] rs'].
  - destruct i; discriminate.
  - apply Forall_inv in Hu. destruct Hu.
  - destruct (columns l =? columns l')%nat eqn:E.
    + apply Nat.eqb_eq in E. destruct i as [|j].
      * injection H1 as <-. cbn [hd app]. rewrite E.
        apply (IH 0%nat (l' :: r) r2); [reflexivity|exact H2].
      * apply (IH (S j) r1 r2); [exact H1|exact H2].
    + apply Nat.eqb_neq in E. destruct i as [|j].
      * injection H1 as <-. injection H2 as <-. exact E.
      * apply (IH j r1 r2); [exact H1|exact H2].
Qed.

(** *** The widths loop finds the column maxima *)

Lemma widen_spec parts : forall pre rest,
  List.length parts = List.length rest ->
  Align.widen parts (List.length pre) (pre ++ rest)%list
  = Return (pre ++ zip_with Nat.max rest (map String.length parts))%list.
Proof.
  induction parts as [|p ps IH]; intros pre rest Hlen.
  - destruct rest; [|discriminate]. reflexivity.
  - destruct rest as [|m ms]; [discriminate|]. injection Hlen as Hlen.
    cbn [Align.widen]. unfold index.
    rewrite (list_lookup_middle pre ms m (List.length pre) eq_refl). cbn [bind].
    assert (Hupd : (if (m <? String.length p)%nat
                    then <[List.length pre:=String.length p]> (pre ++ m :: ms)%list
                    else (pre ++ m :: ms)%list)
                   = ((pre ++ [Nat.max m (String.length p)]) ++ ms)%list).
    { rewrite <- app_assoc. cbn [app].
      destruct (m <? String.length p)%nat eqn:E.
      - apply Nat.ltb_lt in E.
        rewrite insert_app_r_alt by reflexivity. rewrite Nat.sub_diag. cbn.
        rewrite Nat.max_r by lia. reflexivity.
      - apply Nat.ltb_ge in E. rewrite Nat.max_l by lia. reflexivity. }
    rewrite Hupd.
    replace (S (List.length pre)) with (List.length (pre ++ [Nat.max m (String.length p)])%list)
      by (rewrite length_app; cbn; lia).
    rewrite (IH _ ms Hlen). rewrite <- app_assoc. reflexivity.
Qed.

Lemma widened_length max line :
  columns line = List.length max -> List.length (widened max line) = List.length max.
Proof.
  intros H. unfold widened. rewrite length_zip_with_l_eq; [reflexivity|].
  rewrite length_map. symmetry. exact H.
Qed.

Lemma fold_widen seg : forall acc,
  Forall (fun l => columns l = List.length acc) seg ->
  foldM (fun max line => Align.widen (Py.split "|" line) 0 max) seg acc
  = Return (fold_left widened seg acc).
Proof.
  induction seg as [|l seg IH]; intros acc H.
  - reflexivity.
  - inversion H as [|? ? Hl Hseg]; subst. cbn [foldM fold_left].
    pose proof (widen_spec (Py.split "|" l) [] acc Hl) as Hw.
    cbn [app List.length] in Hw. rewrite Hw. cbn [bind].
    apply IH. rewrite widened_length by exact Hl. exact Hseg.
Qed.

Lemma nth_zip_with {A B C} (f : A -> B -> C) (a : list A) (b : list B) i da db dc :
  (i < List.length a)%nat -> (i < List.length b)%nat ->
  nth i (zip_with f a b) dc = f (nth i a da) (nth i b db).
Proof.
  revert b i. induction a as [|x a IH]; intros [|y b] i Ha Hb; cbn in *; try lia.
  destruct i; [reflexivity|]. apply IH; lia.
Qed.

Lemma map_nth_seq (acc : list nat) :
  map (fun i => nth i acc 0%nat) (seq 0 (List.length acc)) = acc.
Proof.
  apply (nth_ext _ _ 0%nat 0%nat).
  - rewrite length_map, length_seq. reflexivity.
  - intros n Hn. rewrite length_map, length_seq in Hn.
    rewrite (nth_indep _ 0%nat (nth 0 acc 0%nat)) by (rewrite length_map, length_seq; exact Hn).
    rewrite (map_nth (fun i => nth i acc 0%nat)), seq_nth by exact Hn. reflexivity.
Qed.

Lemma fold_widened seg : forall acc,
  Forall (fun l => columns l = List.length acc) seg ->
  fold_left widened seg acc
  = map (fun i => Nat.max (nth i acc 0%nat) (max_list (map String.length (column i seg))))
        (seq 0 (List.length acc)).
Proof.
  induction seg as [|l seg IH]; intros acc H.
  - cbn [fold_left column map max_list].
    rewrite <- (map_nth_seq acc) at 1.
    apply map_ext. intros i. rewrite Nat.max_0_r. reflexivity.
  - inversion H as [|? ? Hl Hseg]; subst. cbn [fold_left].
    rewrite IH by (rewrite widened_length by exact Hl; exact Hseg).
    rewrite widened_length by exact Hl.
    apply map_ext_in. intros i Hi. apply in_seq in Hi as [_ Hi]. cbn [plus] in Hi.
    unfold widened.
    rewrite (nth_zip_with _ _ _ i 0%nat 0%nat) by (rewrite ?length_map; unfold columns in Hl; lia).
    change 0%nat with (String.length "") at 2. rewrite map_nth.
    cbn [column map max_list]. rewrite Nat.max_assoc. reflexivity.
Qed.

Lemma column_widths_run l seg :
  Forall (fun l' => columns l' = columns l) (l :: seg) ->
  Align.column_widths (l :: seg) = Return (run_widths (l :: seg)).
Proof.
  intros H. unfold Align.column_widths, index. cbn [lookup list_lookup bind].
  fold (columns l).
  rewrite fold_widen by (rewrite length_replicate; exact H).
  rewrite fold_widened by (rewrite length_replicate; exact H).
  rewrite length_replicate. unfold run_widths. cbn [hd]. f_equal.
  apply map_ext_in. intros i Hi. apply in_seq in Hi as [_ Hi]. cbn [plus] in Hi.
  rewrite nth_lookup, lookup_replicate_2 by exact Hi. reflexivity.
Qed.

Lemma run_widths_length run : List.length (run_widths run) = columns (hd "" run).
Proof. unfold run_widths. rewrite length_map, length_seq. reflexivity. Qed.

Lemma run_widths_nth run i :
  (i < columns (hd "" run))%nat ->
  nth i (run_widths run) 0%nat = max_list (map String.length (column i run)).
Proof.
  intros Hi. unfold run_widths.
  rewrite (nth_indep _ 0%nat ((fun j => max_list (map String.length (column j run))) 0%nat))
    by (rewrite length_map, length_seq; exact Hi).
  rewrite (map_nth (fun j => max_list (map String.length (column j run)))).
  rewrite seq_nth by exact Hi. reflexivity.
Qed.

Lemma max_list_ge n ns : In n ns -> (n <= max_list ns)%nat.
Proof.
  induction ns as [|m ns IH]; intros H; [destruct H|].
  cbn [max_list_with]. unfold id at 1. destruct H as [->|H]; [lia|]. specialize (IH H). lia.
Qed.

(** Every padded column of a run has the run's maximum width for it. *)
Lemma padded_width run line i :
  uniform run -> In line run -> (i < columns line)%nat ->
  String.length (Py.ljust (nth i (Py.split "|" line) "") (nth i (run_widths run) 0%nat))
  = max_list (map String.length (column i run)).
Proof.
  intros Hu Hin Hi. destruct run as [|l seg]; [destruct Hu|]. cbn [uniform] in Hu.
  assert (Hc : columns line = columns l).
  { rewrite Forall_forall in Hu. apply Hu. apply list_elem_of_In. exact Hin. }
  rewrite run_widths_nth by (cbn [hd]; lia).
  rewrite ljust_length. apply Nat.max_r. apply max_list_ge.
  apply in_map. unfold column.
  apply (in_map (fun line0 => nth i (Py.split "|" line0) "")) in Hin. exact Hin.
Qed.

(** *** The padding loop *)

Lemma pad_spec max : forall pre rest acc,
  (List.length max <= List.length rest)%nat ->
  Align.pad (pre ++ rest)%list (List.length pre) max acc
  = Return (acc +:+ String.concat "" (zip_with Py.ljust rest max)).
Proof.
  induction max as [|w ws IH]; intros pre rest acc Hlen.
  - cbn [Align.pad]. rewrite zip_with_nil_r. cbn [String.concat].
    rewrite string_app_nil_r. reflexivity.
  - destruct rest as [|p ps]; [cbn [List.length] in Hlen; lia|]. cbn [List.length] in Hlen.
    cbn [Align.pad]. unfold index.
    rewrite (list_lookup_middle pre ps p (List.length pre) eq_refl). cbn [bind].
    replace (S (List.length pre)) with (List.length (pre ++ [p])%list)
      by (rewrite length_app; cbn; lia).
    replace (pre ++ p :: ps)%list with ((pre ++ [p]) ++ ps)%list
      by (rewrite <- app_assoc; reflexivity).
    rewrite IH by lia. cbn [zip_with].
    rewrite concat_empty_cons, string_app_assoc. reflexivity.
Qed.

Lemma mapM_Return {A B} (f : A -> outcome B) (g : A -> B) l :
  Forall (fun x => f x = Return (g x)) l -> mapM f l = Return (map g l).
Proof.
  induction 1 as [|x l Hx _ IH]; [reflexivity|].
  cbn [mapM map]. rewrite Hx, IH. reflexivity.
Qed.

Lemma align_seg_run out run :
  uniform run -> Align.align_seg out run = Return (out ++ align_run run)%list.
Proof.
  destruct run as [|l seg]; [intros []|]. cbn [uniform]. intros H.
  unfold Align.align_seg. rewrite (column_widths_run l seg H). cbn [bind].
  rewrite (mapM_Return _ (align_line (run_widths (l :: seg)))); [reflexivity|].
  eapply Forall_impl; [exact H|]. cbn beta. intros line Hline.
  pose proof (pad_spec (run_widths (l :: seg)) [] (Py.split "|" line) "") as Hp.
  cbn [app List.length] in Hp. rewrite Hp.
  - reflexivity.
  - rewrite run_widths_length. cbn [hd]. unfold columns in *. lia.
Qed.

Lemma fold_align_seg rs : forall out,
  Forall uniform rs ->
  foldM Align.align_seg rs out = Return (out ++ concat (map align_run rs))%list.
Proof.
  induction rs as [|run rs IH]; intros out H.
  - cbn. rewrite app_nil_r. reflexivity.
  - inversion H as [|? ? Hrun Hrs]; subst. cbn [foldM].
    rewrite (align_seg_run out run Hrun). cbn [bind].
    rewrite (IH _ Hrs). cbn [map concat]. rewrite app_assoc. reflexivity.
Qed.

(** The code computes what the specification describes, and never raises. *)
Lemma align_on_pipe_aligned doc : align_on_pipe doc = Return (aligned doc).
Proof.
  unfold align_on_pipe, aligned. rewrite segment_runs.
  rewrite (fold_align_seg _ [] (runs_uniform _)). reflexivity.
Qed.

(** *** No pipe is left *)

Lemma align_line_no_pipe widths line : Py.has_char "|" (align_line widths line) = false.
Proof.
  unfold align_line. apply concat_no_char; [reflexivity|].
  pose proof (split_parts "|" line) as Hp. revert widths.
  induction Hp as [|p ps Hp _ IH]; intros widths; [constructor|].
  destruct widths as [|w ws]; [constructor|]. cbn [zip_with].
  constructor; [|apply IH].
  unfold Py.ljust. rewrite has_char_app, Hp, spaces_no_char by discriminate. reflexivity.
Qed.

Lemma aligned_no_pipe doc : Py.has_char "|" (aligned doc) = false.
Proof.
  unfold aligned, Py.join. apply concat_no_char; [reflexivity|].
  apply Forall_concat. apply Forall_forall. intros out_lines Hin.
  apply list_elem_of_fmap in Hin as (run & -> & _).
  unfold align_run. apply Forall_forall. intros s Hs.
  apply list_elem_of_fmap in Hs as (line & -> & _).
  apply align_line_no_pipe.
Qed.

(** *** C8 *)

(** C8.  [align_on_pipe] returns the lines of the runs of its input, each run
    aligned; the segments of its first loop are these runs, the input lines
    cut into blocks of one column count
    each, two neighbouring blocks differing in it; and every column of every
    line of a run is padded to the greatest width the column has in the run.
    On the two lines [a|bb|c] and [aaa|b|cc] that is one run with the widths 3,
    2 and 2, and both output lines have columns of these widths. *)
Theorem align_on_pipe_columns :
  (forall doc, align_on_pipe doc
               = Return (Py.join (String Py.LF "")
                           (concat (map align_run (runs (Py.splitlines doc))))))
  /\ (forall lines,
        Align.segment lines = runs lines
        /\ concat (runs lines) = lines
        /\ Forall uniform (runs lines)
        /\ (forall i r1 r2, runs lines !! i = Some r1 -> runs lines !! S i = Some r2 ->
                            columns (hd "" r1) <> columns (hd "" r2)))
  /\ (forall run line i,
        uniform run -> In line run -> (i < columns line)%nat ->
        String.length (Py.ljust (nth i (Py.split "|" line) "") (nth i (run_widths run) 0%nat))
        = max_list (map String.length (column i run)))
  /\ (runs (Py.splitlines two_lines) = [["a|bb|c"; "aaa|b|cc"]]
      /\ run_widths ["a|bb|c"; "aaa|b|cc"] = [3; 2; 2]%nat
      /\ align_on_pipe two_lines = Return ("a  bbc " +:+ String Py.LF "aaab cc")
      /\ map (fun line => map String.length
                            (zip_with Py.ljust (Py.split "|" line)
                                      (run_widths ["a|bb|c"; "aaa|b|cc"])))
             ["a|bb|c"; "aaa|b|cc"]
         = [[3; 2; 2]; [3; 2; 2]]%nat).
Proof.
  split; [|split; [|split]].
  - exact align_on_pipe_aligned.
  - intros lines. split; [apply segment_runs|].
    split; [apply concat_runs|]. split; [apply runs_uniform|].
    apply runs_adjacent.
  - exact padded_width.
  - repeat split.
Qed.

Lemma align_on_pipe_columns_witness :
  String.length (Py.ljust (nth 1 (Py.split "|" "aaa|b|cc") "")
                          (nth 1 (run_widths ["a|bb|c"; "aaa|b|cc"]) 0%nat))
  = max_list (map String.length (column 1 ["a|bb|c"; "aaa|b|cc"])).
Proof.
  apply (proj1 (proj2 (proj2 align_on_pipe_columns))).
  - repeat constructor.
  - right. left. reflexivity.
  - cbn. lia.
Defined.

(** *** C9 *)

(** C9.  For every document [align_on_pipe] returns a text: the lines of the
    input, each rebuilt as its padded columns one after the other, and no
    pipe occurs in it. *)
Theorem align_on_pipe_drops_pipes (doc : string) :
  exists out,
    align_on_pipe doc = Return out
    /\ out = Py.join (String Py.LF "")
               (concat (map (fun run => map (fun line =>
                   String.concat "" (zip_with Py.ljust (Py.split "|" line) (run_widths run))) run)
                 (runs (Py.splitlines doc))))
    /\ Py.has_char "|" out = false.
Proof.
  exists (aligned doc). split; [apply align_on_pipe_aligned|].
  split; [reflexivity|apply aligned_no_pipe].
Qed.

(* ------------------------------------------------------------------------- *)
(** ** The second pass over the components *)

(** *** C5 *)

(** C5 as stated fails on a value that carries a range: the port of the [IN]
    component with the value [d(7:0)] and no [TYPE] property is named [d], not
    [d(7:0)], and its resolved type is the vector, not the single-bit type. *)
Lemma boundary_port_decoded_from_value :
  exists port,
    add_component [] [] nothing_built (sample_comp "J1" "IN" "d(7:0)" [])
    = Return (mk_building [port] {[ "J1" := "d" ]} [])
    /\ Port.name port <> Netlist.Comp.value (sample_comp "J1" "IN" "d(7:0)" [])
    /\ Port.typestr port = "std_logic"
    /\ Port.vhdl_type port = "std_logic_vector(7 downto 0)"
    /\ Port.vhdl_type port <> "std_logic".
Proof.
  eexists. split; [reflexivity|]. repeat split; discriminate.
Qed.

(** C5, as amended.  A component whose library part is [IN], [OUT] or [INOUT]
    creates no instance and appends one port: its direction is the part name
    in lower case, its type hint [typestr] is the [TYPE] property or
    [std_logic] without one, and its name and resolved type are decoded from
    the value of the component: without hint the name is the value and the
    type [std_logic]; with the hint [b] or [integer] the name is the value and
    the type [boolean] or [integer]; with any other hint the name is the text
    before the parenthesis and the type is the type of the hint with its
    range, the bounds as written.  The name is registered for the reference
    of the component. *)
Theorem boundary_component_becomes_port (generic_list : list Generic.t)
    (component_list : list Component.t) (st : building) (comp : Netlist.Comp.t) :
  one_of (Netlist.Libsource.part (Netlist.Comp.libsource comp)) ["IN"; "OUT"; "INOUT"] = true ->
  exists port,
    add_component generic_list component_list st comp
    = Return (mk_building (port_list st ++ [port])%list
                          (<[Netlist.Comp.ref comp := Port.name port]> (direct_connects st))
                          (instance_list st))
    /\ Port.dirstr port = Py.lower (Netlist.Libsource.part (Netlist.Comp.libsource comp))
    /\ one_of (Port.dirstr port) ["in"; "out"; "inout"] = true
    /\ Port.typestr port = find_property (Netlist.Comp.properties comp) "TYPE" "std_logic"
    /\ match Re.name_hint (Netlist.Comp.value comp) with
       | None =>
           Port.name port = Netlist.Comp.value comp /\ Port.vhdl_type port = "std_logic"
       | Some (part0, hint) =>
           if hint =? "b" then
             Port.name port = Netlist.Comp.value comp /\ Port.vhdl_type port = "boolean"
           else if hint =? "integer" then
             Port.name port = Netlist.Comp.value comp /\ Port.vhdl_type port = "integer"
           else
             Port.name port = part0
             /\ exists ty high low,
                  Port.split_hint hint = Return (ty, high, low)
                  /\ Port.vhdl_type port
                     = ty +:+ "(" +:+ py_str high +:+ " downto " +:+ py_str low +:+ ")"
       end.
Proof.
  intros Hpart. unfold add_component. rewrite Hpart.
  assert (Hdir : one_of (Py.lower (Netlist.Libsource.part (Netlist.Comp.libsource comp)))
                        ["in"; "out"; "inout"] = true).
  { unfold one_of in *. cbn [existsb] in *.
    repeat (apply orb_true_iff in Hpart as [Hpart|Hpart]); try discriminate;
      apply String.eqb_eq in Hpart; rewrite Hpart; reflexivity. }
  unfold Port.update_from_name. cbn [Port.name Port.set_name Port.set_dirstr Port.set_typestr].
  destruct (Re.name_hint (Netlist.Comp.value comp)) as [[part0 hint]|].
  2: { eexists. split; [reflexivity|]. cbn. auto. }
  destruct (hint =? "b"). 1: { eexists. split; [reflexivity|]. cbn. auto. }
  destruct (hint =? "integer"). 1: { eexists. split; [reflexivity|]. cbn. auto. }
  destruct (split_hint_returns hint) as (ty & hs & ls & Hsplit).
  rewrite Hsplit. cbn [bind Port.resolve_bound].
  eexists. split; [reflexivity|]. cbn. repeat split; eauto.
Qed.

Lemma boundary_component_becomes_port_witness :
  exists port,
    add_component [] [] nothing_built
      (sample_comp "J2" "INOUT" "sda" [Netlist.CompProperty.mk "TYPE" "std_logic"])
    = Return (mk_building ([] ++ [port])%list (<["J2" := Port.name port]> ∅) [])
    /\ Port.dirstr port = Py.lower "INOUT"
    /\ one_of (Port.dirstr port) ["in"; "out"; "inout"] = true
    /\ Port.typestr port = "std_logic"
    /\ Port.name port = "sda" /\ Port.vhdl_type port = "std_logic".
Proof.
  exact (boundary_component_becomes_port [] [] nothing_built
           (sample_comp "J2" "INOUT" "sda" [Netlist.CompProperty.mk "TYPE" "std_logic"])
           eq_refl).
Defined.

(* ------------------------------------------------------------------------- *)
(** ** The pass over the nets *)

(** *** An unconnected net *)

Lemma tie_off_port_tied node port :
  tie_off_port node port =
  if Port.num port =? Netlist.Node.pin node
  then Port.set_target (tied_target port) port else port.
Proof.
  unfold tie_off_port, tied_target.
  destruct (Port.num port =? Netlist.Node.pin node); [|reflexivity].
  destruct (Port.dirstr port =? "in"); [|reflexivity].
  destruct (Port.vhdl_type port =? "boolean"); [reflexivity|].
  destruct (Port.vhdl_type port =? "std_logic"); reflexivity.
Qed.

Lemma set_ports_same c : Component.set_ports (Component.ports c) c = c.
Proof. destruct c; reflexivity. Qed.

Lemma tie_off_pointwise nodes : forall insts,
  tie_off insts nodes
  = map (fun c => Component.set_ports
                    (map (port_after nodes (Component.instance_name c)) (Component.ports c)) c)
        insts.
Proof.
  unfold tie_off. induction nodes as [|node nodes IH]; intros insts.
  - cbn [fold_left]. rewrite <- (map_id insts) at 1. apply map_ext. intros c.
    unfold port_after. cbn [fold_left]. rewrite map_id, set_ports_same. reflexivity.
  - cbn [fold_left]. rewrite IH, map_map. apply map_ext. intros c.
    unfold tie_off_component, port_after. cbn [fold_left].
    destruct (Component.instance_name c =? Netlist.Node.ref node).
    + cbn [Component.set_ports Component.instance_name Component.ports Component.name
           Component.properties Component.component].
      rewrite map_map. reflexivity.
    + reflexivity.
Qed.

Lemma port_after_tied nodes iname : forall port,
  port_after nodes iname port =
  if named_by nodes iname port then Port.set_target (tied_target port) port else port.
Proof.
  unfold port_after, named_by.
  induction nodes as [|node nodes IH]; intros port; [reflexivity|].
  cbn [fold_left existsb]. rewrite IH.
  destruct (iname =? Netlist.Node.ref node); cbn [andb orb]; [|reflexivity].
  rewrite tie_off_port_tied.
  destruct (Port.num port =? Netlist.Node.pin node); cbn [orb]; [|reflexivity].
  destruct (existsb _ nodes); reflexivity.
Qed.

(** *** C4 *)

(** C4.  A net whose name begins with [unconnected] adds no signal, and
    leaves every instance and port in place.  A port is reached when some
    node of the net names its instance and its pin number.  A reached port of
    direction [in] gets the target [false] when its type is [boolean], ['0']
    when it is [std_logic] and [(others => '0')] otherwise; a reached port of
    any other direction, [out] and [inout] among them, gets [open].  Nothing
    else changes, and a port that is not reached is left as it is. *)
Theorem unconnected_net_ties_off (direct_connects : gmap string string) (st : wiring)
    (net : Netlist.Net.t) :
  Py.startswith (Netlist.Net.name net) "unconnected" = true ->
  signal_list (process_net direct_connects st net) = signal_list st
  /\ printed (process_net direct_connects st net) = printed st
  /\ List.length (instances (process_net direct_connects st net)) = List.length (instances st)
  /\ forall ci component pj port,
       instances st !! ci = Some component ->
       Component.ports component !! pj = Some port ->
       exists component' port',
         instances (process_net direct_connects st net) !! ci = Some component'
         /\ Component.instance_name component' = Component.instance_name component
         /\ List.length (Component.ports component') = List.length (Component.ports component)
         /\ Component.ports component' !! pj = Some port'
         /\ (named_by (Netlist.Net.nodes net) (Component.instance_name component) port = false ->
             port' = port)
         /\ (named_by (Netlist.Net.nodes net) (Component.instance_name component) port = true ->
             port' = Port.set_target (Port.target port') port
             /\ (Port.dirstr port = "in" -> Port.vhdl_type port = "boolean" ->
                 Port.target port' = "false")
             /\ (Port.dirstr port = "in" -> Port.vhdl_type port = "std_logic" ->
                 Port.target port' = "'0'")
             /\ (Port.dirstr port = "in" -> Port.vhdl_type port <> "boolean" ->
                 Port.vhdl_type port <> "std_logic" ->
                 Port.target port' = "(others => '0')")
             /\ (Port.dirstr port = "out" \/ Port.dirstr port = "inout"
                 \/ Port.dirstr port <> "in" ->
                 Port.target port' = "open")).
Proof.
  intros Hun. unfold process_net. rewrite Hun.
  cbn [signal_list printed instances]. rewrite tie_off_pointwise.
  split; [reflexivity|]. split; [reflexivity|]. split; [apply length_map|].
  intros ci component pj port Hc Hp.
  eexists _, _. rewrite list_lookup_fmap, Hc. cbn [fmap option_fmap option_map].
  split; [reflexivity|].
  cbn [Component.set_ports Component.instance_name Component.ports].
  split; [reflexivity|]. split; [apply length_map|].
  rewrite list_lookup_fmap, Hp. cbn [fmap option_fmap option_map].
  split; [reflexivity|]. rewrite port_after_tied.
  split; intros ->; [reflexivity|].
  cbn [Port.target Port.set_target]. split; [reflexivity|]. unfold tied_target.
  repeat split.
  - intros -> ->. reflexivity.
  - intros -> ->. reflexivity.
  - intros -> Hb Hs. apply String.eqb_neq in Hb, Hs. rewrite Hb, Hs. reflexivity.
  - intros Hd. assert (Hin : Port.dirstr port <> "in").
    { destruct Hd as [H|[H|H]]; [rewrite H; discriminate|rewrite H; discriminate|exact H]. }
    apply String.eqb_neq in Hin. rewrite Hin. reflexivity.
Qed.

Lemma unconnected_net_ties_off_witness :
  signal_list (process_net ∅ sample_wiring
                 (Netlist.Net.mk "7" "unconnected-(U1-Pad1)" [sample_node "U1" "1"]))
  = []
  /\ exists component' port',
       instances (process_net ∅ sample_wiring
                    (Netlist.Net.mk "7" "unconnected-(U1-Pad1)" [sample_node "U1" "1"])) !! 0%nat
       = Some component'
       /\ Component.ports component' !! 0%nat = Some port'
       /\ Port.target port' = "false".
Proof.
  destruct (unconnected_net_ties_off ∅ sample_wiring
              (Netlist.Net.mk "7" "unconnected-(U1-Pad1)" [sample_node "U1" "1"]) eq_refl)
    as (Hsig & _ & _ & Hports).
  split; [exact Hsig|].
  destruct (Hports 0%nat sample_instance 0%nat (sample_port "EN(b)" "in" "1" "boolean")
              eq_refl eq_refl)
    as (component' & port' & Hc & _ & _ & Hp & _ & Hhit).
  exists component', port'. split; [exact Hc|]. split; [exact Hp|].
  destruct (Hhit eq_refl) as (_ & Hbool & _). exact (Hbool eq_refl eq_refl).
Defined.

(** *** Linking the ports of a net *)

Section Linking.

Variables (name ref pin : string).

Lemma link_ports_spec ci : forall ports pj found,
  map Port.num (fst (link_ports name pin ci pj ports found)) = map Port.num ports
  /\ (snd (link_ports name pin ci pj ports found) = None
      <-> found = None /\ existsb (fun num => num =? pin) (map Port.num ports) = false).
Proof.
  induction ports as [|port rest IH]; intros pj found.
  - cbn. split; [reflexivity|]. tauto.
  - cbn [link_ports map existsb].
    destruct (Port.num port =? pin) eqn:E.
    + specialize (IH (S pj) (Some (ci, pj))).
      destruct (link_ports name pin ci (S pj) rest (Some (ci, pj))) as [rest' found'].
      cbn [fst snd] in *. destruct IH as [IH1 IH2].
      split; [cbn [map Port.num Port.set_target]; f_equal; exact IH1|].
      cbn [orb]. split.
      * intros H. apply IH2 in H as [H _]. discriminate.
      * intros [_ H]. discriminate.
    + specialize (IH (S pj) found).
      destruct (link_ports name pin ci (S pj) rest found) as [rest' found'].
      cbn [fst snd] in *. destruct IH as [IH1 IH2].
      split; [cbn [map]; f_equal; exact IH1|].
      cbn [orb]. exact IH2.
Qed.

Lemma link_components_spec : forall insts ci found,
  pins (fst (link_components name ref pin ci insts found)) = pins insts
  /\ (snd (link_components name ref pin ci insts found) = None
      <-> found = None /\ resolves insts ref pin = false).
Proof.
  unfold resolves.
  induction insts as [|c rest IH]; intros ci found.
  - cbn. split; [reflexivity|]. tauto.
  - cbn [link_components pins map existsb fst snd].
    destruct (Component.instance_name c =? ref) eqn:E.
    + pose proof (link_ports_spec ci (Component.ports c) 0%nat found) as [Hp1 Hp2].
      destruct (link_ports name pin ci 0 (Component.ports c) found) as [ports' found1].
      cbn [fst snd] in Hp1, Hp2.
      specialize (IH (S ci) found1).
      destruct (link_components name ref pin (S ci) rest found1) as [rest' found'].
      cbn [fst snd] in *. destruct IH as [IH1 IH2].
      split.
      * cbn [pins map Component.set_ports Component.instance_name Component.ports].
        fold (pins rest'). fold (pins rest). rewrite Hp1, IH1. reflexivity.
      * cbn [andb]. rewrite IH2, Hp2. rewrite orb_false_iff. fold (pins rest). tauto.
    + specialize (IH (S ci) found).
      destruct (link_components name ref pin (S ci) rest found) as [rest' found'].
      cbn [fst snd] in *. destruct IH as [IH1 IH2].
      split.
      * cbn [pins map]. fold (pins rest'). fold (pins rest). rewrite IH1. reflexivity.
      * cbn [andb orb]. fold (pins rest). exact IH2.
Qed.

End Linking.

Lemma resolves_pins a b ref pin : pins a = pins b -> resolves a ref pin = resolves b ref pin.
Proof. unfold resolves. intros ->. reflexivity. Qed.

(** The loop over the nodes appends one connection per node, in order. *)
Lemma link_nodes_spec name nodes : forall insts conns,
  exists insts' new,
    fold_left (link_node name) nodes (insts, conns) = (insts', (conns ++ new)%list)
    /\ pins insts' = pins insts
    /\ Forall2 (records insts) new nodes.
Proof.
  induction nodes as [|node nodes IH]; intros insts conns.
  - exists insts, []. cbn. rewrite app_nil_r. repeat split. constructor.
  - cbn [fold_left]. unfold link_node at 2.
    pose proof (link_components_spec name (Netlist.Node.ref node) (Netlist.Node.pin node)
                  insts 0%nat None) as [Hpins Hfound].
    destruct (link_components name (Netlist.Node.ref node) (Netlist.Node.pin node)
                0 insts None) as [insts1 found].
    cbn [fst snd] in Hpins, Hfound.
    destruct (IH insts1 (conns ++ [Connection.mk (Netlist.Node.ref node)
                                     (Netlist.Node.pin node) found])%list)
      as (insts' & new & Hfold & Hpins' & Hrec).
    exists insts', (Connection.mk (Netlist.Node.ref node) (Netlist.Node.pin node) found :: new).
    split; [|split].
    + rewrite Hfold, <- app_assoc. reflexivity.
    + rewrite Hpins'. exact Hpins.
    + constructor.
      * unfold records. cbn [Connection.ref Connection.pin Connection.port].
        split; [reflexivity|]. split; [reflexivity|]. rewrite Hfound. tauto.
      * eapply Forall2_impl; [exact Hrec|]. unfold records. intros c n (H1 & H2 & H3).
        split; [exact H1|]. split; [exact H2|].
        rewrite <- (resolves_pins _ _ _ _ Hpins). exact H3.
Qed.

Lemma direct_name_none dc nodes :
  (forall node, In node nodes -> dc !! Netlist.Node.ref node = None) ->
  direct_name dc nodes = None.
Proof.
  induction nodes as [|node nodes IH]; intros H; [reflexivity|].
  cbn [direct_name]. rewrite (H node (or_introl eq_refl)).
  apply IH. intros n Hn. apply H. right. exact Hn.
Qed.

(** *** C3 *)

(** C3.  A net whose name does not begin with [unconnected] and none of whose
    nodes has a reference in the direct-connect table appends exactly one
    signal, named after the net and carrying its code.  Its connections are
    as many as the nodes of the net and follow them in order: each has the
    reference and the pin of its node, and a port exactly when some port of
    some instance has that reference and pin number; a node that resolves to
    none still has its connection. *)
Theorem net_becomes_one_signal (direct_connects : gmap string string) (st : wiring)
    (net : Netlist.Net.t) :
  Py.startswith (Netlist.Net.name net) "unconnected" = false ->
  (forall node, In node (Netlist.Net.nodes net) ->
                direct_connects !! Netlist.Node.ref node = None) ->
  exists signal,
    signal_list (process_net direct_connects st net) = (signal_list st ++ [signal])%list
    /\ Signal.name signal = signal_name (Netlist.Net.name net)
    /\ Signal.code signal = Netlist.Net.code net
    /\ List.length (Signal.connections signal) = List.length (Netlist.Net.nodes net)
    /\ Forall2 (records (instances st)) (Signal.connections signal) (Netlist.Net.nodes net).
Proof.
  intros Hun Hdc. unfold process_net. rewrite Hun, (direct_name_none _ _ Hdc).
  destruct (link_nodes_spec (signal_name (Netlist.Net.name net)) (Netlist.Net.nodes net)
              (instances st) []) as (insts' & new & Hfold & _ & Hrec).
  rewrite Hfold. cbn [app].
  destruct (fold_left (resolve_type insts' (signal_name (Netlist.Net.name net))) new
              ("", printed st)) as [vhdl_type out].
  cbn [negb signal_list]. eexists. split; [reflexivity|].
  cbn [Signal.name Signal.code Signal.connections].
  split; [reflexivity|]. split; [reflexivity|].
  split; [exact (Forall2_length _ _ _ Hrec)|exact Hrec].
Qed.

Lemma net_becomes_one_signal_witness :
  exists signal,
    signal_list (process_net {[ "P1" := "DW" ]} sample_wiring
                   (Netlist.Net.mk "3" "/top/sum(8:0)"
                      [sample_node "U1" "3"; sample_node "U9" "1"]))
    = ([] ++ [signal])%list
    /\ Signal.name signal = signal_name "/top/sum(8:0)"
    /\ Signal.code signal = "3"
    /\ List.length (Signal.connections signal) = 2%nat
    /\ Forall2 (records [sample_instance]) (Signal.connections signal)
               [sample_node "U1" "3"; sample_node "U9" "1"].
Proof.
  apply (net_becomes_one_signal {[ "P1" := "DW" ]} sample_wiring
           (Netlist.Net.mk "3" "/top/sum(8:0)" [sample_node "U1" "3"; sample_node "U9" "1"])).
  - reflexivity.
  - intros node [<-|[<-|[]]]; reflexivity.
Defined.
(* ========================================================================= *)
(** * Further properties of the program *)

(* ------------------------------------------------------------------------- *)
(** ** [parse_portsize_part]: generics, literals and arithmetic *)

Lemma substitute_loop_filter gl : forall s,
  substitute_loop s gl = substitute_loop s (List.filter integer_typed gl).
Proof.
  induction gl as [|g gl IH]; intros s; [reflexivity|].
  cbn [List.filter]. unfold integer_typed at 1.
  cbn [substitute_loop].
  destruct (Generic.typestr g =? "integer") eqn:E; cbn [negb].
  - cbn [substitute_loop]. rewrite E. cbn [negb].
    destruct (Py.contains (Generic.name g) s); [|apply IH].
    destruct (Py.int_of_str (Generic.value g)); [apply IH|reflexivity].
  - apply IH.
Qed.

(** X1.  Only the generics whose type is [integer] count: [parse_portsize_part]
    gives the same result on a list of generics and on that list with every
    generic of another type left out, whatever the bound it is given. *)
Theorem parse_portsize_part_integer_generics (size_part : pyval) (generic_list : list Generic.t) :
  parse_portsize_part size_part generic_list
  = parse_portsize_part size_part (List.filter integer_typed generic_list).
Proof.
  destruct size_part as [z|s]; [reflexivity|].
  cbn [parse_portsize_part]. rewrite <- substitute_loop_filter. reflexivity.
Qed.

Lemma digit_cases c :
  Py.is_digit c = true ->
  In c ["0"; "1"; "2"; "3"; "4"; "5"; "6"; "7"; "8"; "9"]%char.
Proof.
  destruct c as [[] [] [] [] [] [] [] []]; intros H; try discriminate H; cbn; tauto.
Qed.

Lemma uint_of_string_digits s :
  all_digits s = true -> exists u, NilEmpty.uint_of_string s = Some u.
Proof.
  induction s as [|c t IH]; intros H; [eexists; reflexivity|].
  cbn [all_digits] in H. apply andb_true_iff in H as [Hc Ht].
  destruct (IH Ht) as [u Hu]. cbn [NilEmpty.uint_of_string]. rewrite Hu.
  apply digit_cases in Hc. cbn [In] in Hc.
  repeat (destruct Hc as [<-|Hc]; [eexists; reflexivity|]). contradiction.
Qed.

Lemma digit_not_space c : Py.is_digit c = true -> Py.is_space c = false.
Proof.
  intros H. apply digit_cases in H. cbn [In] in H.
  repeat (destruct H as [<-|H]; [reflexivity|]). contradiction.
Qed.

Lemma lstrip_digits c t : Py.is_digit c = true -> Py.lstrip (String c t) = String c t.
Proof. intros H. cbn [Py.lstrip]. rewrite (digit_not_space _ H). reflexivity. Qed.

Lemma rstrip_digits s : all_digits s = true -> Py.rstrip s = s.
Proof.
  induction s as [|c t IH]; intros H; [reflexivity|].
  cbn [all_digits] in H. apply andb_true_iff in H as [Hc Ht].
  cbn [Py.rstrip]. rewrite (IH Ht). rewrite (digit_not_space _ Hc).
  destruct t; reflexivity.
Qed.

Lemma digits_ok_digits s : all_digits s = true -> Py.digits_ok true s = true.
Proof.
  induction s as [|c t IH]; intros H; [reflexivity|].
  cbn [all_digits] in H. apply andb_true_iff in H as [Hc Ht].
  cbn [Py.digits_ok]. rewrite Hc. exact (IH Ht).
Qed.

Lemma only_digits_digits s : all_digits s = true -> Py.only_digits s = s.
Proof.
  induction s as [|c t IH]; intros H; [reflexivity|].
  cbn [all_digits] in H. apply andb_true_iff in H as [Hc Ht].
  cbn [Py.only_digits]. rewrite Hc, (IH Ht). reflexivity.
Qed.

(** [int(s)] on a non-empty string of digits. *)
Lemma int_of_str_digits c t :
  all_digits (String c t) = true ->
  Py.int_of_str (String c t) = option_map Z.of_uint (NilEmpty.uint_of_string (String c t)).
Proof.
  intros H. pose proof H as H'. cbn [all_digits] in H'. apply andb_true_iff in H' as [Hc Ht].
  unfold Py.int_of_str. rewrite (rstrip_digits _ H), (lstrip_digits _ _ Hc).
  assert (Hv : Py.digits_value (String c t)
               = option_map Z.of_uint (NilEmpty.uint_of_string (String c t))).
  { unfold Py.digits_value. cbn [Py.digits_ok]. rewrite Hc, (digits_ok_digits _ Ht).
    rewrite (only_digits_digits _ H). reflexivity. }
  apply digit_cases in Hc. cbn [In] in Hc.
  repeat (destruct Hc as [<-|Hc]; [exact Hv|]). contradiction.
Qed.

Lemma all_zeros_value t : forall u,
  Eval.all_zeros t = true -> NilEmpty.uint_of_string t = Some u -> Z.of_uint u = 0.
Proof.
  induction t as [|c t IH]; intros u Hz Hu.
  - injection Hu as <-. reflexivity.
  - cbn [Eval.all_zeros] in Hz. apply andb_true_iff in Hz as [Hc Hz].
    apply Ascii.eqb_eq in Hc. subst c.
    cbn [NilEmpty.uint_of_string] in Hu.
    destruct (NilEmpty.uint_of_string t) as [u'|]; [|discriminate].
    cbn in Hu. injection Hu as <-.
    specialize (IH u' Hz eq_refl). exact IH.
Qed.

Lemma int_eval_number n : 
  (let* v := (let* e := Eval.parse_expr [Eval.TNum n] in Eval.eval_expr e) in Eval.int_of_value v)
  = Return n.
Proof. reflexivity. Qed.

(** X2.  On a bound written in decimal digits only, with no generics: the
    empty bound raises; otherwise [int] of the text is defined, and the bound
    evaluates to that integer unless it has a leading zero and is not all
    zeros, in which case the evaluation raises. *)
Theorem parse_portsize_part_literal (digits : string) :
  all_digits digits = true ->
  match digits with
  | EmptyString => parse_portsize_part (PyStr digits) [] = Raises
  | String c t =>
      exists n,
        Py.int_of_str digits = Some n
        /\ parse_portsize_part (PyStr digits) []
           = if negb (Ascii.eqb c "0") || Eval.all_zeros t then Return (PyInt n) else Raises
  end.
Proof.
  intros H. destruct digits as [|c t]; [reflexivity|].
  destruct (uint_of_string_digits _ H) as [u Hu].
  exists (Z.of_uint u). rewrite (int_of_str_digits _ _ H), Hu. split; [reflexivity|].
  cbn [parse_portsize_part substitute_loop]. rewrite (digits_arith _ H).
  unfold Eval.int_eval, Eval.eval, Eval.tokenize.
  rewrite (tokenize_from_digits _ _ H). change ("" +:+ String c t) with (String c t).
  cbn [Eval.flush].
  destruct (Ascii.eqb_spec c "0") as [->|Hc]; cbn [negb orb].
  - unfold Eval.number_token.
    destruct (Eval.all_zeros t) eqn:Hz; [|reflexivity].
    cbn [bind]. rewrite int_eval_number.
    rewrite (all_zeros_value (String "0" t) u); [reflexivity| |exact Hu].
    cbn [Eval.all_zeros]. rewrite Hz. reflexivity.
  - assert (Hn : Eval.number_token (String c t) = Return (Eval.TNum (Z.of_uint u))).
    { unfold Eval.number_token. rewrite Hu.
      cbn [all_digits] in H. apply andb_true_iff in H as [Hd _].
      apply digit_cases in Hd. cbn [In] in Hd.
      repeat (destruct Hd as [<-|Hd]; [try congruence; reflexivity|]). contradiction. }
    rewrite Hn. cbn [bind]. rewrite int_eval_number. reflexivity.
Qed.

Lemma parse_portsize_part_literal_witness :
  exists n,
    Py.int_of_str "007" = Some n
    /\ parse_portsize_part (PyStr "007") []
       = if negb (Ascii.eqb "0" "0") || Eval.all_zeros "07" then Return (PyInt n) else Raises.
Proof. exact (parse_portsize_part_literal "007" eq_refl). Defined.

Lemma has_non_arith_app (a b : string) :
  Re.has_non_arith (a +:+ b) = Re.has_non_arith a || Re.has_non_arith b.
Proof.
  induction a as [|c a IH]; [reflexivity|].
  rewrite string_app_cons. cbn [Re.has_non_arith]. rewrite IH. apply orb_assoc.
Qed.

Lemma tokenize_from_digits_app ds : forall pending rest,
  all_digits ds = true ->
  Eval.tokenize_from pending (ds +:+ rest) = Eval.tokenize_from (pending +:+ ds) rest.
Proof.
  induction ds as [|c t IH]; intros pending rest H.
  - rewrite string_app_nil_r. reflexivity.
  - cbn [all_digits] in H. apply andb_true_iff in H as [Hc Ht].
    rewrite string_app_cons. cbn [Eval.tokenize_from]. rewrite Hc, (IH _ _ Ht).
    rewrite string_app_assoc. reflexivity.
Qed.

Lemma flush_to_uint p rest :
  Eval.flush (NilEmpty.string_of_uint (Pos.to_uint p)) rest
  = let* ts := rest in Return (Eval.TNum (Zpos p) :: ts).
Proof.
  unfold Eval.flush. rewrite number_token_to_uint.
  pose proof (DecimalPos.Unsigned.to_uint_nonnil p).
  destruct (Pos.to_uint p); [congruence|reflexivity..].
Qed.

(** The tokens of [str(z)]. *)
Lemma tokenize_str_of_int z (rest : string) ts :
  (forall pending, Eval.tokenize_from pending rest = Eval.flush pending (Return ts)) ->
  Eval.tokenize (Py.str_of_int z +:+ rest) = Return (literal z ++ ts)%list.
Proof.
  intros Hrest. unfold Eval.tokenize. destruct z as [|p|p].
  - change (Py.str_of_int 0) with "0". 
    rewrite (tokenize_from_digits_app "0" "" rest eq_refl), Hrest. reflexivity.
  - rewrite str_of_int_pos.
    rewrite tokenize_from_digits_app by apply string_of_uint_digits.
    rewrite Hrest. change ("" +:+ ?s) with s. rewrite flush_to_uint. reflexivity.
  - rewrite str_of_int_neg. rewrite string_app_cons.
    cbn [Eval.tokenize_from]. change (Py.is_digit "-") with false. cbn [Eval.flush].
    rewrite tokenize_from_digits_app by apply string_of_uint_digits.
    rewrite Hrest. change ("" +:+ ?s) with s. rewrite flush_to_uint. reflexivity.
Qed.


Lemma tokenize_two (a b : Z) (op : string) tok :
  (forall pending,
     Eval.tokenize_from pending (op +:+ Py.str_of_int b)
     = Eval.flush pending (let* ts := Eval.tokenize (Py.str_of_int b) in Return (tok :: ts))) ->
  Eval.tokenize (Py.str_of_int a +:+ op +:+ Py.str_of_int b)
  = Return (literal a ++ tok :: literal b)%list.
Proof.
  intros Hop.
  assert (Hb : Eval.tokenize (Py.str_of_int b) = Return (literal b)).
  { rewrite <- (string_app_nil_r (Py.str_of_int b)).
    rewrite (tokenize_str_of_int b "" []); [rewrite app_nil_r; reflexivity|].
    intros pending. reflexivity. }
  apply tokenize_str_of_int. intros pending. rewrite (Hop pending), Hb. reflexivity.
Qed.

Lemma str_of_int_first z :
  exists c t, Py.str_of_int z = String c t /\ (Py.is_digit c = true \/ c = "-"%char).
Proof.
  destruct z as [|p|p].
  - exists "0"%char, "". split; [reflexivity|left; reflexivity].
  - rewrite str_of_int_pos.
    pose proof (string_of_uint_digits (Pos.to_uint p)) as Hd.
    pose proof (DecimalPos.Unsigned.to_uint_nonnil p) as Hn.
    destruct (NilEmpty.string_of_uint (Pos.to_uint p)) as [|c t] eqn:E.
    + destruct (Pos.to_uint p); try congruence; discriminate E.
    + exists c, t. split; [reflexivity|].
      cbn [all_digits] in Hd. apply andb_true_iff in Hd as [Hc _]. left. exact Hc.
  - rewrite str_of_int_neg. eexists _, _. split; [reflexivity|right; reflexivity].
Qed.

Lemma two_literals (a b : Z) :
  parse_portsize_part (PyStr (Py.str_of_int a +:+ "+" +:+ Py.str_of_int b)) []
  = Return (PyInt (a + b))
  /\ parse_portsize_part (PyStr (Py.str_of_int a +:+ "-" +:+ Py.str_of_int b)) []
     = Return (PyInt (a - b))
  /\ parse_portsize_part (PyStr (Py.str_of_int a +:+ "*" +:+ Py.str_of_int b)) []
     = Return (PyInt (a * b)).
Proof.
  assert (Harith : forall op : string, Re.has_non_arith op = false ->
            Re.has_non_arith (Py.str_of_int a +:+ op +:+ Py.str_of_int b) = false).
  { intros op Hop. rewrite !has_non_arith_app, Hop.
    destruct (str_of_int_shape a) as (_ & _ & ->).
    destruct (str_of_int_shape b) as (_ & _ & ->). reflexivity. }
  assert (Hrun : forall (op : string) tok z,
            Re.has_non_arith op = false ->
            Eval.tokenize (Py.str_of_int a +:+ op +:+ Py.str_of_int b)
            = Return (literal a ++ tok :: literal b)%list ->
            (let* v := (let* e := Eval.parse_expr (literal a ++ tok :: literal b)%list in
                        Eval.eval_expr e) in Eval.int_of_value v) = Return z ->
            parse_portsize_part (PyStr (Py.str_of_int a +:+ op +:+ Py.str_of_int b)) []
            = Return (PyInt z)).
  { intros op tok z Hop Htok Hval. cbn [parse_portsize_part substitute_loop].
    rewrite (Harith op Hop). unfold Eval.int_eval, Eval.eval. rewrite Htok. cbn [bind].
    cbn [bind] in Hval. rewrite Hval. reflexivity. }
  split; [|split].
  - apply (Hrun "+" Eval.TPlus); [reflexivity| |].
    + apply tokenize_two. intros pending. reflexivity.
    + destruct a, b; reflexivity.
  - apply (Hrun "-" Eval.TMinus); [reflexivity| |].
    + apply tokenize_two. intros pending. reflexivity.
    + destruct a, b; reflexivity.
  - apply (Hrun "*" Eval.TStar); [reflexivity| |].
    + apply tokenize_two. intros pending.
      destruct (str_of_int_first b) as (c & t & -> & Hc).
      change ("*" +:+ String c t) with (String "*" (String c t)).
      cbn [Eval.tokenize_from]. change (Py.is_digit "*") with false. cbn iota.
      destruct c as [[] [] [] [] [] [] [] []]; try reflexivity.
      destruct Hc; discriminate.
    + destruct a, b; reflexivity.
Qed.

(** X3.  The sum, the difference and the product of two integer numerals,
    negative ones included, evaluate to the sum, the difference and the
    product of the two integers. *)
Theorem parse_portsize_part_arithmetic (a b : Z) :
  parse_portsize_part (PyStr (Py.str_of_int a +:+ "+" +:+ Py.str_of_int b)) []
  = Return (PyInt (a + b))
  /\ parse_portsize_part (PyStr (Py.str_of_int a +:+ "-" +:+ Py.str_of_int b)) []
     = Return (PyInt (a - b))
  /\ parse_portsize_part (PyStr (Py.str_of_int a +:+ "*" +:+ Py.str_of_int b)) []
     = Return (PyInt (a * b)).
Proof. exact (two_literals a b). Qed.

Lemma prefix_app (p s : string) : String.prefix p (p +:+ s) = true.
Proof.
  induction p as [|c p IH]; [destruct s; reflexivity|].
  rewrite string_app_cons. cbn [String.prefix].
  destruct (ascii_dec c c); [exact IH|congruence].
Qed.


(** The characters of an occurrence are skipped. *)
Lemma replace_from_skip old new (o rest : string) :
  Py.replace_from old new (String.length o) (o +:+ rest) = Py.replace_from old new 0 rest.
Proof.
  induction o as [|c o IH]; [destruct rest; reflexivity|].
  rewrite string_app_cons. cbn [String.length Py.replace_from]. exact IH.
Qed.

Lemma replace_prefix (old new rest : string) :
  old <> "" ->
  Py.replace (old +:+ rest) old new = new +:+ Py.replace rest old new.
Proof.
  intros Hne. destruct old as [|a o]; [congruence|].
  unfold Py.replace. rewrite string_app_cons.
  cbn [Py.replace_from]. rewrite <- string_app_cons, prefix_app.
  change (String.length (String a o) - 1)%nat with (String.length o - 0)%nat.
  rewrite Nat.sub_0_r. f_equal. apply replace_from_skip.
Qed.





(* ------------------------------------------------------------------------- *)
(** ** [Port.update_from_name]: the hints *)

Lemma update_from_name_hinted self gl do_eval (base hint ty : string) hs ls high low :
  plain_name base = true ->
  Py.has_char Py.LF hint = false ->
  Py.has_char ":" hint = true ->
  Port.split_hint hint = Return (ty, hs, ls) ->
  Port.resolve_bound do_eval gl hs = Return high ->
  Port.resolve_bound do_eval gl ls = Return low ->
  Port.update_from_name (Port.set_name (base +:+ "(" +:+ hint +:+ ")") self) gl do_eval
  = Return (Port.set_parsed
              (ty +:+ "(" +:+ py_str high +:+ " downto " +:+ py_str low +:+ ")")
              (py_str high) (py_str low) (Port.length_of high low)
              (Port.set_name base self)).
Proof.
  intros Hb Hlf Hcolon Hsplit Hhigh Hlow.
  assert (Hne : hint <> "") by (intros ->; discriminate Hcolon).
  unfold Port.update_from_name. cbn [Port.name Port.set_name].
  rewrite (name_hint_app _ _ Hb Hlf Hne).
  destruct (hint =? "b") eqn:E1.
  { apply String.eqb_eq in E1. subst hint. discriminate Hcolon. }
  destruct (hint =? "integer") eqn:E2.
  { apply String.eqb_eq in E2. subst hint. discriminate Hcolon. }
  rewrite Hsplit. cbn [bind]. rewrite Hhigh. cbn [bind]. rewrite Hlow. reflexivity.
Qed.

(** The two bounds of a range of two numerals. *)
Lemma split_numerals (H L : Z) :
  Py.split ":" (Py.str_of_int H +:+ ":" +:+ Py.str_of_int L)
  = [Py.str_of_int H; Py.str_of_int L].
Proof.
  destruct (str_of_int_shape H) as (Hp & _ & _).
  destruct (str_of_int_shape L) as (Lp & _ & _).
  apply plain_bound_chars in Hp as (_ & Hp & _).
  apply plain_bound_chars in Lp as (_ & Lp & _).
  change (":" +:+ Py.str_of_int L) with (String ":" (Py.str_of_int L)).
  rewrite (split_app _ _ _ Hp), (split_no_sep _ _ Lp). reflexivity.
Qed.

Lemma numerals_chars (c : ascii) (H L : Z) :
  c = Py.LF \/ c = " "%char ->
  Py.has_char c (Py.str_of_int H +:+ ":" +:+ Py.str_of_int L) = false.
Proof.
  intros Hc.
  destruct (str_of_int_shape H) as (Hp & _ & _).
  destruct (str_of_int_shape L) as (Lp & _ & _).
  apply plain_bound_chars in Hp as (Hp1 & _ & Hp2).
  apply plain_bound_chars in Lp as (Lp1 & _ & Lp2).
  change (":" +:+ Py.str_of_int L) with (String ":" (Py.str_of_int L)).
  rewrite has_char_app. cbn [Py.has_char].
  destruct Hc as [-> | ->].
  - rewrite Hp1, Lp1. reflexivity.
  - rewrite Hp2, Lp2. reflexivity.
Qed.

Lemma numerals_colon (pre : string) (H L : Z) :
  Py.has_char ":" (pre +:+ Py.str_of_int H +:+ ":" +:+ Py.str_of_int L) = true.
Proof.
  rewrite !has_char_app.
  change (":" +:+ Py.str_of_int L) with (String ":" (Py.str_of_int L)).
  cbn [Py.has_char]. rewrite Ascii.eqb_refl, !orb_true_r. reflexivity.
Qed.

Lemma split_hint_letters (letters ty : string) (H L : Z) :
  In (letters, ty) type_letters ->
  Port.split_hint (letters +:+ Py.str_of_int H +:+ ":" +:+ Py.str_of_int L)
  = Return (ty, PyStr (Py.str_of_int H), PyStr (Py.str_of_int L)).
Proof.
  intros Hin. pose proof (split_numerals H L) as Hsplit.
  destruct (str_of_int_first H) as (c & t & Hfirst & Hc).
  assert (Hf : c <> "f"%char) by (destruct Hc as [Hc| ->]; [intros ->|]; discriminate).
  unfold type_letters in Hin. cbn [In] in Hin.
  unfold Port.split_hint, Py.startswith.
  destruct Hin as [[= <- <-]|[[= <- <-]|[[= <- <-]|[[= <- <-]|[]]]]].
  - change ("u" +:+ ?s) with (String "u" s). rewrite Hfirst, string_app_cons.
    cbn [String.prefix]. destruct (ascii_dec "f" c) as [E|_]; [congruence|].
    cbn [ascii_dec ascii_rec ascii_rect Bool.bool_dec bool_rec bool_rect sumbool_rec sumbool_rect].
    cbn [bind Py.drop]. rewrite <- string_app_cons, <- Hfirst, Hsplit. reflexivity.
  - change ("s" +:+ ?s) with (String "s" s). rewrite Hfirst, string_app_cons.
    cbn [String.prefix]. destruct (ascii_dec "f" c) as [E|_]; [congruence|].
    cbn [ascii_dec ascii_rec ascii_rect Bool.bool_dec bool_rec bool_rect sumbool_rec sumbool_rect].
    cbn [bind Py.drop]. rewrite <- string_app_cons, <- Hfirst, Hsplit. reflexivity.
  - change ("uf" +:+ ?s) with (String "u" (String "f" s)). rewrite Hfirst, string_app_cons.
    cbn [String.prefix ascii_dec ascii_rec ascii_rect Bool.bool_dec bool_rec bool_rect
         sumbool_rec sumbool_rect].
    cbn [bind Py.drop]. rewrite <- string_app_cons, <- Hfirst, Hsplit. reflexivity.
  - change ("sf" +:+ ?s) with (String "s" (String "f" s)). rewrite Hfirst, string_app_cons.
    cbn [String.prefix ascii_dec ascii_rec ascii_rect Bool.bool_dec bool_rec bool_rect
         sumbool_rec sumbool_rect].
    cbn [bind Py.drop]. rewrite <- string_app_cons, <- Hfirst, Hsplit. reflexivity.
Qed.

Lemma split_hint_named (type_name : string) (H L : Z) :
  plain_bound type_name = true -> untyped type_name = true ->
  Port.split_hint (type_name +:+ " " +:+ Py.str_of_int H +:+ ":" +:+ Py.str_of_int L)
  = Return (type_name, PyStr (Py.str_of_int H), PyStr (Py.str_of_int L)).
Proof.
  intros Hp Hu. apply plain_bound_chars in Hp as (_ & _ & Hsp).
  set (range := Py.str_of_int H +:+ ":" +:+ Py.str_of_int L).
  assert (Hpre : forall p q, (p = "u" \/ p = "s")%char ->
                 Py.startswith (type_name +:+ " " +:+ range) (String p q) = false).
  { intros p q Hpq. destruct type_name as [|c t].
    - change ("" +:+ " " +:+ range) with (String " " range).
      apply startswith_first. destruct Hpq; subst; discriminate.
    - rewrite string_app_cons. apply startswith_first.
      apply untyped_first in Hu as [? ?]. destruct Hpq; subst; assumption. }
  unfold Port.split_hint.
  rewrite (Hpre "u"%char "f"), (Hpre "u"%char ""), (Hpre "s"%char "f"), (Hpre "s"%char "")
    by auto.
  change (" " +:+ range) with (String " " range).
  rewrite has_char_app. cbn [Py.has_char Ascii.eqb Bool.eqb]. rewrite orb_true_r.
  rewrite (split_app _ _ _ Hsp).
  rewrite (split_no_sep " " range) by (apply numerals_chars; auto).
  cbn [index bind lookup list_lookup]. unfold range. rewrite split_numerals. reflexivity.
Qed.

(** X5.  With integer bounds [H] and [L] and no generics, a name
    [base(uH:L)], [base(sH:L)], [base(ufH:L)] or [base(sfH:L)] decodes to the
    type [unsigned], [signed], [ufixed] or [sfixed] with the range [H downto
    L], and a name [base(type H:L)] to that type with that range when the
    type name is plain and does not open with [u] or [s]; the name becomes
    [base] and the length [H - L + 1]. *)
Theorem update_from_name_typed_range (self : Port.t) (base : string) (H L : Z) :
  plain_name base = true ->
  (forall letters ty,
     In (letters, ty) type_letters ->
     Port.update_from_name
       (Port.set_name (base +:+ "(" +:+ (letters +:+ Py.str_of_int H +:+ ":" +:+ Py.str_of_int L)
                       +:+ ")") self) [] true
     = Return (Port.set_parsed
                 (ty +:+ "(" +:+ Py.str_of_int H +:+ " downto " +:+ Py.str_of_int L +:+ ")")
                 (Py.str_of_int H) (Py.str_of_int L) (Py.str_of_int (H - L + 1))
                 (Port.set_name base self)))
  /\ (forall type_name,
        plain_bound type_name = true -> untyped type_name = true ->
        Port.update_from_name
          (Port.set_name (base +:+ "("
                          +:+ (type_name +:+ " " +:+ Py.str_of_int H +:+ ":" +:+ Py.str_of_int L)
                          +:+ ")") self) [] true
        = Return (Port.set_parsed
                    (type_name +:+ "(" +:+ Py.str_of_int H +:+ " downto " +:+ Py.str_of_int L
                     +:+ ")")
                    (Py.str_of_int H) (Py.str_of_int L) (Py.str_of_int (H - L + 1))
                    (Port.set_name base self))).
Proof.
  intros Hb. split.
  - intros letters ty Hin.
    apply (update_from_name_hinted self [] true base _ ty (PyStr (Py.str_of_int H))
             (PyStr (Py.str_of_int L)) (PyInt H) (PyInt L) Hb).
    + rewrite has_char_app, numerals_chars by auto.
      unfold type_letters in Hin. cbn [In] in Hin.
      destruct Hin as [[= <- <-]|[[= <- <-]|[[= <- <-]|[[= <- <-]|[]]]]]; reflexivity.
    + apply numerals_colon.
    + apply split_hint_letters, Hin.
    + apply parse_portsize_part_numeral.
    + apply parse_portsize_part_numeral.
  - intros type_name Hp Hu.
    apply (update_from_name_hinted self [] true base _ type_name (PyStr (Py.str_of_int H))
             (PyStr (Py.str_of_int L)) (PyInt H) (PyInt L) Hb).
    + apply plain_bound_chars in Hp as (Hlf & _ & _).
      rewrite has_char_app, Hlf.
      change (" " +:+ ?s) with (String " " s). cbn [Py.has_char].
      rewrite numerals_chars by auto. reflexivity.
    + pose proof (numerals_colon "" H L) as Hc. change ("" +:+ ?x) with x in Hc.
      change (" " +:+ ?s) with (String " " s).
      rewrite has_char_app. cbn [Py.has_char]. rewrite Hc, !orb_true_r. reflexivity.
    + apply split_hint_named; assumption.
    + apply parse_portsize_part_numeral.
    + apply parse_portsize_part_numeral.
Qed.

Lemma update_from_name_typed_range_witness :
  Port.update_from_name (named_port "acc(sf3:-4)") [] true
  = Return (Port.set_parsed "sfixed(3 downto -4)" "3" "-4" "8" (named_port "acc"))
  /\ Port.update_from_name (named_port "q(natural 7:0)") [] true
     = Return (Port.set_parsed "natural(7 downto 0)" "7" "0" "8" (named_port "q")).
Proof.
  destruct (update_from_name_typed_range Port.new "acc" 3 (-4) eq_refl) as [Hletters _].
  destruct (update_from_name_typed_range Port.new "q" 7 0 eq_refl) as [_ Hnamed].
  split.
  - apply (Hletters "sf" "sfixed"). right. right. right. left. reflexivity.
  - apply (Hnamed "natural"); reflexivity.
Defined.

Lemma has_char_drop c n : forall s,
  Py.has_char c s = false -> Py.has_char c (Py.drop n s) = false.
Proof.
  induction n as [|n IH]; intros s H; [exact H|].
  destruct s as [|d t]; [reflexivity|].
  cbn [Py.has_char] in H. apply orb_false_iff in H as [_ H]. cbn [Py.drop]. apply IH, H.
Qed.

Lemma split_without c sep s :
  Py.has_char c s = false -> Forall (fun p => Py.has_char c p = false) (Py.split sep s).
Proof.
  induction s as [|d t IH]; intros H; [repeat constructor|].
  cbn [Py.has_char] in H. apply orb_false_iff in H as [Hd Ht].
  specialize (IH Ht). cbn [Py.split]. destruct (Ascii.eqb d sep).
  - constructor; [reflexivity|exact IH].
  - destruct (Py.split sep t) as [|h r]; [repeat constructor; cbn; now rewrite Hd|].
    inversion IH as [|? ? Hh Hr]; subst. constructor; [|exact Hr].
    cbn [Py.has_char]. rewrite Hd, Hh. reflexivity.
Qed.

(** A hint without colon has one bound, and the int [0] for the other. *)
Lemma split_hint_single hint :
  Py.has_char ":" hint = false ->
  exists ty hs, Port.split_hint hint = Return (ty, PyStr hs, PyInt 0).
Proof.
  intros H.
  assert (Hrange : forall (ty s : string), Py.has_char ":" s = false ->
            (let range_parts := Py.split ":" s in
             if (List.length range_parts =? 1)%nat then
               let* high_str := index range_parts 0 in
               Return (ty, PyStr high_str, PyInt 0)
             else
               let* high_str := index range_parts 0 in
               let* low_str := index range_parts 1 in
               Return (ty, PyStr high_str, PyStr low_str)) = Return (ty, PyStr s, PyInt 0)).
  { intros ty s Hs. cbn zeta. rewrite (split_no_sep _ _ Hs). reflexivity. }
  unfold Port.split_hint.
  destruct (Py.startswith hint "uf"); cbn [bind].
  { eexists _, _. apply Hrange, has_char_drop, H. }
  destruct (Py.startswith hint "u"); cbn [bind].
  { eexists _, _. apply Hrange, has_char_drop, H. }
  destruct (Py.startswith hint "sf"); cbn [bind].
  { eexists _, _. apply Hrange, has_char_drop, H. }
  destruct (Py.startswith hint "s"); cbn [bind].
  { eexists _, _. apply Hrange, has_char_drop, H. }
  destruct (Py.has_char " " hint) eqn:Hsp; cbn [bind].
  2: { eexists _, _. apply Hrange, H. }
  pose proof (split_without ":" " " hint H) as Hparts.
  destruct (split_two _ _ Hsp) as (a & b & r & E). rewrite E in *.
  cbn [index lookup list_lookup bind].
  eexists _, _. apply Hrange.
  inversion Hparts as [|? ? _ Hr]; subst. inversion Hr; subst. assumption.
Qed.

(** X6.  A hint without colon, other than [b] and [integer]: decoding with
    evaluation never returns, and raises as soon as the one bound evaluates,
    because the missing low bound is the int [0] and not a string; decoding
    without evaluation returns with the low bound [0] and the length
    [high-0]. *)
Theorem update_from_name_single_bound (self : Port.t) (generic_list : list Generic.t)
    (part0 hint : string) :
  Re.name_hint (Port.name self) = Some (part0, hint) ->
  hint <> "b" -> hint <> "integer" ->
  Py.has_char ":" hint = false ->
  (forall p, Port.update_from_name self generic_list true <> Return p)
  /\ (forall ty hs high,
        Port.split_hint hint = Return (ty, hs, PyInt 0) ->
        parse_portsize_part hs generic_list = Return high ->
        Port.update_from_name self generic_list true = Raises)
  /\ exists ty hs,
       Port.split_hint hint = Return (ty, PyStr hs, PyInt 0)
       /\ Port.update_from_name self generic_list false
          = Return (Port.set_parsed (ty +:+ "(" +:+ hs +:+ " downto 0)") hs "0" (hs +:+ "-0")
                                    (Port.set_name part0 self)).
Proof.
  intros Hname Hb Hi Hcolon.
  destruct (split_hint_single hint Hcolon) as (ty & hs & Hsplit).
  apply String.eqb_neq in Hb, Hi.
  unfold Port.update_from_name. rewrite Hname, Hb, Hi, Hsplit. cbn [bind Port.resolve_bound].
  split; [|split].
  - intros p. destruct (parse_portsize_part (PyStr hs) generic_list); discriminate.
  - intros ty' hs' high [= <- <-] ->. reflexivity.
  - exists ty, hs. split; reflexivity.
Qed.

Lemma update_from_name_single_bound_witness :
  (forall p, Port.update_from_name (named_port "bus(slv)") [] true <> Return p)
  /\ exists ty hs,
       Port.split_hint "slv" = Return (ty, PyStr hs, PyInt 0)
       /\ Port.update_from_name (named_port "bus(slv)") [] false
          = Return (Port.set_parsed (ty +:+ "(" +:+ hs +:+ " downto 0)") hs "0" (hs +:+ "-0")
                                    (Port.set_name "bus" (named_port "bus(slv)"))).
Proof.
  destruct (update_from_name_single_bound (named_port "bus(slv)") [] "bus" "slv" eq_refl
              ltac:(discriminate) ltac:(discriminate) eq_refl) as (Hnever & _ & Hkept).
  split; [exact Hnever|exact Hkept].
Defined.

Lemma cut_before c s a b : Re.cut c s = Some (a, b) -> Py.has_char c a = false.
Proof.
  revert a b. induction s as [|d t IH]; intros a b H; [discriminate|].
  cbn [Re.cut] in H. destruct (Ascii.eqb d c) eqn:E.
  - injection H as <- <-. reflexivity.
  - destruct (Re.cut c t) as [[pre post]|]; [|discriminate].
    injection H as <- <-. cbn [Py.has_char]. rewrite E. exact (IH _ _ eq_refl).
Qed.

Lemma cut_absent c s : Py.has_char c s = false -> Re.cut c s = None.
Proof.
  induction s as [|d t IH]; intros H; [reflexivity|].
  cbn [Py.has_char] in H. apply orb_false_iff in H as [Hd Ht].
  cbn [Re.cut]. rewrite Hd, (IH Ht). reflexivity.
Qed.

Lemma chop_last_without c s init last :
  Py.has_char c s = false -> Re.chop_last s = Some (init, last) -> Py.has_char c init = false.
Proof.
  revert init last. induction s as [|d t IH]; intros init last H E; [discriminate|].
  cbn [Py.has_char] in H. apply orb_false_iff in H as [Hd Ht].
  cbn [Re.chop_last] in E. destruct (Re.chop_last t) as [[i l]|].
  - injection E as <- <-. cbn [Py.has_char]. rewrite Hd. exact (IH _ _ Ht eq_refl).
  - injection E as <- <-. reflexivity.
Qed.

(** A name without opening parenthesis carries no hint. *)
Lemma name_hint_absent s : Py.has_char "(" s = false -> Re.name_hint s = None.
Proof.
  intros H. unfold Re.name_hint.
  assert (Hb : Py.has_char "(" (Re.before_final_newline s) = false).
  { unfold Re.before_final_newline. destruct (Re.chop_last s) as [[i l]|] eqn:E; [|exact H].
    destruct (Ascii.eqb l Py.LF); [|exact H]. exact (chop_last_without _ _ _ _ H E). }
  destruct (Re.chop_last (Re.before_final_newline s)) as [[body l]|] eqn:E; [|reflexivity].
  pose proof (chop_last_without _ _ _ _ Hb E) as Hbody.
  rewrite (cut_absent _ _ Hbody).
  destruct l as [[] [] [] [] [] [] [] []]; try reflexivity.
  destruct (Py.has_char Py.LF body); reflexivity.
Qed.

(** The first group of the name pattern has no opening parenthesis. *)
Lemma name_hint_before s part0 hint :
  Re.name_hint s = Some (part0, hint) -> Py.has_char "(" part0 = false.
Proof.
  unfold Re.name_hint.
  destruct (Re.chop_last (Re.before_final_newline s)) as [[body l]|]; [|discriminate].
  destruct l as [[] [] [] [] [] [] [] []]; try discriminate.
  destruct (Py.has_char Py.LF body); [discriminate|].
  destruct (Re.cut "(" body) as [[pre h]|] eqn:E; [|discriminate].
  destruct h; [discriminate|]. intros [= <- <-]. exact (cut_before _ _ _ _ E).
Qed.

(** X7.  Decoding a port a second time: after the hint [b] or [integer] the
    second call gives the same port again; after any other hint the name has
    lost its hint, and the second call resets the type to [std_logic] with
    the bounds 0 and the length 1. *)
Theorem update_from_name_again (self p : Port.t) (generic_list later : list Generic.t)
    (do_eval again : bool) (part0 hint : string) :
  Re.name_hint (Port.name self) = Some (part0, hint) ->
  Port.update_from_name self generic_list do_eval = Return p ->
  Port.update_from_name p later again
  = if (hint =? "b") || (hint =? "integer") then Return p
    else Return (Port.set_parsed "std_logic" "0" "0" "1" p).
Proof.
  intros Hname. unfold Port.update_from_name at 1. rewrite Hname.
  destruct (hint =? "b") eqn:Eb.
  { intros [= <-]. unfold Port.update_from_name. cbn [Port.name Port.set_parsed].
    rewrite Hname, Eb. reflexivity. }
  destruct (hint =? "integer") eqn:Ei.
  { intros [= <-]. unfold Port.update_from_name. cbn [Port.name Port.set_parsed].
    rewrite Hname, Eb, Ei. reflexivity. }
  destruct (Port.split_hint hint) as [[[ty hs] ls]| |]; cbn [bind]; try discriminate.
  destruct (Port.resolve_bound do_eval generic_list hs) as [high| |]; cbn [bind];
    try discriminate.
  destruct (Port.resolve_bound do_eval generic_list ls) as [low| |]; cbn [bind];
    try discriminate.
  intros [= <-]. unfold Port.update_from_name. cbn [Port.name Port.set_parsed Port.set_name].
  rewrite (name_hint_absent _ (name_hint_before _ _ _ Hname)). reflexivity.
Qed.

Lemma update_from_name_again_witness :
  Port.update_from_name
    (Port.set_parsed "std_logic_vector(7 downto 0)" "7" "0" "8" (named_port "data")) [] true
  = Return (Port.set_parsed "std_logic" "0" "0" "1"
              (Port.set_parsed "std_logic_vector(7 downto 0)" "7" "0" "8" (named_port "data"))).
Proof.
  exact (update_from_name_again (named_port "data(7:0)") _ [] [] true true "data" "7:0"
           eq_refl eq_refl).
Defined.

(* ------------------------------------------------------------------------- *)
(** ** [align_on_pipe]: the shape of the output *)

Lemma concat_empty_length l :
  String.length (String.concat "" l) = sum_list (map String.length l).
Proof.
  induction l as [|x xs IH]; [reflexivity|].
  rewrite concat_empty_cons, string_app_length, IH. reflexivity.
Qed.

Lemma padded_lengths cells widths :
  Forall2 (fun cell width => (String.length cell <= width)%nat) cells widths ->
  map String.length (zip_with Py.ljust cells widths) = widths.
Proof.
  induction 1 as [|cell width cells widths Hle _ IH]; [reflexivity|].
  cbn [zip_with map]. rewrite ljust_length, IH. f_equal. lia.
Qed.

(** No cell of a line of a run is wider than its column. *)
Lemma cells_fit run line :
  uniform run -> In line run ->
  Forall2 (fun cell width => (String.length cell <= width)%nat)
          (Py.split "|" line) (run_widths run).
Proof.
  intros Hu Hin. destruct run as [|l seg]; [destruct Hu|]. cbn [uniform] in Hu.
  assert (Hc : columns line = columns l).
  { rewrite Forall_forall in Hu. apply Hu. apply list_elem_of_In. exact Hin. }
  apply Forall2_same_length_lookup_2.
  - rewrite run_widths_length. exact Hc.
  - intros i cell width Hcell Hwidth.
    assert (Hi : (i < columns line)%nat) by (apply lookup_lt_Some in Hcell; exact Hcell).
    pose proof (run_widths_nth (l :: seg) i ltac:(cbn [hd]; lia)) as Hw.
    rewrite (nth_lookup_Some _ _ _ _ Hwidth) in Hw. rewrite Hw.
    apply max_list_ge, in_map. unfold column.
    rewrite <- (nth_lookup_Some _ _ "" _ Hcell).
    apply (in_map (fun line0 => nth i (Py.split "|" line0) "")) in Hin. exact Hin.
Qed.

Lemma align_line_length run line :
  uniform run -> In line run ->
  String.length (align_line (run_widths run) line) = sum_list (run_widths run).
Proof.
  intros Hu Hin. unfold align_line.
  rewrite concat_empty_length, (padded_lengths _ _ (cells_fit _ _ Hu Hin)). reflexivity.
Qed.

Lemma aligned_count rs :
  List.length (concat (map align_run rs)) = List.length (concat rs).
Proof.
  induction rs as [|run rs IH]; [reflexivity|].
  cbn [map concat]. rewrite !length_app, IH. unfold align_run. rewrite length_map.
  reflexivity.
Qed.

(** X8.  [align_on_pipe] returns as many lines as its input has, run by run;
    all lines of a run come out with one length, the sum of the column widths
    of the run. *)
Theorem align_on_pipe_rectangular (doc : string) :
  exists blocks,
    align_on_pipe doc = Return (Py.join (String Py.LF "") (concat blocks))
    /\ Forall2 (fun block run =>
                  List.length block = List.length run
                  /\ Forall (fun out_line => String.length out_line = sum_list (run_widths run))
                            block)
               blocks (runs (Py.splitlines doc))
    /\ List.length (concat blocks) = List.length (Py.splitlines doc).
Proof.
  exists (map align_run (runs (Py.splitlines doc))).
  split; [apply align_on_pipe_aligned|]. split.
  - apply Forall2_fmap_l, Forall_Forall2_diag.
    eapply Forall_impl; [apply runs_uniform|].
    intros run Hu. cbn beta. unfold align_run. split; [apply length_map|].
    apply Forall_forall. intros out_line Hin.
    apply list_elem_of_fmap in Hin as (line & -> & Hline).
    apply align_line_length; [exact Hu|]. apply list_elem_of_In. exact Hline.
  - rewrite aligned_count, concat_runs. reflexivity.
Qed.

(** *** A document without pipes *)

Lemma splitlines_without c s :
  Py.has_char c s = false -> Forall (fun line => Py.has_char c line = false) (Py.splitlines s).
Proof.
  remember (String.length s) as n eqn:Hn. revert s Hn.
  induction n as [n IH] using lt_wf_ind. intros s Hn H.
  destruct s as [|d t]; [constructor|].
  cbn [Py.has_char] in H. apply orb_false_iff in H as [Hd Ht].
  cbn [String.length] in Hn.
  assert (IHt : Forall (fun line => Py.has_char c line = false) (Py.splitlines t)).
  { apply (IH (String.length t)); [lia|reflexivity|exact Ht]. }
  cbn [Py.splitlines]. destruct (Py.is_linebreak d).
  - constructor; [reflexivity|].
    destruct (Ascii.eqb d Py.CR); [|exact IHt].
    destruct t as [|e t']; [constructor|].
    destruct (Ascii.eqb e Py.LF); [|exact IHt].
    cbn [Py.has_char] in Ht. apply orb_false_iff in Ht as [_ Ht'].
    apply (IH (String.length t')); [cbn [String.length] in Hn; lia|reflexivity|exact Ht'].
  - destruct (Py.splitlines t) as [|h r]; [repeat constructor; cbn; now rewrite Hd|].
    inversion IHt as [|? ? Hh Hr]; subst. constructor; [|exact Hr].
    cbn [Py.has_char]. rewrite Hd, Hh. reflexivity.
Qed.

Lemma runs_one_count lines l :
  Forall (fun line => columns line = columns l) (l :: lines) -> runs (l :: lines) = [l :: lines].
Proof.
  revert l. induction lines as [|l' lines IH]; intros l H; [reflexivity|].
  inversion H as [|? ? _ Ht]; subst. inversion Ht as [|? ? Hl' _]; subst.
  change (runs (l :: l' :: lines)) with (join_run [l] (runs (l' :: lines))).
  rewrite IH.
  - unfold join_run. rewrite Hl', Nat.eqb_refl. reflexivity.
  - eapply Forall_impl; [exact Ht|]. cbn beta. intros x Hx. congruence.
Qed.

(** X9.  A document without any pipe is still changed: every line is padded
    with spaces to the length of the longest line, and the lines are joined
    by newlines. *)
Theorem align_on_pipe_without_pipes (doc : string) :
  Py.has_char "|" doc = false ->
  align_on_pipe doc
  = Return (Py.join (String Py.LF "")
              (map (fun line => Py.ljust line (max_list (map String.length (Py.splitlines doc))))
                   (Py.splitlines doc))).
Proof.
  intros H. rewrite align_on_pipe_aligned. unfold aligned. f_equal. f_equal.
  pose proof (splitlines_without _ _ H) as Hlines.
  destruct (Py.splitlines doc) as [|l lines]; [reflexivity|].
  assert (Hsplit : Forall (fun line => Py.split "|" line = [line]) (l :: lines)).
  { eapply Forall_impl; [exact Hlines|]. intros x Hx. apply split_no_sep, Hx. }
  assert (Hcols : Forall (fun line => columns line = columns l) (l :: lines)).
  { inversion Hsplit as [|? ? Hl _]; subst.
    eapply Forall_impl; [exact Hsplit|]. cbn beta. intros x Hx.
    unfold columns. rewrite Hx, Hl. reflexivity. }
  rewrite (runs_one_count _ _ Hcols).
  change (concat (map align_run [l :: lines])) with (align_run (l :: lines) ++ [])%list.
  rewrite app_nil_r.
  assert (Hw : run_widths (l :: lines) = [max_list (map String.length (l :: lines))]).
  { unfold run_widths. cbn [hd]. inversion Hsplit as [|? ? Hl _]; subst.
    unfold columns. rewrite Hl. cbn [List.length seq]. cbn [map]. f_equal. f_equal.
    unfold column.
    change (String.length l :: map String.length lines) with (map String.length (l :: lines)).
    f_equal. transitivity (map (fun x : string => x) (l :: lines)); [|apply map_id].
    apply map_ext_Forall. eapply Forall_impl; [exact Hsplit|].
    cbn beta. intros x Hx. rewrite Hx. reflexivity. }
  unfold align_run. rewrite Hw. apply map_ext_Forall.
  eapply Forall_impl; [exact Hsplit|]. cbn beta. intros x Hx.
  unfold align_line. rewrite Hx. cbn [zip_with]. rewrite concat_empty_cons.
  apply string_app_nil_r.
Qed.

Lemma align_on_pipe_without_pipes_witness :
  align_on_pipe ("entity" +:+ String Py.LF "end")
  = Return (Py.join (String Py.LF "")
              (map (fun line =>
                      Py.ljust line
                        (max_list (map String.length
                                       (Py.splitlines ("entity" +:+ String Py.LF "end")))))
                   (Py.splitlines ("entity" +:+ String Py.LF "end")))).
Proof. exact (align_on_pipe_without_pipes ("entity" +:+ String Py.LF "end") eq_refl). Defined.

(* ------------------------------------------------------------------------- *)
(** ** [find_property] *)

(** X10.  [find_property] returns the default when no property has the name,
    and the value of the first property that has it, whatever follows. *)
Theorem find_property_first (pre post : list Netlist.CompProperty.t)
    (prop : Netlist.CompProperty.t) (name default : string) :
  Forall (fun p => Netlist.CompProperty.name p <> name) pre ->
  find_property pre name default = default
  /\ (Netlist.CompProperty.name prop = name ->
      find_property (pre ++ prop :: post) name default = Netlist.CompProperty.value prop).
Proof.
  induction 1 as [|p pre Hp _ IH].
  - split; [reflexivity|]. intros Hn. cbn [app find_property].
    apply String.eqb_eq in Hn. rewrite Hn. reflexivity.
  - apply String.eqb_neq in Hp. cbn [app find_property]. rewrite Hp. exact IH.
Qed.

Lemma find_property_first_witness :
  find_property [Netlist.CompProperty.mk "NAME" "k"] "TYPE" "integer" = "integer"
  /\ find_property [Netlist.CompProperty.mk "NAME" "k"; Netlist.CompProperty.mk "TYPE" "slv";
                    Netlist.CompProperty.mk "TYPE" "u8"] "TYPE" "integer" = "slv".
Proof.
  destruct (find_property_first [Netlist.CompProperty.mk "NAME" "k"]
              [Netlist.CompProperty.mk "TYPE" "u8"] (Netlist.CompProperty.mk "TYPE" "slv")
              "TYPE" "integer") as [Hdefault Hfirst].
  - constructor; [discriminate|constructor].
  - split; [exact Hdefault|exact (Hfirst eq_refl)].
Defined.

(* ------------------------------------------------------------------------- *)
(** ** The second pass over the components: instances *)

Lemma mapM_Forall2 {A B} (f : A -> outcome B) l : forall l',
  mapM f l = Return l' -> Forall2 (fun a b => f a = Return b) l l'.
Proof.
  induction l as [|a l IH]; intros l' H.
  - injection H as <-. constructor.
  - cbn [mapM] in H. destruct (f a) as [b| |] eqn:Ea; cbn [bind] in H; try discriminate.
    destruct (mapM f l) as [bs| |]; cbn [bind] in H; try discriminate.
    injection H as <-. constructor; [exact Ea|apply IH; reflexivity].
Qed.

Lemma Forall2_chain {A B C} (R : A -> B -> Prop) (S : B -> C -> Prop) (T : A -> C -> Prop)
    l k m :
  (forall x y z, R x y -> S y z -> T x z) ->
  Forall2 R l k -> Forall2 S k m -> Forall2 T l m.
Proof.
  intros HT H. revert m. induction H as [|x y l k Hxy _ IH]; intros m Hm.
  - inversion Hm. constructor.
  - inversion Hm as [|? z ? m' Hyz Hm']; subst. constructor; [eauto|apply IH, Hm'].
Qed.

(** *** The properties of an instance *)

Lemma attach_libparts_properties cl : forall component i,
  Component.properties (attach_libparts component i cl) = Component.properties component
  /\ Component.name (attach_libparts component i cl) = Component.name component
  /\ Component.instance_name (attach_libparts component i cl)
     = Component.instance_name component.
Proof.
  induction cl as [|lp cl IH]; intros component i; [repeat split|].
  cbn [attach_libparts]. destruct (Component.name lp =? Component.name component).
  - destruct (IH (Component.mk (Component.name component) (Component.instance_name component)
                    (Component.ports component ++ map Port.copy_port (Component.ports lp))%list
                    (Component.properties component) (Some i)) (S i)) as (H1 & H2 & H3).
    rewrite H1, H2, H3. repeat split.
  - apply IH.
Qed.

(** The first loop changes values only. *)
Lemma substitute_property_kept properties i :
  Forall2 (fun g g' => Generic.name g' = Generic.name g
                        /\ Generic.typestr g' = Generic.typestr g
                        /\ Generic.commentstr g' = Generic.commentstr g)
          properties (substitute_property properties i).
Proof.
  assert (Hrefl : forall l : list Generic.t,
            Forall2 (fun g g' => Generic.name g' = Generic.name g
                                 /\ Generic.typestr g' = Generic.typestr g
                                 /\ Generic.commentstr g' = Generic.commentstr g) l l).
  { intros l. apply Forall_Forall2_diag, Forall_forall. intros; repeat split. }
  unfold substitute_property. destruct (properties !! i) as [prop|] eqn:E; [|apply Hrefl].
  destruct (Re.has_non_arith (Generic.value prop)); [|apply Hrefl].
  rewrite <- (list_insert_id properties i prop E) at 1.
  apply Forall2_insert; [apply Hrefl|]. repeat split.
Qed.

Lemma substitute_properties_kept indices : forall properties,
  Forall2 (fun g g' => Generic.name g' = Generic.name g
                        /\ Generic.typestr g' = Generic.typestr g
                        /\ Generic.commentstr g' = Generic.commentstr g)
          properties (fold_left substitute_property indices properties).
Proof.
  induction indices as [|i indices IH]; intros properties.
  - apply Forall_Forall2_diag, Forall_forall. intros; repeat split.
  - cbn [fold_left].
    eapply Forall2_chain; [|apply substitute_property_kept|apply IH].
    cbn beta. intros x y z (H1 & H2 & H3) (H4 & H5 & H6). repeat split; congruence.
Qed.

Lemma evaluate_property_normal prop prop' :
  evaluate_property prop = Return prop' ->
  Generic.name prop' = Generic.name prop
  /\ Generic.typestr prop' = Generic.typestr prop
  /\ Generic.commentstr prop' = Generic.commentstr prop
  /\ (Re.has_non_arith (Generic.value prop') = true
      \/ exists z, Generic.value prop' = Py.str_of_int z).
Proof.
  unfold evaluate_property. destruct (Re.has_non_arith (Generic.value prop)) eqn:E; cbn [negb].
  - intros [= <-]. repeat split. left. exact E.
  - destruct (Eval.int_eval (Generic.value prop)) as [z| |]; cbn [bind]; try discriminate.
    intros [= <-]. repeat split. right. exists z. reflexivity.
Qed.

(** X11.  When an instance is built, its properties are those of the
    component that match the pattern, one for one, with name, type and
    comment unchanged; and every value is left either with a character
    outside [0-9+-*/()] or as the numeral of an integer. *)
Theorem build_instance_properties (component_list : list Component.t)
    (comp : Netlist.Comp.t) (c : Component.t) :
  build_instance component_list comp = Return c ->
  Forall2 (fun g g' =>
             Generic.name g' = Generic.name g
             /\ Generic.typestr g' = Generic.typestr g
             /\ Generic.commentstr g' = Generic.commentstr g
             /\ (Re.has_non_arith (Generic.value g') = true
                 \/ exists z, Generic.value g' = Py.str_of_int z))
          (Component.comp_generics (Netlist.Comp.properties comp))
          (Component.properties c).
Proof.
  unfold build_instance.
  destruct (attach_libparts_properties component_list (Component.from_comp comp) 0)
    as (Hprops & _ & _).
  rewrite Hprops. cbn [Component.from_comp Component.properties].
  set (properties := Component.comp_generics (Netlist.Comp.properties comp)).
  pose proof (substitute_properties_kept (seq 0 (List.length properties)) properties) as Hsub.
  destruct (mapM evaluate_property _) as [evaluated| |] eqn:Hev; cbn [bind]; try discriminate.
  destruct (mapM _ (Component.ports _)) as [ports| |]; cbn [bind]; try discriminate.
  intros [= <-]. cbn [Component.properties].
  apply mapM_Forall2 in Hev.
  eapply Forall2_chain; [|exact Hsub|exact Hev].
  cbn beta. intros x y z (H1 & H2 & H3) Hz.
  apply evaluate_property_normal in Hz as (H4 & H5 & H6 & H7).
  repeat split; try congruence; exact H7.
Qed.

Lemma build_instance_properties_witness :
  exists c,
    build_instance []
      (sample_comp "U1" "FIFO" "FIFO"
         [Netlist.CompProperty.mk "DW(integer) -- data width" "8*4";
          Netlist.CompProperty.mk "AW(integer) -- address width" "DW-1";
          Netlist.CompProperty.mk "MODE(string) -- mode" "fast"]) = Return c
    /\ Forall2 (fun g g' =>
                  Generic.name g' = Generic.name g
                  /\ Generic.typestr g' = Generic.typestr g
                  /\ Generic.commentstr g' = Generic.commentstr g
                  /\ (Re.has_non_arith (Generic.value g') = true
                      \/ exists z, Generic.value g' = Py.str_of_int z))
               (Component.comp_generics
                  [Netlist.CompProperty.mk "DW(integer) -- data width" "8*4";
                   Netlist.CompProperty.mk "AW(integer) -- address width" "DW-1";
                   Netlist.CompProperty.mk "MODE(string) -- mode" "fast"])
               (Component.properties c).
Proof.
  eexists. split; [reflexivity|].
  apply (build_instance_properties []
           (sample_comp "U1" "FIFO" "FIFO"
              [Netlist.CompProperty.mk "DW(integer) -- data width" "8*4";
               Netlist.CompProperty.mk "AW(integer) -- address width" "DW-1";
               Netlist.CompProperty.mk "MODE(string) -- mode" "fast"])).
  reflexivity.
Defined.

(** *** The ports of an instance *)

(** The library parts an instance is built from. *)
Lemma attach_libparts_ports part cl : forall component i,
  Component.name component = part ->
  Component.ports (attach_libparts component i cl)
  = (Component.ports component
     ++ flat_map (fun lp => map Port.copy_port (Component.ports lp)) (parts_named part cl))%list
  /\ (parts_named part cl = [] ->
      Component.component (attach_libparts component i cl) = Component.component component).
Proof.
  induction cl as [|lp cl IH]; intros component i Hn.
  - cbn. rewrite app_nil_r. split; reflexivity.
  - cbn [attach_libparts parts_named List.filter]. rewrite Hn.
    destruct (Component.name lp =? part).
    + destruct (IH (Component.mk (Component.name component) (Component.instance_name component)
                      (Component.ports component ++ map Port.copy_port (Component.ports lp))%list
                      (Component.properties component) (Some i)) (S i)) as [H1 _].
      { cbn. exact Hn. }
      rewrite <- Hn at 1. rewrite H1. cbn [Component.ports flat_map].
      rewrite <- app_assoc. split; [reflexivity|discriminate].
    + apply IH, Hn.
Qed.

Lemma update_from_name_keeps self gl do_eval p :
  Port.update_from_name self gl do_eval = Return p ->
  Port.num p = Port.num self /\ Port.dirstr p = Port.dirstr self
  /\ Port.target p = Port.target self /\ Port.typestr p = Port.typestr self.
Proof.
  unfold Port.update_from_name.
  destruct (Re.name_hint (Port.name self)) as [[part0 part1]|].
  2: { intros [= <-]. repeat split. }
  destruct (part1 =? "b"). 1: { intros [= <-]. repeat split. }
  destruct (part1 =? "integer"). 1: { intros [= <-]. repeat split. }
  destruct (Port.split_hint part1) as [[[ty hs] ls]| |]; cbn [bind]; try discriminate.
  destruct (Port.resolve_bound do_eval gl hs) as [high| |]; cbn [bind]; try discriminate.
  destruct (Port.resolve_bound do_eval gl ls) as [low| |]; cbn [bind]; try discriminate.
  intros [= <-]. repeat split.
Qed.

Lemma decoded_ports_keep gl do_eval ports ports' :
  mapM (fun port => Port.update_from_name port gl do_eval) ports = Return ports' ->
  map Port.num ports' = map Port.num ports /\ map Port.dirstr ports' = map Port.dirstr ports.
Proof.
  intros H. apply mapM_Forall2 in H.
  induction H as [|p p' ports ports' Hp _ IH]; [split; reflexivity|].
  apply update_from_name_keeps in Hp as (H1 & H2 & _).
  destruct IH as [IH1 IH2]. cbn [map]. rewrite H1, H2, IH1, IH2. split; reflexivity.
Qed.

(** X12.  When an instance is built, it has the reference and the part name
    of the component, and its ports are the ports of every component of the
    library with that part name, in order, with their pin numbers and
    directions; with no such component it has no port and refers to no
    library component. *)
Theorem build_instance_ports (component_list : list Component.t)
    (comp : Netlist.Comp.t) (c : Component.t) :
  build_instance component_list comp = Return c ->
  let library_ports :=
    flat_map Component.ports
             (parts_named (Netlist.Libsource.part (Netlist.Comp.libsource comp))
                          component_list) in
  Component.instance_name c = Netlist.Comp.ref comp
  /\ Component.name c = Netlist.Libsource.part (Netlist.Comp.libsource comp)
  /\ map Port.num (Component.ports c) = map Port.num library_ports
  /\ map Port.dirstr (Component.ports c) = map Port.dirstr library_ports
  /\ (parts_named (Netlist.Libsource.part (Netlist.Comp.libsource comp)) component_list = [] ->
      Component.ports c = [] /\ Component.component c = None).
Proof.
  unfold build_instance.
  set (part := Netlist.Libsource.part (Netlist.Comp.libsource comp)).
  destruct (attach_libparts_properties component_list (Component.from_comp comp) 0)
    as (_ & Hname & Hiname).
  destruct (attach_libparts_ports part component_list (Component.from_comp comp) 0 eq_refl)
    as (Hports & Hnone).
  cbn [Component.from_comp Component.ports Component.component Component.name
       Component.instance_name app] in Hports, Hnone, Hname, Hiname.
  destruct (mapM evaluate_property _) as [evaluated| |]; cbn [bind]; try discriminate.
  destruct (mapM _ (Component.ports _)) as [ports| |] eqn:Hdec; cbn [bind]; try discriminate.
  intros [= <-]. cbn zeta.
  cbn [Component.instance_name Component.name Component.ports Component.component].
  apply decoded_ports_keep in Hdec as [Hnum Hdir]. rewrite Hports in Hnum, Hdir.
  assert (Hcopy : forall (f : Port.t -> string) l,
            (forall p, f (Port.copy_port p) = f p) ->
            map f (flat_map (fun lp => map Port.copy_port (Component.ports lp)) l)
            = map f (flat_map Component.ports l)).
  { intros f l Hf. induction l as [|lp l IH]; [reflexivity|].
    cbn [flat_map]. rewrite !map_app, IH, map_map. f_equal. apply map_ext, Hf. }
  rewrite Hcopy in Hnum, Hdir by reflexivity.
  split; [exact Hiname|]. split; [exact Hname|]. split; [exact Hnum|]. split; [exact Hdir|].
  intros Hno. fold part in Hno. rewrite Hno in Hnum. cbn in Hnum.
  split; [|apply Hnone, Hno]. destruct ports; [reflexivity|discriminate].
Qed.

Lemma build_instance_ports_witness :
  exists c,
    build_instance [] (sample_comp "U7" "ADDER" "ADDER" []) = Return c
    /\ Component.instance_name c = "U7" /\ Component.ports c = []
    /\ Component.component c = None.
Proof.
  eexists. split; [reflexivity|].
  destruct (build_instance_ports [] (sample_comp "U7" "ADDER" "ADDER" []) _ eq_refl)
    as (Hname & _ & _ & _ & Hnone).
  split; [exact Hname|]. exact (Hnone eq_refl).
Defined.

(* ------------------------------------------------------------------------- *)
(** ** The pass over the nets: names, targets and signals *)

(** *** The name of a signal *)

Lemma prefix_empty (s : string) : String.prefix "" s = true.
Proof. destruct s; reflexivity. Qed.

(** Replacing leaves out what neither the text nor the replacement has. *)
Lemma replace_from_without c old new : forall s skip,
  Py.has_char c s = false -> Py.has_char c new = false ->
  Py.has_char c (Py.replace_from old new skip s) = false.
Proof.
  induction s as [|d t IH]; intros skip Hs Hn; [reflexivity|].
  cbn [Py.has_char] in Hs. apply orb_false_iff in Hs as [Hd Ht].
  cbn [Py.replace_from]. destruct skip as [|k]; [|apply IH; assumption].
  destruct (String.prefix old (String d t)).
  - rewrite has_char_app, Hn. apply IH; assumption.
  - cbn [Py.has_char]. rewrite Hd. apply IH; assumption.
Qed.

Lemma interleave_without c new s :
  Py.has_char c s = false -> Py.has_char c new = false ->
  Py.has_char c (Py.interleave new s) = false.
Proof.
  intros Hs Hn. induction s as [|d t IH]; [exact Hn|].
  cbn [Py.has_char] in Hs. apply orb_false_iff in Hs as [Hd Ht].
  cbn [Py.interleave]. rewrite has_char_app, Hn. cbn [Py.has_char]. rewrite Hd. apply IH, Ht.
Qed.

Lemma replace_without c s old new :
  Py.has_char c s = false -> Py.has_char c new = false ->
  Py.has_char c (Py.replace s old new) = false.
Proof.
  intros Hs Hn. unfold Py.replace. destruct old.
  - apply interleave_without; assumption.
  - apply replace_from_without; assumption.
Qed.

(** Replacing a character removes it. *)
Lemma replace_char_gone c new s :
  Py.has_char c new = false -> Py.has_char c (Py.replace s (String c "") new) = false.
Proof.
  intros Hn. unfold Py.replace. induction s as [|d t IH]; [reflexivity|].
  cbn [Py.replace_from String.prefix]. destruct (ascii_dec c d) as [<-|Hcd].
  - rewrite prefix_empty. cbn [String.length Nat.sub]. rewrite has_char_app, Hn. exact IH.
  - cbn [Py.has_char]. rewrite IH, orb_false_r.
    destruct (Ascii.eqb_spec d c); [congruence|reflexivity].
Qed.

Lemma strip_ranges_without c : forall s skip,
  Py.has_char c s = false -> Py.has_char c (Re.strip_ranges_from skip s) = false.
Proof.
  induction s as [|d t IH]; intros skip Hs; [reflexivity|].
  cbn [Py.has_char] in Hs. apply orb_false_iff in Hs as [Hd Ht].
  cbn [Re.strip_ranges_from]. destruct skip as [|k]; [|apply IH, Ht].
  destruct (Ascii.eqb d "(").
  - destruct (Re.range_match t); [apply IH, Ht|].
    cbn [Py.has_char]. rewrite Hd. apply IH, Ht.
  - cbn [Py.has_char]. rewrite Hd. apply IH, Ht.
Qed.

(** X13.  The name made for a signal has no slash, no dash and no
    parenthesis. *)
Theorem signal_name_characters (net_name : string) :
  Forall (fun c => Py.has_char c (signal_name net_name) = false) ["/"; "-"; "("; ")"]%char.
Proof.
  unfold signal_name. repeat constructor.
  - do 3 (apply replace_without; [|reflexivity]).
    apply strip_ranges_without, replace_char_gone. reflexivity.
  - do 2 (apply replace_without; [|reflexivity]).
    apply replace_char_gone. reflexivity.
  - apply replace_without; [|reflexivity]. apply replace_char_gone. reflexivity.
  - apply replace_char_gone. reflexivity.
Qed.

(** *** The targets a connected net sets *)

Lemma link_ports_fst name pin ci : forall ports pj found,
  fst (link_ports name pin ci pj ports found)
  = map (fun p => if Port.num p =? pin then Port.set_target name p else p) ports.
Proof.
  induction ports as [|port rest IH]; intros pj found; [reflexivity|].
  cbn [link_ports map]. destruct (Port.num port =? pin).
  - specialize (IH (S pj) (Some (ci, pj))).
    destruct (link_ports name pin ci (S pj) rest (Some (ci, pj))). cbn [fst] in *.
    rewrite IH. reflexivity.
  - specialize (IH (S pj) found).
    destruct (link_ports name pin ci (S pj) rest found). cbn [fst] in *.
    rewrite IH. reflexivity.
Qed.

Lemma link_components_fst name ref pin : forall insts ci found,
  fst (link_components name ref pin ci insts found)
  = map (fun c =>
           if Component.instance_name c =? ref
           then Component.set_ports
                  (map (fun p => if Port.num p =? pin then Port.set_target name p else p)
                       (Component.ports c)) c
           else c) insts.
Proof.
  induction insts as [|c rest IH]; intros ci found; [reflexivity|].
  cbn [link_components map]. destruct (Component.instance_name c =? ref).
  - pose proof (link_ports_fst name pin ci (Component.ports c) 0%nat found) as Hp.
    destruct (link_ports name pin ci 0 (Component.ports c) found) as [ports' found1].
    cbn [fst] in Hp. specialize (IH (S ci) found1).
    destruct (link_components name ref pin (S ci) rest found1). cbn [fst] in *.
    rewrite IH, Hp. reflexivity.
  - specialize (IH (S ci) found).
    destruct (link_components name ref pin (S ci) rest found). cbn [fst] in *.
    rewrite IH. reflexivity.
Qed.

Lemma linked_step name node nodes iname port :
  linked name nodes iname
    (if (iname =? Netlist.Node.ref node) && (Port.num port =? Netlist.Node.pin node)
     then Port.set_target name port else port)
  = linked name (node :: nodes) iname port.
Proof.
  unfold linked, named_by. cbn [existsb].
  destruct ((iname =? Netlist.Node.ref node) && (Port.num port =? Netlist.Node.pin node));
    cbn [orb]; [|reflexivity].
  cbn [Port.num Port.set_target]. destruct (existsb _ nodes); reflexivity.
Qed.

Lemma link_nodes_pointwise name nodes : forall insts conns,
  fst (fold_left (link_node name) nodes (insts, conns))
  = map (fun c => Component.set_ports
                    (map (linked name nodes (Component.instance_name c)) (Component.ports c)) c)
        insts.
Proof.
  induction nodes as [|node nodes IH]; intros insts conns.
  - cbn [fold_left fst]. rewrite <- (map_id insts) at 1. apply map_ext. intros c.
    unfold linked. cbn [named_by existsb]. rewrite map_id, set_ports_same. reflexivity.
  - cbn [fold_left]. unfold link_node at 2.
    pose proof (link_components_fst name (Netlist.Node.ref node) (Netlist.Node.pin node)
                  insts 0%nat None) as Hfst.
    destruct (link_components name (Netlist.Node.ref node) (Netlist.Node.pin node)
                0 insts None) as [insts1 found].
    cbn [fst] in Hfst. rewrite IH, Hfst, map_map. apply map_ext. intros c.
    destruct (Component.instance_name c =? Netlist.Node.ref node) eqn:E.
    + change (Component.set_ports ?y (Component.set_ports ?x c)) with (Component.set_ports y c).
      cbn [Component.set_ports Component.instance_name Component.ports Component.name
           Component.properties Component.component].
      rewrite map_map. f_equal. apply map_ext. intros p.
      rewrite <- linked_step, E. reflexivity.
    + f_equal. apply map_ext. intros p. rewrite <- linked_step, E. reflexivity.
Qed.

(** X14.  A net that is not unconnected sets the target of every port that
    one of its nodes names, by instance reference and pin number, to the name
    of the net: the name registered for its first node with a direct
    connection, or else its signal name.  Nothing else of any instance
    changes. *)
Theorem connected_net_sets_targets (direct_connects : gmap string string) (st : wiring)
    (net : Netlist.Net.t) :
  Py.startswith (Netlist.Net.name net) "unconnected" = false ->
  instances (process_net direct_connects st net)
  = map (fun c =>
           Component.set_ports
             (map (linked (net_name direct_connects net) (Netlist.Net.nodes net)
                          (Component.instance_name c))
                  (Component.ports c)) c)
        (instances st).
Proof.
  intros Hun. unfold process_net, net_name. rewrite Hun.
  destruct (direct_name direct_connects (Netlist.Net.nodes net)) as [registered|].
  - pose proof (link_nodes_pointwise registered (Netlist.Net.nodes net) (instances st) [])
      as Hl.
    destruct (fold_left (link_node registered) _ _) as [insts' conns]. cbn [fst] in Hl.
    destruct (fold_left (resolve_type insts' registered) conns ("", printed st)).
    cbn [instances]. exact Hl.
  - pose proof (link_nodes_pointwise (signal_name (Netlist.Net.name net))
                  (Netlist.Net.nodes net) (instances st) []) as Hl.
    destruct (fold_left (link_node _) _ _) as [insts' conns]. cbn [fst] in Hl.
    destruct (fold_left (resolve_type insts' _) conns ("", printed st)).
    cbn [instances]. exact Hl.
Qed.

Lemma connected_net_sets_targets_witness :
  instances (process_net {[ "P1" := "DW" ]} sample_wiring
               (Netlist.Net.mk "4" "/width" [sample_node "U1" "2"; sample_node "P1" "1"]))
  = map (fun c =>
           Component.set_ports
             (map (linked "DW" [sample_node "U1" "2"; sample_node "P1" "1"]
                          (Component.instance_name c))
                  (Component.ports c)) c)
        [sample_instance].
Proof.
  exact (connected_net_sets_targets {[ "P1" := "DW" ]} sample_wiring
           (Netlist.Net.mk "4" "/width" [sample_node "U1" "2"; sample_node "P1" "1"]) eq_refl).
Defined.

(** *** The signals of the net loop *)

Lemma tie_off_pins nodes insts : pins (tie_off insts nodes) = pins insts.
Proof.
  rewrite tie_off_pointwise. unfold pins. rewrite map_map. apply map_ext. intros c.
  cbn [Component.set_ports Component.instance_name Component.ports]. f_equal.
  rewrite map_map. apply map_ext. intros p. rewrite port_after_tied.
  destruct (named_by nodes (Component.instance_name c) p); reflexivity.
Qed.

(** One net: at most one signal, and no instance or pin added or removed. *)
Lemma process_net_signal dc st net :
  exists signal,
    signal_list (process_net dc st net)
    = (signal_list st ++ if makes_signal dc net then [signal] else [])%list
    /\ Signal.name signal = signal_name (Netlist.Net.name net)
    /\ Signal.code signal = Netlist.Net.code net
    /\ pins (instances (process_net dc st net)) = pins (instances st).
Proof.
  unfold process_net, makes_signal.
  destruct (Py.startswith (Netlist.Net.name net) "unconnected"); cbn [negb andb].
  - exists (Signal.mk (signal_name (Netlist.Net.name net)) (Netlist.Net.code net) "" []).
    cbn [signal_list instances]. rewrite app_nil_r, tie_off_pins. repeat split.
  - destruct (direct_name dc (Netlist.Net.nodes net)) as [registered|].
    + destruct (link_nodes_spec registered (Netlist.Net.nodes net) (instances st) [])
        as (insts' & new & Hfold & Hpins & _).
      rewrite Hfold. cbn [app].
      destruct (fold_left (resolve_type insts' registered) new ("", printed st)).
      exists (Signal.mk (signal_name (Netlist.Net.name net)) (Netlist.Net.code net) "" []).
      cbn [negb signal_list instances]. rewrite app_nil_r. repeat split. exact Hpins.
    + destruct (link_nodes_spec (signal_name (Netlist.Net.name net)) (Netlist.Net.nodes net)
                  (instances st) []) as (insts' & new & Hfold & Hpins & _).
      rewrite Hfold. cbn [app].
      destruct (fold_left (resolve_type insts' _) new ("", printed st)).
      eexists. cbn [negb signal_list instances]. split; [reflexivity|].
      repeat split. exact Hpins.
Qed.

Lemma process_nets_signals_pins (direct_connects : gmap string string)
    (nets : list Netlist.Net.t) (st : wiring) :
  map (fun signal => (Signal.name signal, Signal.code signal))
      (signal_list (process_nets direct_connects nets st))
  = (map (fun signal => (Signal.name signal, Signal.code signal)) (signal_list st)
     ++ map (fun net => (signal_name (Netlist.Net.name net), Netlist.Net.code net))
            (List.filter (makes_signal direct_connects) nets))%list
  /\ pins (instances (process_nets direct_connects nets st)) = pins (instances st).
Proof.
  unfold process_nets. revert st. induction nets as [|net nets IH]; intros st.
  - cbn. rewrite app_nil_r. split; reflexivity.
  - cbn [fold_left List.filter].
    destruct (process_net_signal direct_connects st net) as (signal & Hs & Hn & Hc & Hp).
    destruct (IH (process_net direct_connects st net)) as [IH1 IH2].
    rewrite IH1, IH2, Hs, Hp. split; [|reflexivity].
    destruct (makes_signal direct_connects net).
    + rewrite map_app, <- app_assoc. cbn [map app]. rewrite Hn, Hc. reflexivity.
    + rewrite app_nil_r. reflexivity.
Qed.

(** X15.  The net loop appends one signal for every net that is neither
    unconnected nor directly connected, in the order of the nets, with the
    signal name and the code of the net, and none for the others; it adds or
    removes no instance and no pin. *)
Theorem process_nets_signals (direct_connects : gmap string string)
    (nets : list Netlist.Net.t) (st : wiring) :
  map (fun signal => (Signal.name signal, Signal.code signal))
      (signal_list (process_nets direct_connects nets st))
  = (map (fun signal => (Signal.name signal, Signal.code signal)) (signal_list st)
     ++ map (fun net => (signal_name (Netlist.Net.name net), Netlist.Net.code net))
            (List.filter (makes_signal direct_connects) nets))%list
  /\ pins (instances (process_nets direct_connects nets st)) = pins (instances st).
Proof. exact (process_nets_signals_pins direct_connects nets st). Qed.

(** *** The type of a signal *)

Lemma resolve_types insts name conns : forall ty printed,
  fst (fold_left (resolve_type insts name) conns (ty, printed))
  = first_type (ty :: omap (connection_type insts) conns).
Proof.
  induction conns as [|conn conns IH]; intros ty printed.
  - unfold first_type. cbn [fold_left fst omap List.filter]. unfold nonempty.
    destruct (ty =? "") eqn:E; [|reflexivity].
    apply String.eqb_eq in E. exact E.
  - cbn [fold_left].
    change (omap (connection_type insts) (conn :: conns))
      with (match connection_type insts conn with
            | Some y => y :: omap (connection_type insts) conns
            | None => omap (connection_type insts) conns
            end).
    destruct (resolve_type insts name (ty, printed) conn) as [ty' printed'] eqn:Estep.
    rewrite IH. unfold resolve_type in Estep. unfold connection_type at 2.
    destruct (Connection.port conn) as [at_|]; [|injection Estep as <- <-; reflexivity].
    destruct (port_at insts at_) as [port|]; cbn [option_map];
      [|injection Estep as <- <-; reflexivity].
    unfold first_type. cbn [List.filter]. unfold nonempty.
    destruct (ty =? "") eqn:E; cbn [negb].
    + injection Estep as <- <-. reflexivity.
    + destruct (negb (ty =? Port.vhdl_type port)); injection Estep as <- <-;
        rewrite E; reflexivity.
Qed.

(** X16.  The type of the signal of a net is the first type that is not
    empty among the ports its connections point to, in the order of the
    connections, and empty when there is none. *)
Theorem signal_takes_first_type (direct_connects : gmap string string) (st : wiring)
    (net : Netlist.Net.t) :
  makes_signal direct_connects net = true ->
  exists signal,
    signal_list (process_net direct_connects st net) = (signal_list st ++ [signal])%list
    /\ Signal.vhdl_type signal
       = first_type (omap (connection_type (instances (process_net direct_connects st net)))
                          (Signal.connections signal)).
Proof.
  unfold makes_signal, process_net. intros H. apply andb_true_iff in H as [Hun Hd].
  apply negb_true_iff in Hun. rewrite Hun.
  destruct (direct_name direct_connects (Netlist.Net.nodes net)); [discriminate Hd|].
  destruct (fold_left (link_node _) _ _) as [insts conns].
  pose proof (resolve_types insts (signal_name (Netlist.Net.name net)) conns "" (printed st))
    as Hty.
  destruct (fold_left (resolve_type insts _) conns _) as [ty out]. cbn [fst] in Hty.
  cbn [negb signal_list instances]. eexists. split; [reflexivity|].
  cbn [Signal.vhdl_type Signal.connections]. rewrite Hty. reflexivity.
Qed.

Lemma signal_takes_first_type_witness :
  exists signal,
    signal_list (process_net ∅ sample_wiring
                   (Netlist.Net.mk "7" "/a" [sample_node "U9" "1"; sample_node "U1" "2";
                                             sample_node "U1" "3"]))
    = ([] ++ [signal])%list
    /\ Signal.vhdl_type signal
       = first_type
           (omap (connection_type
                    (instances (process_net ∅ sample_wiring
                                  (Netlist.Net.mk "7" "/a"
                                     [sample_node "U9" "1"; sample_node "U1" "2";
                                      sample_node "U1" "3"]))))
                 (Signal.connections signal)).
Proof.
  exact (signal_takes_first_type ∅ sample_wiring
           (Netlist.Net.mk "7" "/a" [sample_node "U9" "1"; sample_node "U1" "2";
                                     sample_node "U1" "3"]) eq_refl).
Defined.

(* ------------------------------------------------------------------------- *)
(** ** The libraries *)

Lemma contains_prefix (p s : string) : String.prefix p s = true -> Py.contains p s = true.
Proof. intros H. destruct s; cbn [Py.contains]; rewrite H; reflexivity. Qed.

(** A text that has a word has the word without its first letter. *)
Lemma contains_shorter c (sub s : string) :
  Py.contains (String c sub) s = true -> Py.contains sub s = true.
Proof.
  induction s as [|d t IH]; intros H; [discriminate H|].
  cbn [Py.contains] in H. apply orb_true_iff in H.
  assert (Ht : Py.contains sub t = true).
  { destruct H as [H|H]; [|exact (IH H)].
    cbn [String.prefix] in H. destruct (ascii_dec c d); [|discriminate].
    apply contains_prefix, H. }
  cbn [Py.contains]. rewrite Ht. apply orb_true_r.
Qed.

Lemma note_type_library d ty :
  note_type d ty = match library_of ty with
                   | Some lib => dict_set lib d
                   | None => d
                   end.
Proof.
  unfold note_type, library_of.
  destruct (Py.contains "unsigned" ty) eqn:Eu.
  - rewrite (contains_shorter _ _ _ (contains_shorter _ _ _ Eu)). reflexivity.
  - destruct (Py.contains "signed" ty); [reflexivity|].
    destruct (Py.contains "sfixed" ty); [reflexivity|].
    destruct (Py.contains "ufixed" ty); reflexivity.
Qed.

Lemma existsb_eqb_In key d : existsb (String.eqb key) d = true <-> In key d.
Proof.
  rewrite existsb_exists. split.
  - intros (x & Hx & E). apply String.eqb_eq in E. subst. exact Hx.
  - intros H. exists key. split; [exact H|apply String.eqb_refl].
Qed.

Lemma dict_set_spec key d :
  (exists more, dict_set key d = d ++ more)%list
  /\ (NoDup d -> NoDup (dict_set key d))
  /\ (forall lib, In lib (dict_set key d) <-> In lib d \/ lib = key).
Proof.
  unfold dict_set. destruct (existsb (String.eqb key) d) eqn:E.
  - apply existsb_eqb_In in E. split; [exists []; rewrite app_nil_r; reflexivity|].
    split; [auto|]. intros lib. split; [auto|]. intros [H| ->]; assumption.
  - assert (Hn : ~ In key d) by (rewrite <- existsb_eqb_In, E; discriminate).
    split; [eexists; reflexivity|]. split.
    + intros Hd. apply NoDup_app. split; [exact Hd|]. split.
      * intros x Hx Hx'. apply list_elem_of_In in Hx. apply list_elem_of_In in Hx'.
        destruct Hx' as [->|[]]. exact (Hn Hx).
      * apply NoDup_singleton.
    + intros lib. rewrite in_app_iff. cbn [In]. intuition auto.
Qed.

Lemma note_types_spec types : forall d,
  (exists more, fold_left note_type types d = d ++ more)%list
  /\ (NoDup d -> NoDup (fold_left note_type types d))
  /\ (forall lib, In lib (fold_left note_type types d)
                  <-> In lib d \/ exists ty, In ty types /\ library_of ty = Some lib).
Proof.
  induction types as [|ty types IH]; intros d.
  - cbn. split; [exists []; rewrite app_nil_r; reflexivity|]. split; [auto|].
    intros lib. split; [auto|]. intros [H|(ty & [] & _)]. exact H.
  - cbn [fold_left]. destruct (IH (note_type d ty)) as ((more & Hm) & Hnd & Hin).
    rewrite note_type_library in *.
    destruct (library_of ty) as [key|] eqn:Ek.
    + destruct (dict_set_spec key d) as ((more' & Hm') & Hnd' & Hin').
      split; [exists (more' ++ more)%list; rewrite Hm, Hm', app_assoc; reflexivity|].
      split; [auto|]. intros lib. rewrite Hin, Hin'. cbn [In]. split.
      * intros [[H| ->]|(ty' & H1 & H2)]; [auto|right; exists ty; auto|right; exists ty'; auto].
      * intros [H|(ty' & [<-|H1] & H2)];
          [auto|left; right; congruence|right; exists ty'; auto].
    + split; [exists more; exact Hm|]. split; [exact Hnd|].
      intros lib. rewrite Hin. cbn [In]. split.
      * intros [H|(ty' & H1 & H2)]; [auto|right; exists ty'; auto].
      * intros [H|(ty' & [<-|H1] & H2)]; [auto|congruence|right; exists ty'; auto].
Qed.

Lemma note_components comps : forall d,
  fold_left (fun d comp => fold_left note_type (component_types comp) d) comps d
  = fold_left note_type (flat_map component_types comps) d.
Proof.
  induction comps as [|comp comps IH]; intros d; [reflexivity|].
  cbn [fold_left flat_map]. rewrite fold_left_app. apply IH.
Qed.

Lemma library_list_fold gl pl cl compl instl :
  library_list gl pl cl compl instl
  = fold_left note_type (all_types gl pl cl compl instl) ["IEEE.std_logic_1164.all"].
Proof.
  unfold library_list, all_types. cbn zeta.
  rewrite note_components, <- fold_left_app, <- !app_assoc. reflexivity.
Qed.

(** X17.  The list of libraries has no duplicate and opens with
    [IEEE.std_logic_1164.all]; it has [IEEE.numeric_std.all] exactly when some
    type contains [signed], and [IEEE.fixed_pkg.all] exactly when some type
    without [signed] contains [sfixed] or [ufixed]; and it has nothing
    else. *)
Theorem library_list_libraries (generic_list : list Generic.t) (port_list : list Port.t)
    (constant_list : list Generic.t) (component_list instance_list : list Component.t) :
  let types := all_types generic_list port_list constant_list component_list instance_list in
  let libraries :=
    library_list generic_list port_list constant_list component_list instance_list in
  NoDup libraries
  /\ hd "" libraries = "IEEE.std_logic_1164.all"
  /\ (In "IEEE.numeric_std.all" libraries
      <-> Exists (fun ty => Py.contains "signed" ty = true) types)
  /\ (In "IEEE.fixed_pkg.all" libraries
      <-> Exists (fun ty => Py.contains "signed" ty = false
                            /\ (Py.contains "sfixed" ty = true
                                \/ Py.contains "ufixed" ty = true)) types)
  /\ Forall (fun lib => In lib ["IEEE.std_logic_1164.all"; "IEEE.numeric_std.all";
                                "IEEE.fixed_pkg.all"]) libraries.
Proof.
  cbn zeta. rewrite library_list_fold.
  set (types := all_types _ _ _ _ _).
  destruct (note_types_spec types ["IEEE.std_logic_1164.all"]) as ((more & Hm) & Hnd & Hin).
  split; [apply Hnd, NoDup_singleton|]. split; [rewrite Hm; reflexivity|].
  split; [|split].
  - rewrite Hin, Exists_exists. cbn [In]. split.
    + intros [[H|[]]|(ty & H1 & H2)]; [discriminate H|].
      exists ty. split; [apply list_elem_of_In, H1|].
      unfold library_of in H2. destruct (Py.contains "signed" ty); [reflexivity|].
      destruct (_ || _); discriminate H2.
    + intros (ty & H1 & H2). right. exists ty. split; [apply list_elem_of_In, H1|].
      unfold library_of. rewrite H2. reflexivity.
  - rewrite Hin, Exists_exists. cbn [In]. split.
    + intros [[H|[]]|(ty & H1 & H2)]; [discriminate H|].
      exists ty. split; [apply list_elem_of_In, H1|].
      unfold library_of in H2. destruct (Py.contains "signed" ty); [discriminate H2|].
      split; [reflexivity|].
      destruct (Py.contains "sfixed" ty); [auto|].
      destruct (Py.contains "ufixed" ty); [auto|discriminate H2].
    + intros (ty & H1 & H2 & H3). right. exists ty. split; [apply list_elem_of_In, H1|].
      unfold library_of. rewrite H2.
      destruct H3 as [-> | ->]; [reflexivity|rewrite orb_true_r; reflexivity].
  - apply Forall_forall. intros lib Hlib. apply list_elem_of_In in Hlib.
    apply Hin in Hlib. cbn [In] in *.
    destruct Hlib as [[<-|[]]|(ty & _ & H2)]; [auto|].
    unfold library_of in H2. destruct (Py.contains "signed" ty); [injection H2 as <-; auto|].
    destruct (_ || _); [injection H2 as <-; auto|discriminate H2].
Qed.

(* ------------------------------------------------------------------------- *)
(** ** The types of the generics *)

Lemma prefix_split (p s : string) : String.prefix p s = true -> exists r, s = p +:+ r.
Proof.
  revert s. induction p as [|c p IH]; intros s H; [exists s; reflexivity|].
  destruct s as [|d t]; [discriminate H|]. cbn [String.prefix] in H.
  destruct (ascii_dec c d) as [<-|]; [|discriminate H].
  destruct (IH t H) as [r ->]. exists r. reflexivity.
Qed.

(** Replacing keeps a character that the replaced word does not have. *)
Lemma replace_keeps c old new : forall s,
  Py.has_char c old = false -> Py.has_char c s = true ->
  Py.has_char c (Py.replace s old new) = true.
Proof.
  intros s Hold. destruct old as [|a o].
  { unfold Py.replace. induction s as [|d t IH]; intros H; [discriminate H|].
    cbn [Py.interleave]. rewrite has_char_app. cbn [Py.has_char] in *.
    apply orb_true_iff in H as [->|H]; [apply orb_true_r|].
    rewrite (IH H), !orb_true_r. reflexivity. }
  remember (String.length s) as n eqn:Hn. revert s Hn.
  induction n as [n IH] using lt_wf_ind. intros s Hn H.
  destruct (String.prefix (String a o) s) eqn:Hp.
  - destruct (prefix_split _ _ Hp) as [r ->].
    rewrite replace_prefix by discriminate.
    rewrite has_char_app, Hold in H. cbn [orb] in H.
    rewrite has_char_app, (IH (String.length r)); [apply orb_true_r| |reflexivity|exact H].
    rewrite Hn, string_app_length. cbn [String.length]. lia.
  - destruct s as [|d t]; [discriminate H|].
    unfold Py.replace. cbn [Py.replace_from]. rewrite Hp.
    cbn [Py.has_char] in *. apply orb_true_iff in H as [->|H]; [reflexivity|].
    apply orb_true_iff. right.
    apply (IH (String.length t)); [cbn [String.length] in Hn; lia|reflexivity|exact H].
Qed.

(** X18.  The type of a generic or constant of the module ends without any
    colon.  The type of a generic of a library component is its [typestr]
    with [slv] spelled out, the colons still in it. *)
Theorem generic_types_finished (gen : Generic.t) :
  Py.has_char ":" (Generic.vhdl_type (finish_generic gen)) = false
  /\ Generic.vhdl_type (finish_library_generic gen)
     = Py.replace (Generic.typestr gen) "slv" "std_logic_vector"
  /\ (Py.has_char ":" (Generic.typestr gen) = true ->
      Py.has_char ":" (Generic.vhdl_type (finish_library_generic gen)) = true).
Proof.
  assert (Hdef : forall g, Generic.vhdl_type (set_default_text g) = Generic.vhdl_type g).
  { intros g. unfold set_default_text. destruct (negb _); reflexivity. }
  unfold finish_generic, finish_library_generic. cbn zeta. rewrite !Hdef.
  cbn [Generic.vhdl_type Generic.set_vhdl_type Generic.typestr].
  split; [|split].
  - apply replace_without; [|reflexivity]. apply replace_char_gone. reflexivity.
  - reflexivity.
  - intros H. apply replace_keeps; [reflexivity|exact H].
Qed.

Lemma generic_types_finished_witness :
  Py.has_char ":" (Generic.vhdl_type (finish_library_generic
                                        (Generic.mk "W" "" "slv 7:0" "" "" "" "" ";" "," ""
                                                    "0" "0" "1"))) = true.
Proof.
  apply (generic_types_finished (Generic.mk "W" "" "slv 7:0" "" "" "" "" ";" "," ""
                                            "0" "0" "1")).
  reflexivity.
Defined.

(* ------------------------------------------------------------------------- *)
(** ** From the library generator to the netlist and back *)

Lemma str_of_int_nonempty z : nonempty (Py.str_of_int z) = true.
Proof.
  destruct (str_of_int_first z) as (c & t & -> & _). reflexivity.
Qed.

Lemma returned_direction_spec mode :
  Component.pin_dirstr (electrical_type mode) = returned_direction mode.
Proof.
  unfold electrical_type, returned_direction.
  destruct (one_of mode ["input"; "in"]); [reflexivity|].
  unfold one_of. cbn [existsb].
  destruct (Py.lower mode =? "output"); [reflexivity|].
  destruct (Py.lower mode =? "out"); [reflexivity|].
  destruct (Py.lower mode =? "inout"); reflexivity.
Qed.

(** X19.  A port of the HDL with a plain name and integer bounds, taken
    through [port_name] and [electrical_type] into a pin and back through
    [from_libpart] and [update_from_name]: it keeps its name, its pin number
    and its bounds; the direction is [in], [out], [inout] or [unspecified] by
    its mode; [std_logic_vector], [signed] and [unsigned] come back as they
    were, [sfixed] as [signed] and [ufixed] as [unsigned]; [std_logic] and
    [boolean] both come back as [std_logic]. *)
Theorem library_pin_decodes (num : string) (port : VhdlParameter.t) (H L : Z) :
  let dt := VhdlParameter.data_type port in
  let lowered := Py.lower (VhdlParameterType.name dt) in
  let pin_port := Component.pin_port (library_pin num port) in
  plain_name (VhdlParameter.name port) = true ->
  VhdlParameterType.l_bound dt = Py.str_of_int H ->
  VhdlParameterType.r_bound dt = Py.str_of_int L ->
  Port.dirstr pin_port = returned_direction (VhdlParameter.mode port)
  /\ Port.num pin_port = num
  /\ (forall ty,
        returned_type lowered = Some ty ->
        Port.update_from_name pin_port [] true
        = Return (Port.set_parsed
                    (ty +:+ "(" +:+ Py.str_of_int H +:+ " downto " +:+ Py.str_of_int L +:+ ")")
                    (Py.str_of_int H) (Py.str_of_int L) (Py.str_of_int (H - L + 1))
                    (Port.set_name (VhdlParameter.name port) pin_port)))
  /\ (one_of lowered ["std_logic"; "boolean"] = true ->
      Port.update_from_name pin_port [] true
      = Return (Port.set_parsed "std_logic" "0" "0" "1" pin_port)
      /\ Port.name pin_port = VhdlParameter.name port).
Proof.
  cbn zeta. intros Hname Hl Hr.
  split; [apply returned_direction_spec|]. split; [reflexivity|].
  set (self := Component.pin_port (library_pin num port)).
  assert (Hpin : self = Port.set_name (port_name port) self) by reflexivity.
  assert (Hport : Port.name self = port_name port) by reflexivity.
  set (lowered := Py.lower (VhdlParameterType.name (VhdlParameter.data_type port))).
  assert (Hname_of : port_name port
            = VhdlParameter.name port
              +:+ (if one_of lowered ["std_logic"; "boolean"] then ""
                   else if one_of lowered ["std_logic_vector"; "slv"]
                        then "(" +:+ (Py.str_of_int H +:+ ":" +:+ Py.str_of_int L) +:+ ")"
                   else if one_of lowered ["sfixed"; "signed"]
                        then "(" +:+ ("s" +:+ Py.str_of_int H +:+ ":" +:+ Py.str_of_int L)
                             +:+ ")"
                   else if one_of lowered ["ufixed"; "unsigned"]
                        then "(" +:+ ("u" +:+ Py.str_of_int H +:+ ":" +:+ Py.str_of_int L)
                             +:+ ")"
                   else "(" +:+ VhdlParameterType.name (VhdlParameter.data_type port) +:+ " "
                        +:+ (Py.str_of_int H +:+ ":" +:+ Py.str_of_int L) +:+ ")")).
  { unfold port_name. rewrite Hl, Hr, !str_of_int_nonempty. cbn [andb]. fold lowered.
    repeat (destruct (one_of lowered _); [reflexivity|]). reflexivity. }
  destruct (str_of_int_shape H) as (Hp & Hu & _).
  destruct (str_of_int_shape L) as (Lp & _ & _).
  assert (Hletters : forall letters ty,
            In (letters, ty) type_letters ->
            Port.update_from_name
              (Port.set_name
                 (VhdlParameter.name port
                  +:+ "(" +:+ (letters +:+ Py.str_of_int H +:+ ":" +:+ Py.str_of_int L) +:+ ")")
                 self) [] true
            = Return (Port.set_parsed
                        (ty +:+ "(" +:+ Py.str_of_int H +:+ " downto " +:+ Py.str_of_int L
                         +:+ ")")
                        (Py.str_of_int H) (Py.str_of_int L) (Py.str_of_int (H - L + 1))
                        (Port.set_name (VhdlParameter.name port) self))).
  { intros letters ty Hin.
    apply (update_from_name_hinted self [] true _ _ ty (PyStr (Py.str_of_int H))
             (PyStr (Py.str_of_int L)) (PyInt H) (PyInt L) Hname).
    - rewrite has_char_app, numerals_chars by auto.
      unfold type_letters in Hin. cbn [In] in Hin.
      destruct Hin as [[= <- <-]|[[= <- <-]|[[= <- <-]|[[= <- <-]|[]]]]]; reflexivity.
    - apply numerals_colon.
    - apply split_hint_letters, Hin.
    - apply parse_portsize_part_numeral.
    - apply parse_portsize_part_numeral. }
  split.
  - intros ty Hty. rewrite Hpin at 1. rewrite Hname_of. unfold returned_type in Hty.
    destruct (one_of lowered ["std_logic"; "boolean"]); [discriminate Hty|].
    destruct (one_of lowered ["std_logic_vector"; "slv"]).
    { injection Hty as <-. rewrite !string_app_assoc.
      exact (update_from_name_plain_range self [] true _ _ _ (PyInt H) (PyInt L) Hname Hp Lp Hu
               (parse_portsize_part_numeral H) (parse_portsize_part_numeral L)). }
    destruct (one_of lowered ["sfixed"; "signed"]).
    { injection Hty as <-. apply (Hletters "s" "signed"). right. left. reflexivity. }
    destruct (one_of lowered ["ufixed"; "unsigned"]); [|discriminate Hty].
    injection Hty as <-. apply (Hletters "u" "unsigned"). left. reflexivity.
  - intros Hstd. rewrite Hport, Hname_of, Hstd, string_app_nil_r. split; [|reflexivity].
    unfold Port.update_from_name. rewrite Hport, Hname_of, Hstd, string_app_nil_r.
    apply andb_true_iff in Hname as [_ Hparen]. apply negb_true_iff in Hparen.
    rewrite (name_hint_absent _ Hparen). reflexivity.
Qed.

Lemma library_pin_decodes_witness :
  Port.update_from_name
    (Component.pin_port
       (library_pin "3" (VhdlParameter.mk "acc" "in"
                           (VhdlParameterType.mk "sfixed" "downto" "-4" "3" "(3 downto -4)")
                           "" "")))
    [] true
  = Return (Port.set_parsed "signed(3 downto -4)" "3" "-4" "8"
              (Port.set_name "acc"
                 (Component.pin_port
                    (library_pin "3" (VhdlParameter.mk "acc" "in"
                                        (VhdlParameterType.mk "sfixed" "downto" "-4" "3"
                                                              "(3 downto -4)")
                                        "" ""))))).
Proof.
  destruct (library_pin_decodes "3"
              (VhdlParameter.mk "acc" "in"
                 (VhdlParameterType.mk "sfixed" "downto" "-4" "3" "(3 downto -4)") "" "")
              3 (-4) eq_refl eq_refl eq_refl) as (_ & _ & Hty & _).
  exact (Hty "signed" eq_refl).
Defined.

(** *** The key of a generic *)

Lemma rcut_absent pat s : pat <> "" -> Py.contains pat s = false -> Re.rcut pat s = None.
Proof.
  intros Hne. induction s as [|c t IH]; intros H; [reflexivity|].
  cbn [Py.contains] in H. apply orb_false_iff in H as [Hp Ht].
  cbn [Re.rcut]. rewrite (IH Ht), Hp. reflexivity.
Qed.

Lemma drop_app_length (p s : string) : Py.drop (String.length p) (p +:+ s) = s.
Proof.
  induction p as [|c p IH]; [destruct s; reflexivity|].
  rewrite string_app_cons. cbn [String.length Py.drop]. exact IH.
Qed.

(** The cut at the last occurrence of a word. *)
Lemma rcut_last c (o a b : string) :
  Py.contains (String c o) (o +:+ b) = false ->
  Re.rcut (String c o) (a +:+ String c o +:+ b) = Some (a, b).
Proof.
  intros H. induction a as [|x a IH].
  - change ("" +:+ String c o +:+ b) with (String c (o +:+ b)).
    assert (Hne : String c o <> "") by discriminate.
    cbn [Re.rcut]. rewrite (rcut_absent _ _ Hne H).
    change (String c (o +:+ b)) with (String c o +:+ b).
    rewrite prefix_app, drop_app_length. reflexivity.
  - rewrite string_app_cons. cbn [Re.rcut]. rewrite IH. reflexivity.
Qed.

Lemma contains_char c s : Py.contains (String c "") s = Py.has_char c s.
Proof.
  induction s as [|d t IH]; [reflexivity|].
  cbn [Py.contains Py.has_char String.prefix]. rewrite IH, prefix_empty.
  destruct (ascii_dec c d) as [<-|Hcd].
  - rewrite Ascii.eqb_refl. reflexivity.
  - destruct (Ascii.eqb_spec d c); [congruence|reflexivity].
Qed.

Lemma property_pattern_key (name ty desc : string) :
  Py.has_char Py.LF name = false -> Py.has_char Py.LF ty = false ->
  Py.has_char Py.LF desc = false ->
  Py.has_char "(" ty = false -> Py.contains ") -- " desc = false ->
  Re.property_pattern (name +:+ "(" +:+ ty +:+ ") -- " +:+ desc) = Some (name, ty, desc).
Proof.
  intros Hn Ht Hd Hparen Hdesc.
  unfold Re.property_pattern. rewrite split_no_sep.
  2: { rewrite !has_char_app, Hn, Ht, Hd. reflexivity. }
  cbn [Re.first_match]. unfold Re.property_pattern_line.
  rewrite <- (string_app_assoc "(" ty), <- (string_app_assoc name).
  rewrite (rcut_last ")" " -- " (name +:+ "(" +:+ ty) desc).
  2: { destruct desc as [|d0 d]; [reflexivity|]. cbn [Py.contains String.prefix] in *.
       cbn. exact Hdesc. }
  rewrite (rcut_last "(" "" name ty).
  2: { change ("" +:+ ty) with ty. rewrite contains_char. exact Hparen. }
  reflexivity.
Qed.

(** X20.  The key [create_symbols] gives the property of a generic is read
    back by [from_libpart] and by [from_comp] as the same name, type and
    description, with [integer] for a missing type, when the three are on one
    line, the type has no opening parenthesis and the description does not
    contain a closing parenthesis followed by [ -- ]. *)
Theorem generic_key_decodes (name data_type desc value : string) :
  Py.has_char Py.LF name = false -> Py.has_char Py.LF data_type = false ->
  Py.has_char Py.LF desc = false ->
  Py.has_char "(" data_type = false -> Py.contains ") -- " desc = false ->
  let typestr := if nonempty data_type then data_type else "integer" in
  Component.libpart_generics [Netlist.Field.mk (generic_key name data_type desc) value]
  = [Generic.mk name "" typestr value "" desc value ";" "," "" "0" "0" "1"]
  /\ Component.comp_generics
       [Netlist.CompProperty.mk (generic_key name data_type desc) value]
     = [Generic.mk name "" typestr "" "" desc value ";" "," "" "0" "0" "1"].
Proof.
  intros Hn Ht Hd Hparen Hdesc. cbn zeta.
  assert (Hkey : Re.property_pattern (generic_key name data_type desc)
                 = Some (name, if nonempty data_type then data_type else "integer", desc)).
  { unfold generic_key. cbn zeta.
    destruct (nonempty data_type); apply property_pattern_key; auto. }
  cbn [Component.libpart_generics Component.comp_generics Netlist.Field.name
       Netlist.Field.value Netlist.CompProperty.name Netlist.CompProperty.value].
  rewrite Hkey. split; reflexivity.
Qed.

Lemma generic_key_decodes_witness :
  Component.libpart_generics
    [Netlist.Field.mk (generic_key "DW" "" "data width (bits)") "8"]
  = [Generic.mk "DW" "" "integer" "8" "" "data width (bits)" "8" ";" "," "" "0" "0" "1"].
Proof.
  apply (generic_key_decodes "DW" "" "data width (bits)" "8"); reflexivity.
Defined.

(* ------------------------------------------------------------------------- *)
(** ** [get_porttype] *)

Lemma span_ints high low len :
  span high low = Return len ->
  exists h l, high = PyInt h /\ low = PyInt l /\ len = PyInt (h - l + 1).
Proof.
  destruct high as [h|], low as [l|]; try discriminate.
  intros [= <-]. eauto.
Qed.

(** X21.  When [get_porttype] returns: the name has no hint and the port is
    a [std_logic] of length 1; or the hint is [b] and the port is a
    [boolean]; or the hint opens with neither [u] nor [s] and contains a
    colon, and the bounds are ints with the length [high - low + 1].  It
    returns on no other name. *)
Theorem get_porttype_returns (port_typestr : string) (generic_list : list Generic.t)
    (p : TypedPort.t) :
  get_porttype port_typestr generic_list = Return p ->
  match Re.name_hint port_typestr with
  | None => p = TypedPort.mk port_typestr "std_logic" (PyInt 0) (PyInt 0) (PyInt 1)
  | Some (part0, hint) =>
      if hint =? "b" then p = TypedPort.mk part0 "boolean" (PyInt 0) (PyInt 0) (PyInt 1)
      else
        untyped hint = true
        /\ Py.has_char ":" hint = true
        /\ TypedPort.name p = part0
        /\ exists h l,
             TypedPort.high p = PyInt h /\ TypedPort.low p = PyInt l
             /\ TypedPort.length p = PyInt (h - l + 1)
  end.
Proof.
  unfold get_porttype.
  destruct (Re.name_hint port_typestr) as [[part0 hint]|]; [|intros [= <-]; reflexivity].
  destruct (hint =? "b"); [intros [= <-]; reflexivity|].
  unfold untyped.
  destruct (Py.startswith hint "uf") eqn:Euf; cbn [bind]; [discriminate|].
  destruct (Py.startswith hint "u") eqn:Eu; cbn [bind]; [discriminate|].
  destruct (Py.startswith hint "sf") eqn:Esf; cbn [bind]; [discriminate|].
  destruct (Py.startswith hint "s") eqn:Es; cbn [bind]; [discriminate|].
  destruct (Py.has_char ":" hint) eqn:Ecolon.
  - intros H. split; [reflexivity|]. split; [reflexivity|].
    destruct (if Py.has_char " " hint then _ else _) as [[ty rest]| |]; cbn [bind] in H;
      try discriminate.
    destruct (if (_ =? 1)%nat then _ else _) as [[hs ls]| |]; cbn [bind] in H;
      try discriminate.
    destruct (parse_portsize_part hs generic_list) as [high| |]; cbn [bind] in H;
      try discriminate.
    destruct (parse_portsize_part ls generic_list) as [low| |]; cbn [bind] in H;
      try discriminate.
    destruct (span high low) as [len| |] eqn:Hspan; cbn [bind] in H; try discriminate.
    injection H as <-. cbn [TypedPort.name TypedPort.high TypedPort.low TypedPort.length].
    split; [reflexivity|]. apply span_ints in Hspan as (h & l & -> & -> & ->). eauto.
  - intros H. exfalso.
    assert (Hrest : exists (ty rest : string),
              (if Py.has_char " " hint
               then let* ty := index (Py.split " " hint) 0 in
                    let* rest := index (Py.split " " hint) 1 in
                    Return (ty, rest)
               else Return ("std_logic_vector", hint)) = Return (ty, rest)
              /\ Py.has_char ":" rest = false).
    { destruct (Py.has_char " " hint) eqn:Hsp; [|eauto].
      pose proof (split_without ":" " " hint Ecolon) as Hparts.
      destruct (split_two _ _ Hsp) as (a & b & r & E). rewrite E in *.
      cbn [index lookup list_lookup bind].
      inversion Hparts as [|? ? _ Hr]; subst. inversion Hr; subst. eauto. }
    destruct Hrest as (ty & rest & Hrest & Hno). rewrite Hrest in H. cbn [bind] in H.
    rewrite (split_no_sep _ _ Hno) in H. cbn [List.length Nat.eqb index lookup list_lookup bind]
      in H.
    destruct (parse_portsize_part (PyStr rest) generic_list); cbn [bind] in H; discriminate.
Qed.

Lemma get_porttype_returns_witness :
  exists h l,
    TypedPort.high (TypedPort.mk "d" "std_logic_vector" (PyInt 7) (PyInt 0) (PyInt 8)) = PyInt h
    /\ TypedPort.low (TypedPort.mk "d" "std_logic_vector" (PyInt 7) (PyInt 0) (PyInt 8))
       = PyInt l
    /\ TypedPort.length (TypedPort.mk "d" "std_logic_vector" (PyInt 7) (PyInt 0) (PyInt 8))
       = PyInt (h - l + 1).
Proof.
  exact (proj2 (proj2 (proj2
           (get_porttype_returns "d(DW-1:0)" [integer_generic "DW" "8"]
              (TypedPort.mk "d" "std_logic_vector" (PyInt 7) (PyInt 0) (PyInt 8)) eq_refl)))).
Defined.

(* ------------------------------------------------------------------------- *)
(** ** [netlist.py]: reading the S-expression *)

Lemma foldM_app {A B} (f : B -> A -> outcome B) l1 l2 b :
  foldM f (l1 ++ l2) b = let* b' := foldM f l1 b in foldM f l2 b'.
Proof.
  revert b. induction l1 as [|a l1 IH]; intros b; [reflexivity|].
  cbn [app foldM]. destruct (f b a); cbn [bind]; [apply IH|reflexivity..].
Qed.

Lemma when_key_headed {A} item key (act : A -> outcome A) object r :
  Sexpr.when_key item key act object = Return r ->
  if headed key item then act object = Return r else r = object.
Proof.
  unfold Sexpr.when_key, headed.
  destruct (Sexpr.item item 0) as [head| |]; cbn [bind]; try discriminate.
  destruct (Sexpr.eq_str head key); [auto|]. intros [= <-]. reflexivity.
Qed.

(** *** The nodes of a net *)

Lemma net_read_item_nodes object item object' :
  Parsed.Net.read_item object item = Return object' ->
  if headed "node" item
  then exists node, Parsed.Node.from_sexpr item = Return node
                    /\ Parsed.Net.nodes object' = (Parsed.Net.nodes object ++ [node])%list
  else Parsed.Net.nodes object' = Parsed.Net.nodes object.
Proof.
  unfold Parsed.Net.read_item. intros H.
  destruct (Sexpr.when_key item "code" _ object) as [o1| |] eqn:E1; cbn [bind] in H;
    try discriminate.
  destruct (Sexpr.when_key item "name" _ o1) as [o2| |] eqn:E2; cbn [bind] in H;
    try discriminate.
  apply when_key_headed in E1, E2, H.
  assert (H1 : Parsed.Net.nodes o1 = Parsed.Net.nodes object).
  { destruct (headed "code" item); [|subst; reflexivity].
    unfold Sexpr.assign in E1. destruct (Sexpr.item item 1); cbn [bind] in E1;
      try discriminate. injection E1 as <-. reflexivity. }
  assert (H2 : Parsed.Net.nodes o2 = Parsed.Net.nodes o1).
  { destruct (headed "name" item); [|subst; reflexivity].
    unfold Sexpr.assign in E2. destruct (Sexpr.item item 1); cbn [bind] in E2;
      try discriminate. injection E2 as <-. reflexivity. }
  destruct (headed "node" item).
  - destruct (Parsed.Node.from_sexpr item) as [node| |]; cbn [bind] in H; try discriminate.
    injection H as <-. exists node. split; [reflexivity|].
    cbn [Parsed.Net.nodes Parsed.Net.add_node]. rewrite H2, H1. reflexivity.
  - subst object'. rewrite H2, H1. reflexivity.
Qed.

Lemma net_fold_nodes items : forall object net,
  foldM Parsed.Net.read_item items object = Return net ->
  exists nodes,
    mapM Parsed.Node.from_sexpr (List.filter (headed "node") items) = Return nodes
    /\ Parsed.Net.nodes net = (Parsed.Net.nodes object ++ nodes)%list.
Proof.
  induction items as [|item items IH]; intros object net H.
  - injection H as <-. exists []. rewrite app_nil_r. split; reflexivity.
  - cbn [foldM] in H.
    destruct (Parsed.Net.read_item object item) as [o1| |] eqn:E; cbn [bind] in H;
      try discriminate.
    apply net_read_item_nodes in E. destruct (IH _ _ H) as (nodes & Hm & Hn).
    cbn [List.filter]. destruct (headed "node" item).
    + destruct E as (node & Hnode & Ho1). exists (node :: nodes).
      cbn [mapM]. rewrite Hnode, Hm. cbn [bind].
      split; [reflexivity|]. rewrite Hn, Ho1, <- app_assoc. reflexivity.
    + exists nodes. split; [exact Hm|]. rewrite Hn, E. reflexivity.
Qed.

(** X22.  When [Net.from_sexpr] returns, the expression is a list that opens
    with [net], and the nodes of the net are what [Node.from_sexpr] makes of
    the items that open with [node], in their order. *)
Theorem net_from_sexpr_nodes (exp : Sexpr.t) (net : Parsed.Net.t) :
  Parsed.Net.from_sexpr exp = Return net ->
  exists items,
    exp = Sexpr.List (Sexpr.Str "net" :: items)
    /\ mapM Parsed.Node.from_sexpr (List.filter (headed "node") items)
       = Return (Parsed.Net.nodes net).
Proof.
  unfold Parsed.Net.from_sexpr, Sexpr.tagged.
  destruct exp as [| | |items]; cbn [bind]; try discriminate.
  destruct items as [|tag items]; cbn [index lookup list_lookup bind]; try discriminate.
  destruct tag as [s| | |]; cbn [Sexpr.eq_str]; try discriminate.
  destruct (s =? "net") eqn:Es; cbn [bind]; [|discriminate].
  apply String.eqb_eq in Es. subst s. intros H. exists items. split; [reflexivity|].
  cbn [foldM] in H. change (Parsed.Net.read_item Parsed.Net.new (Sexpr.Str "net"))
    with (Return (A:=Parsed.Net.t) Parsed.Net.new) in H. cbn [bind] in H.
  destruct (net_fold_nodes _ _ _ H) as (nodes & Hm & Hn). rewrite Hm, Hn. reflexivity.
Qed.

Lemma net_from_sexpr_nodes_witness :
  exists items,
    Sexpr.List [Sexpr.Str "net"; Sexpr.List [Sexpr.Str "code"; Sexpr.Int 3];
                Sexpr.List [Sexpr.Str "node"; Sexpr.List [Sexpr.Str "ref"; Sexpr.Str "U1"]];
                Sexpr.List [Sexpr.Str "name"; Sexpr.Str "/clk"];
                Sexpr.List [Sexpr.Str "node"; Sexpr.List [Sexpr.Str "ref"; Sexpr.Str "U2"]]]
    = Sexpr.List (Sexpr.Str "net" :: items)
    /\ mapM Parsed.Node.from_sexpr (List.filter (headed "node") items)
       = Return [Parsed.Node.set_ref (Sexpr.Str "U1") Parsed.Node.new;
                 Parsed.Node.set_ref (Sexpr.Str "U2") Parsed.Node.new].
Proof.
  exact (net_from_sexpr_nodes
           (Sexpr.List [Sexpr.Str "net"; Sexpr.List [Sexpr.Str "code"; Sexpr.Int 3];
                        Sexpr.List [Sexpr.Str "node";
                                    Sexpr.List [Sexpr.Str "ref"; Sexpr.Str "U1"]];
                        Sexpr.List [Sexpr.Str "name"; Sexpr.Str "/clk"];
                        Sexpr.List [Sexpr.Str "node";
                                    Sexpr.List [Sexpr.Str "ref"; Sexpr.Str "U2"]]])
           (Parsed.Net.mk (Sexpr.Int 3) (Sexpr.Str "/clk")
              [Parsed.Node.set_ref (Sexpr.Str "U1") Parsed.Node.new;
               Parsed.Node.set_ref (Sexpr.Str "U2") Parsed.Node.new])
           eq_refl).
Defined.

(** *** The description of a library source *)

Lemma assign_Return {A} item (set : Sexpr.t -> A -> A) object r :
  Sexpr.assign item set object = Return r -> exists v, r = set v object.
Proof.
  unfold Sexpr.assign. destruct (Sexpr.item item 1) as [v| |]; cbn [bind]; try discriminate.
  intros [= <-]. eauto.
Qed.

Lemma libsource_read_item object item object' :
  Parsed.Libsource.read_item object item = Return object' ->
  headed "desciption" item = false ->
  Parsed.Libsource.description object' = Parsed.Libsource.description object.
Proof.
  unfold Parsed.Libsource.read_item. intros H Hkey.
  destruct (Sexpr.when_key item "lib" _ object) as [o1| |] eqn:E1; cbn [bind] in H;
    try discriminate.
  destruct (Sexpr.when_key item "part" _ o1) as [o2| |] eqn:E2; cbn [bind] in H;
    try discriminate.
  apply when_key_headed in E1, E2, H. rewrite Hkey in H. subst object'.
  transitivity (Parsed.Libsource.description o1).
  - destruct (headed "part" item); [|subst; reflexivity].
    apply assign_Return in E2 as [v ->]. reflexivity.
  - destruct (headed "lib" item); [|subst; reflexivity].
    apply assign_Return in E1 as [v ->]. reflexivity.
Qed.

(** X23.  [Libsource.from_sexpr] fills the description from the key
    [desciption] only: when no item opens with that key the description stays
    empty, an item [description] notwithstanding. *)
Theorem libsource_description_unread (items : list Sexpr.t) (o : Parsed.Libsource.t) :
  Parsed.Libsource.from_sexpr (Sexpr.List items) = Return o ->
  Forall (fun item => headed "desciption" item = false) items ->
  Parsed.Libsource.description o = Sexpr.Str "".
Proof.
  unfold Parsed.Libsource.from_sexpr, Sexpr.tagged.
  destruct (index items 0) as [head| |]; cbn [bind]; try discriminate.
  destruct (Sexpr.eq_str head "libsource"); cbn [bind]; [|discriminate].
  change (Sexpr.Str "") with (Parsed.Libsource.description Parsed.Libsource.new).
  generalize Parsed.Libsource.new. induction items as [|item items IH]; intros object H Hall.
  - injection H as <-. reflexivity.
  - cbn [foldM] in H.
    destruct (Parsed.Libsource.read_item object item) as [o1| |] eqn:E; cbn [bind] in H;
      try discriminate.
    inversion Hall as [|? ? Hitem Hitems]; subst.
    rewrite (IH _ H Hitems). exact (libsource_read_item _ _ _ E Hitem).
Qed.

Lemma libsource_description_unread_witness :
  Parsed.Libsource.description
    (Parsed.Libsource.mk (Sexpr.Str "fpga") (Sexpr.Str "ADDER") (Sexpr.Str ""))
  = Sexpr.Str "".
Proof.
  apply (libsource_description_unread
           [Sexpr.Str "libsource"; Sexpr.List [Sexpr.Str "lib"; Sexpr.Str "fpga"];
            Sexpr.List [Sexpr.Str "part"; Sexpr.Str "ADDER"];
            Sexpr.List [Sexpr.Str "description"; Sexpr.Str "an adder"]]).
  - reflexivity.
  - repeat constructor.
Defined.

(** *** A later item replaces an earlier one *)

(** X24.  One more pair [(key value)] at the end of a [node] expression:
    the node is the one read without it, with the field of that key replaced
    by the value, and unchanged when the key is none of the four. *)
Theorem node_from_sexpr_last (items : list Sexpr.t) (o : Parsed.Node.t) (key : string)
    (v : Sexpr.t) :
  Parsed.Node.from_sexpr (Sexpr.List items) = Return o ->
  Parsed.Node.from_sexpr (Sexpr.List (items ++ [Sexpr.List [Sexpr.Str key; v]]))
  = Return (node_with key v o).
Proof.
  unfold Parsed.Node.from_sexpr, Sexpr.tagged.
  destruct items as [|tag items]; [discriminate|].
  cbn [app index lookup list_lookup bind].
  destruct (Sexpr.eq_str tag "node"); cbn [bind]; [|discriminate].
  intros H. rewrite app_comm_cons, foldM_app, H. cbn [bind foldM].
  unfold Parsed.Node.read_item, Sexpr.when_key, Sexpr.assign, node_with.
  cbn [Sexpr.item index lookup list_lookup bind Sexpr.eq_str].
  destruct (key =? "ref") eqn:E1.
  { apply String.eqb_eq in E1. subst key. reflexivity. }
  cbn [bind]. destruct (key =? "pin") eqn:E2.
  { apply String.eqb_eq in E2. subst key. reflexivity. }
  cbn [bind]. destruct (key =? "pintype") eqn:E3.
  { apply String.eqb_eq in E3. subst key. reflexivity. }
  cbn [bind]. destruct (key =? "pinfunction"); reflexivity.
Qed.

Lemma node_from_sexpr_last_witness :
  Parsed.Node.from_sexpr
    (Sexpr.List ([Sexpr.Str "node"; Sexpr.List [Sexpr.Str "pin"; Sexpr.Str "1"];
                  Sexpr.List [Sexpr.Str "ref"; Sexpr.Str "U1"]]
                 ++ [Sexpr.List [Sexpr.Str "pin"; Sexpr.Str "2"]]))
  = Return (node_with "pin" (Sexpr.Str "2")
              (Parsed.Node.mk (Sexpr.Str "U1") (Sexpr.Str "1") (Sexpr.Str "") (Sexpr.Str ""))).
Proof.
  apply (node_from_sexpr_last
           [Sexpr.Str "node"; Sexpr.List [Sexpr.Str "pin"; Sexpr.Str "1"];
            Sexpr.List [Sexpr.Str "ref"; Sexpr.Str "U1"]]).
  reflexivity.
Defined.

(** *** The shape of a field *)

(** X25.  [Field.from_sexpr] returns a field exactly on a list that opens
    with [field], then a list that opens with [name] and the name, then the
    value; anything may follow the name and the value. *)
Theorem field_from_sexpr_shape (exp : Sexpr.t) (name value : Sexpr.t) :
  Parsed.Field.from_sexpr exp = Return (Parsed.Field.mk name value)
  <-> exists after_name more,
        exp = Sexpr.List (Sexpr.Str "field"
                          :: Sexpr.List (Sexpr.Str "name" :: name :: after_name)
                          :: value :: more).
Proof.
  split.
  - unfold Parsed.Field.from_sexpr, Sexpr.tagged.
    destruct exp as [| | |items]; cbn [bind]; try discriminate.
    destruct items as [|tag items]; cbn [index lookup list_lookup bind]; try discriminate.
    destruct tag as [s| | |]; cbn [Sexpr.eq_str]; try discriminate.
    destruct (s =? "field") eqn:Es; cbn [bind]; [|discriminate].
    apply String.eqb_eq in Es. subst s.
    destruct items as [|first items]; cbn [index lookup list_lookup bind]; try discriminate.
    destruct first as [s| | |parts]; cbn [Sexpr.item bind]; try discriminate.
    + destruct (String.get 0 s) as [c|]; cbn [bind Sexpr.eq_str]; [|discriminate].
      assert (Hc : (String c "" =? "name") = false).
      { cbn [String.eqb]. destruct (Ascii.eqb c "n"); reflexivity. }
      rewrite Hc. discriminate.
    + destruct parts as [|key parts]; cbn [index lookup list_lookup bind]; try discriminate.
      destruct key as [k| | |]; cbn [Sexpr.eq_str negb orb]; try discriminate.
      destruct (k =? "name") eqn:Ek; cbn [negb orb]; [|discriminate].
      apply String.eqb_eq in Ek. subst k.
      destruct items as [|v more]; [discriminate|].
      cbn [List.length Nat.ltb Nat.leb].
      destruct parts as [|n after_name]; cbn [index lookup list_lookup bind];
        try discriminate.
      intros [= <- <-]. eauto.
  - intros (after_name & more & ->). reflexivity.
Qed.

Lemma field_from_sexpr_shape_witness :
  Parsed.Field.from_sexpr
    (Sexpr.List [Sexpr.Str "field";
                 Sexpr.List [Sexpr.Str "name"; Sexpr.Str "DW(integer) -- width"];
                 Sexpr.Str "8"])
  = Return (Parsed.Field.mk (Sexpr.Str "DW(integer) -- width") (Sexpr.Str "8")).
Proof.
  apply (proj2 (field_from_sexpr_shape _ _ _)). exists [], []. reflexivity.
Defined.

(** *** What is no expression of the token *)

Lemma tagged_Return tag exp items :
  Sexpr.tagged tag exp = Return items ->
  exists more, exp = Sexpr.List (Sexpr.Str tag :: more).
Proof.
  unfold Sexpr.tagged. destruct exp as [| | |l]; try discriminate.
  destruct l as [|head more]; cbn [index lookup list_lookup bind]; try discriminate.
  destruct head as [s| | |]; cbn [Sexpr.eq_str]; try discriminate.
  destruct (s =? tag) eqn:E; [|discriminate].
  apply String.eqb_eq in E. subst s. intros _. exists more. reflexivity.
Qed.

Ltac needs_tag :=
  let o := fresh "o" in
  let H := fresh "H" in
  intros o H;
  match type of H with
  | (let* items := Sexpr.tagged ?tag ?exp in _) = Return _ =>
      destruct (Sexpr.tagged tag exp) as [items| |] eqn:E; cbn [bind] in H;
      try discriminate H; exact (tagged_Return _ _ _ E)
  end.

(** X26.  Each of the ten [from_sexpr] readers returns only on a list that
    opens with the name of its own token; on anything else it raises. *)
Theorem from_sexpr_needs_token (exp : Sexpr.t) :
  let opens_with tag := exists more, exp = Sexpr.List (Sexpr.Str tag :: more) in
  (forall o, Parsed.Libsource.from_sexpr exp = Return o -> opens_with "libsource")
  /\ (forall o, Parsed.Sheetpath.from_sexpr exp = Return o -> opens_with "sheetpath")
  /\ (forall o, Parsed.CompProperty.from_sexpr exp = Return o -> opens_with "property")
  /\ (forall o, Parsed.Comp.from_sexpr exp = Return o -> opens_with "comp")
  /\ (forall o, Parsed.Field.from_sexpr exp = Return o -> opens_with "field")
  /\ (forall o, Parsed.Pin.from_sexpr exp = Return o -> opens_with "pin")
  /\ (forall o, Parsed.Libpart.from_sexpr exp = Return o -> opens_with "libpart")
  /\ (forall o, Parsed.Library.from_sexpr exp = Return o -> opens_with "library")
  /\ (forall o, Parsed.Node.from_sexpr exp = Return o -> opens_with "node")
  /\ (forall o, Parsed.Net.from_sexpr exp = Return o -> opens_with "net").
Proof.
  cbn zeta.
  unfold Parsed.Libsource.from_sexpr, Parsed.Sheetpath.from_sexpr,
    Parsed.CompProperty.from_sexpr, Parsed.Comp.from_sexpr, Parsed.Field.from_sexpr,
    Parsed.Pin.from_sexpr, Parsed.Libpart.from_sexpr, Parsed.Library.from_sexpr,
    Parsed.Node.from_sexpr, Parsed.Net.from_sexpr.
  repeat split; needs_tag.
Qed.

Lemma from_sexpr_needs_token_witness :
  exists more,
    Sexpr.List [Sexpr.Str "libpart"; Sexpr.List [Sexpr.Str "part"; Sexpr.Str "ADDER"];
                Sexpr.List [Sexpr.Str "pins";
                            Sexpr.List [Sexpr.Str "pin";
                                        Sexpr.List [Sexpr.Str "num"; Sexpr.Int 1];
                                        Sexpr.List [Sexpr.Str "name"; Sexpr.Str "A(7:0)"];
                                        Sexpr.List [Sexpr.Str "type"; Sexpr.Str "input"]]]]
    = Sexpr.List (Sexpr.Str "libpart" :: more).
Proof.
  refine (proj1 (proj2 (proj2 (proj2 (proj2 (proj2 (proj2
            (from_sexpr_needs_token _))))))) 
            (Parsed.Libpart.mk (Sexpr.Str "") (Sexpr.Str "ADDER") (Sexpr.Str "") (Sexpr.Str "")
               [] []
               [Parsed.Pin.mk (Sexpr.Int 1) (Sexpr.Str "A(7:0)") (Sexpr.Str "input")])
            _).
  reflexivity.
Defined.

(* ------------------------------------------------------------------------- *)
(** ** [generate_code]: where every component and net ends *)

Lemma kinds_disjoint comp :
  (is_parameter comp = true -> is_constant comp = false /\ is_boundary comp = false
                               /\ is_instance comp = false)
  /\ (is_constant comp = true -> is_parameter comp = false /\ is_boundary comp = false
                                 /\ is_instance comp = false)
  /\ (is_boundary comp = true -> is_parameter comp = false /\ is_constant comp = false
                                 /\ is_instance comp = false)
  /\ (is_instance comp = false
      <-> is_parameter comp = true \/ is_constant comp = true \/ is_boundary comp = true).
Proof.
  unfold is_parameter, is_constant, is_boundary, is_instance, one_of. cbn [existsb].
  destruct (part_of comp =? "PARAMETER") eqn:E1, (part_of comp =? "CONSTANT") eqn:E2,
           (part_of comp =? "IN") eqn:E3, (part_of comp =? "OUT") eqn:E4,
           (part_of comp =? "INOUT") eqn:E5;
    repeat match goal with H : (_ =? _) = true |- _ => apply String.eqb_eq in H end;
    try congruence; cbn; intuition (try discriminate; auto).
Qed.

(** *** The first pass *)

Lemma declare_component_step st comp :
  map Generic.name (Declare.generic_list (declare_component st comp))
  = (map Generic.name (Declare.generic_list st)
     ++ if is_parameter comp then [Netlist.Comp.value comp] else [])%list
  /\ map Generic.default (Declare.constant_list (declare_component st comp))
     = (map Generic.default (Declare.constant_list st)
        ++ if is_constant comp then [Netlist.Comp.value comp] else [])%list
  /\ (forall r, is_Some (Declare.direct_connects (declare_component st comp) !! r)
                <-> is_Some (Declare.direct_connects st !! r)
                    \/ (Netlist.Comp.ref comp = r
                        /\ (is_parameter comp = true \/ is_constant comp = true))).
Proof.
  destruct (kinds_disjoint comp) as (Hp & Hc & _).
  unfold declare_component. fold (part_of comp).
  fold (is_parameter comp). fold (is_constant comp).
  destruct (is_parameter comp) eqn:Ep.
  - destruct (Hp eq_refl) as (-> & _).
    cbn [Declare.generic_list Declare.constant_list Declare.direct_connects Generic.name].
    rewrite map_app, app_nil_r. split; [reflexivity|]. split; [reflexivity|].
    intros r. destruct (decide (Netlist.Comp.ref comp = r)) as [<-|Hne].
    + rewrite lookup_insert_eq. split; [auto|]. intros _. eexists. reflexivity.
    + rewrite lookup_insert_ne by exact Hne. tauto.
  - destruct (is_constant comp) eqn:Ec.
    + cbn [Declare.generic_list Declare.constant_list Declare.direct_connects Generic.name
           Generic.default].
      rewrite map_app, app_nil_r. split; [reflexivity|]. split; [reflexivity|].
      intros r. destruct (decide (Netlist.Comp.ref comp = r)) as [<-|Hne].
      * rewrite lookup_insert_eq. split; [auto|]. intros _. eexists. reflexivity.
      * rewrite lookup_insert_ne by exact Hne. tauto.
    + rewrite !app_nil_r. split; [reflexivity|]. split; [reflexivity|].
      intros r. intuition discriminate.
Qed.

Lemma declare_components_fold comps : forall st,
  let st' := fold_left declare_component comps st in
  map Generic.name (Declare.generic_list st')
  = (map Generic.name (Declare.generic_list st)
     ++ map Netlist.Comp.value (List.filter is_parameter comps))%list
  /\ map Generic.default (Declare.constant_list st')
     = (map Generic.default (Declare.constant_list st)
        ++ map Netlist.Comp.value (List.filter is_constant comps))%list
  /\ (forall r, is_Some (Declare.direct_connects st' !! r)
                <-> is_Some (Declare.direct_connects st !! r)
                    \/ exists comp, In comp comps /\ Netlist.Comp.ref comp = r
                                    /\ (is_parameter comp = true \/ is_constant comp = true)).
Proof.
  induction comps as [|comp comps IH]; intros st; cbn zeta.
  - cbn. rewrite !app_nil_r. split; [reflexivity|]. split; [reflexivity|].
    intros r. split; [auto|]. intros [H|(c & [] & _)]. exact H.
  - cbn [fold_left List.filter].
    destruct (IH (declare_component st comp)) as (H1 & H2 & H3).
    destruct (declare_component_step st comp) as (S1 & S2 & S3).
    rewrite H1, H2, S1, S2, <- !app_assoc. split; [|split].
    + destruct (is_parameter comp); reflexivity.
    + destruct (is_constant comp); reflexivity.
    + intros r. rewrite H3, S3. cbn [In]. split.
      * intros [[H|(Hr & Hk)]|(c & Hin & Hr & Hk)];
          [auto|right; exists comp; auto|right; exists c; auto].
      * intros [H|(c & [<-|Hin] & Hr & Hk)]; [auto|auto|right; exists c; auto].
Qed.

(** *** The second pass *)

Lemma build_instance_name cl comp c :
  build_instance cl comp = Return c -> Component.instance_name c = Netlist.Comp.ref comp.
Proof.
  unfold build_instance.
  destruct (attach_libparts_properties cl (Component.from_comp comp) 0) as (_ & _ & Hiname).
  destruct (mapM evaluate_property _); cbn [bind]; try discriminate.
  destruct (mapM _ (Component.ports _)); cbn [bind]; try discriminate.
  intros [= <-]. exact Hiname.
Qed.

Lemma add_component_step gl cl st comp st' :
  add_component gl cl st comp = Return st' ->
  map Port.dirstr (port_list st')
  = (map Port.dirstr (port_list st)
     ++ if is_boundary comp then [Py.lower (part_of comp)] else [])%list
  /\ map Component.instance_name (instance_list st')
     = (map Component.instance_name (instance_list st)
        ++ if is_instance comp then [Netlist.Comp.ref comp] else [])%list
  /\ (forall r, is_Some (direct_connects st' !! r)
                <-> is_Some (direct_connects st !! r)
                    \/ (Netlist.Comp.ref comp = r /\ is_boundary comp = true)).
Proof.
  destruct (kinds_disjoint comp) as (Hp & Hc & Hb & Hi).
  unfold add_component. fold (part_of comp). fold (is_boundary comp).
  destruct (is_boundary comp) eqn:Eb.
  - destruct (Hb eq_refl) as (_ & _ & ->).
    destruct (Port.update_from_name _ gl false) as [port| |] eqn:Eport; cbn [bind];
      try discriminate.
    intros [= <-]. cbn [port_list instance_list direct_connects].
    apply update_from_name_keeps in Eport as (_ & Hdir & _).
    cbn [Port.dirstr Port.set_typestr Port.set_dirstr] in Hdir.
    rewrite map_app, app_nil_r. cbn [map]. rewrite Hdir.
    split; [reflexivity|]. split; [reflexivity|].
    intros r. destruct (decide (Netlist.Comp.ref comp = r)) as [<-|Hne].
    + rewrite lookup_insert_eq. split; [auto|]. intros _. eexists. reflexivity.
    + rewrite lookup_insert_ne by exact Hne. tauto.
  - assert (Hdc : forall (dc : gmap string string) r,
              is_Some (dc !! r)
              <-> is_Some (dc !! r) \/ (Netlist.Comp.ref comp = r /\ false = true)).
    { intros dc r. intuition discriminate. }
    destruct (one_of (part_of comp) ["PARAMETER"; "CONSTANT"]) eqn:Epc.
    + intros [= <-]. rewrite !app_nil_r.
      assert (Hinst : is_instance comp = false).
      { apply Hi. unfold is_parameter, is_constant. unfold one_of in Epc. cbn [existsb] in Epc.
        rewrite orb_false_r in Epc. apply orb_true_iff in Epc. tauto. }
      rewrite Hinst, app_nil_r. split; [reflexivity|]. split; [reflexivity|]. apply Hdc.
    + destruct (build_instance cl comp) as [c| |] eqn:Ec; cbn [bind]; try discriminate.
      intros [= <-]. cbn [port_list instance_list direct_connects].
      assert (Hinst : is_instance comp = true).
      { apply not_false_iff_true. intros E. apply Hi in E.
        unfold is_parameter, is_constant in E. unfold one_of in Epc. cbn [existsb] in Epc.
        rewrite orb_false_r in Epc. apply orb_false_iff in Epc as [E1 E2].
        rewrite E1, E2 in E. intuition discriminate. }
      rewrite Hinst, map_app, app_nil_r. cbn [map]. rewrite (build_instance_name _ _ _ Ec).
      split; [reflexivity|]. split; [reflexivity|]. apply Hdc.
Qed.

Lemma add_components_fold gl cl comps : forall st st',
  foldM (add_component gl cl) comps st = Return st' ->
  map Port.dirstr (port_list st')
  = (map Port.dirstr (port_list st)
     ++ map (fun comp => Py.lower (part_of comp)) (List.filter is_boundary comps))%list
  /\ map Component.instance_name (instance_list st')
     = (map Component.instance_name (instance_list st)
        ++ map Netlist.Comp.ref (List.filter is_instance comps))%list
  /\ (forall r, is_Some (direct_connects st' !! r)
                <-> is_Some (direct_connects st !! r)
                    \/ exists comp, In comp comps /\ Netlist.Comp.ref comp = r
                                    /\ is_boundary comp = true).
Proof.
  induction comps as [|comp comps IH]; intros st st' H.
  - injection H as <-. cbn. rewrite !app_nil_r. split; [reflexivity|]. split; [reflexivity|].
    intros r. split; [auto|]. intros [H|(c & [] & _)]. exact H.
  - cbn [foldM] in H.
    destruct (add_component gl cl st comp) as [st1| |] eqn:E; cbn [bind] in H;
      try discriminate.
    destruct (IH _ _ H) as (H1 & H2 & H3).
    destruct (add_component_step _ _ _ _ _ E) as (S1 & S2 & S3).
    cbn [List.filter]. rewrite H1, H2, S1, S2, <- !app_assoc. split; [|split].
    + destruct (is_boundary comp); reflexivity.
    + destruct (is_instance comp); reflexivity.
    + intros r. rewrite H3, S3. cbn [In]. split.
      * intros [[H0|(Hr & Hk)]|(c & Hin & Hr & Hk)];
          [auto|right; exists comp; auto|right; exists c; auto].
      * intros [H0|(c & [<-|Hin] & Hr & Hk)]; [auto|auto|right; exists c; auto].
Qed.

(** *** The later passes keep what the lists are told apart by *)

Lemma strip_last_map {A B} (strip : A -> A) (f : A -> B) l :
  (forall x, f (strip x) = f x) -> map f (strip_last strip l) = map f l.
Proof.
  intros Hf. induction l as [|x [|y l] IH]; [reflexivity|cbn; now rewrite Hf|].
  change (strip_last strip (x :: y :: l)) with (x :: strip_last strip (y :: l)).
  cbn [map] in *. rewrite IH. reflexivity.
Qed.

Lemma finish_generic_kept gen :
  Generic.name (finish_generic gen) = Generic.name gen
  /\ Generic.default (finish_generic gen) = Generic.default gen.
Proof.
  unfold finish_generic, set_default_text. cbn zeta.
  destruct (negb _); split; reflexivity.
Qed.

Lemma library_components_names libparts :
  map Component.name (library_components libparts)
  = map Netlist.Libpart.part (List.filter is_library_part libparts).
Proof.
  induction libparts as [|lp libparts IH]; [reflexivity|].
  cbn [library_components List.filter]. unfold is_library_part at 1.
  destruct (one_of (Netlist.Libpart.part lp) _); cbn [negb]; [exact IH|].
  cbn [map]. rewrite IH. reflexivity.
Qed.

Lemma finish_library_components_names cl cl' :
  mapM finish_library_component cl = Return cl' ->
  map Component.name cl' = map Component.name cl.
Proof.
  intros H. apply mapM_Forall2 in H.
  induction H as [|c c' cl cl' Hc _ IH]; [reflexivity|].
  cbn [map]. rewrite IH. f_equal.
  unfold finish_library_component in Hc.
  destruct (mapM _ (Component.ports c)); cbn [bind] in Hc; try discriminate.
  injection Hc as <-. reflexivity.
Qed.

Lemma pins_names a b :
  pins a = pins b -> map Component.instance_name a = map Component.instance_name b.
Proof.
  intros H. apply (f_equal (map fst)) in H. unfold pins in H.
  rewrite !map_map in H. exact H.
Qed.

(** X27.  When the passes of [generate_code] return: the generics are the
    [PARAMETER] components by value, the constants the [CONSTANT] components,
    the ports the [IN], [OUT] and [INOUT] components by direction, the
    instances all other components by reference, each in the order of the
    netlist; the components of the library are the parts that are no
    pseudo-parts; the table of direct connections holds exactly the
    references of the components that are no instances; and the signals are
    the nets that are neither unconnected nor connected to one of these. *)
Theorem generate_context_partition (nl : Netlist.Netlist.t) (ctx : Context.t)
    (printed : list string) :
  generate_context nl = Return (ctx, printed) ->
  let comps := Netlist.Netlist.components nl in
  map Generic.name (Context.generic_list ctx)
  = map Netlist.Comp.value (List.filter is_parameter comps)
  /\ map Generic.default (Context.constant_list ctx)
     = map Netlist.Comp.value (List.filter is_constant comps)
  /\ map Port.dirstr (Context.port_list ctx)
     = map (fun comp => Py.lower (part_of comp)) (List.filter is_boundary comps)
  /\ map Component.instance_name (Context.instance_list ctx)
     = map Netlist.Comp.ref (List.filter is_instance comps)
  /\ map Component.name (Context.component_list ctx)
     = map Netlist.Libpart.part
           (List.filter is_library_part (Netlist.Netlist.libparts nl))
  /\ exists direct_connects : gmap string string,
       (forall r, is_Some (direct_connects !! r)
                  <-> exists comp, In comp comps /\ Netlist.Comp.ref comp = r
                                   /\ is_instance comp = false)
       /\ map (fun signal => (Signal.name signal, Signal.code signal))
              (Context.signal_list ctx)
          = map (fun net => (signal_name (Netlist.Net.name net), Netlist.Net.code net))
                (List.filter (makes_signal direct_connects) (Netlist.Netlist.nets nl)).
Proof.
  unfold generate_context. cbn zeta.
  set (comps := Netlist.Netlist.components nl).
  set (declared := fold_left declare_component comps (Declare.mk [] [] ∅)).
  destruct (declare_components_fold comps (Declare.mk [] [] ∅)) as (D1 & D2 & D3).
  fold declared in D1, D2, D3. cbn [Declare.generic_list Declare.constant_list
                                    Declare.direct_connects map app] in D1, D2, D3.
  destruct (foldM _ comps _) as [built| |] eqn:Ebuilt; cbn [bind]; try discriminate.
  destruct (add_components_fold _ _ _ _ _ Ebuilt) as (B1 & B2 & B3).
  cbn [port_list instance_list direct_connects map app] in B1, B2, B3.
  destruct (mapM finish_library_component _) as [component_list| |] eqn:Ecl; cbn [bind];
    try discriminate.
  intros [= <- <-].
  cbn [Context.generic_list Context.constant_list Context.port_list Context.instance_list
       Context.component_list Context.signal_list].
  destruct (process_nets_signals_pins (direct_connects built) (Netlist.Netlist.nets nl)
              (mk_wiring (instance_list built) [] [])) as [N1 N2].
  cbn [signal_list instances map app] in N1, N2.
  split; [|split; [|split; [|split; [|split]]]].
  - rewrite strip_last_map by reflexivity. rewrite map_map.
    rewrite (map_ext _ Generic.name) by (intros g; apply finish_generic_kept). exact D1.
  - rewrite map_map.
    rewrite (map_ext _ Generic.default) by (intros g; apply finish_generic_kept). exact D2.
  - rewrite strip_last_map by reflexivity. exact B1.
  - rewrite map_map. cbn [strip_endings Component.instance_name].
    change (map (fun x => Component.instance_name x) ?l) with (map Component.instance_name l).
    rewrite (pins_names _ _ N2). exact B2.
  - rewrite map_map. cbn [strip_endings Component.name].
    change (map (fun x => Component.name x) ?l) with (map Component.name l).
    rewrite (finish_library_components_names _ _ Ecl). apply library_components_names.
  - exists (direct_connects built). split; [|exact N1].
    intros r. rewrite B3, D3. split.
    + intros [[H|(c & Hin & Hr & Hk)]|(c & Hin & Hr & Hk)].
      * rewrite lookup_empty in H. destruct H as [? H]. discriminate H.
      * exists c. split; [exact Hin|]. split; [exact Hr|].
        apply (proj2 (proj2 (proj2 (kinds_disjoint c)))). tauto.
      * exists c. split; [exact Hin|]. split; [exact Hr|].
        apply (proj2 (proj2 (proj2 (kinds_disjoint c)))). tauto.
    + intros (c & Hin & Hr & Hk).
      apply (proj2 (proj2 (proj2 (kinds_disjoint c)))) in Hk.
      destruct Hk as [Hk|[Hk|Hk]]; [left; right|left; right|right]; exists c; auto.
Qed.

Lemma generate_context_partition_witness :
  exists ctx printed,
    generate_context sample_netlist = Return (ctx, printed)
    /\ map Generic.name (Context.generic_list ctx) = ["DW"]
    /\ map Generic.default (Context.constant_list ctx) = ["5"]
    /\ map Port.dirstr (Context.port_list ctx) = ["in"]
    /\ map Component.instance_name (Context.instance_list ctx) = ["U1"]
    /\ map Component.name (Context.component_list ctx) = ["ADDER"].
Proof.
  eexists _, _. split; [vm_compute; reflexivity|].
  destruct (generate_context_partition sample_netlist _ _ eq_refl)
    as (H1 & H2 & H3 & H4 & H5 & _).
  split; [exact H1|]. split; [exact H2|]. split; [exact H3|]. split; [exact H4|exact H5].
Defined.

